(** * The simulation tick engine of OpenRCT2: [GameState.cpp]

    A shallow embedding of [GameState::InitAll], [GameState::Tick],
    [GameState::UpdateLogic] and [GameState::CreateStateSnapshot], and the
    properties of the frame driver and of the update pipeline that follow
    from it.

    The C++ code works on process-wide globals and calls into many
    collaborators (network, replay, map, entities, rides, windows, ...)
    that live in other translation units.  The embedding keeps

    - every global that [GameState.cpp] reads or writes as a field of
      [State], with unsigned 32-bit arithmetic written out;
    - every collaborator entry point as a constructor of [Call]; what a
      call does to the state is a parameter ([ext]) of the development;
    - a chronological trace of the calls that [GameState.cpp] makes, so
      that the order of the pipeline can be stated. *)

From Stdlib Require Import ZArith List Bool Lia.
Import ListNotations.
Local Open Scope Z_scope.

Set Implicit Arguments.

(** ** Machine arithmetic *)

(** Conversion to [uint32_t]. *)
Definition wrap32 (z : Z) : Z := z mod 2 ^ 32.

(** Conversion to an unsigned integer of [w] bits. *)
Definition wrap (w z : Z) : Z := z mod 2 ^ w.

(** [std::clamp(v, lo, hi)]: [(v < lo) ? lo : (hi < v) ? hi : v]. *)
Definition clamp (v lo hi : Z) : Z :=
  if v <? lo then lo else if hi <? v then hi else v.

(** [flags & mask] is non-zero. *)
Definition test_mask (flags mask : Z) : bool := negb (Z.land flags mask =? 0).

(** [flags &= ~mask]. *)
Definition clear_mask (flags mask : Z) : Z := Z.land flags (Z.lnot mask).

(** ** Enumerations

    Of each enumeration only the enumerators that [GameState.cpp] names
    are distinguished; the remaining ones are kept apart by a number. *)

Inductive NetworkMode : Set :=
| NETWORK_MODE_NONE
| NETWORK_MODE_CLIENT
| NETWORK_MODE_SERVER.

Inductive NetworkStatus : Set :=
| NETWORK_STATUS_CONNECTED
| NETWORK_STATUS_other (n : nat).

Inductive NetworkAuth : Set :=
| NetworkAuth_Ok
| NetworkAuth_other (n : nat).

Inductive InputState : Set :=
| InputState_Reset
| InputState_Normal
| InputState_other (n : nat).

Inductive HOOK_TYPE : Set :=
| INTERVAL_TICK
| INTERVAL_DAY.

Definition NetworkMode_eqb (a b : NetworkMode) : bool :=
  match a, b with
  | NETWORK_MODE_NONE, NETWORK_MODE_NONE
  | NETWORK_MODE_CLIENT, NETWORK_MODE_CLIENT
  | NETWORK_MODE_SERVER, NETWORK_MODE_SERVER => true
  | _, _ => false
  end.

Definition is_CONNECTED (st : NetworkStatus) : bool :=
  match st with NETWORK_STATUS_CONNECTED => true | _ => false end.

Definition is_Ok (a : NetworkAuth) : bool :=
  match a with NetworkAuth_Ok => true | _ => false end.

Definition is_Reset (i : InputState) : bool :=
  match i with InputState_Reset => true | _ => false end.

Definition is_Normal (i : InputState) : bool :=
  match i with InputState_Normal => true | _ => false end.

(** ** The logical date

    [Date(monthsElapsed, monthTicks)] keeps its two arguments; how a day
    number is derived from them belongs to the localisation code and is a
    parameter ([Date_GetDay]) below. *)

Record Date : Set := mkDate { date_monthsElapsed : Z; date_monthTicks : Z }.

(** ** Collaborator entry points called from [GameState.cpp] *)

Inductive Call : Set :=
(* GameState::InitAll *)
| MapInit (mapSize_x mapSize_y : Z)
| Park_Initialise
| FinanceInit
| BannerInit
| RideInitAll
| ResetAllEntities
| UpdateConsolidatedPatrolAreas
| DateReset
| ClimateReset_CoolAndWet
| News_InitQueue
| ContextInit
| ScenerySetDefaultPlacementConfiguration
| ContextBroadcastIntent_CLEAR_TILE_INSPECTOR_CLIPBOARD
| LoadPalette
| CheatsReset
| ClearRestrictedScenery
| ScriptEngine_ClearParkStorage
(* GameState::Tick *)
| ScreenshotCheck
| GameHandleKeyboardInput
| TitleSequencePlayer_Update
| network_update
| network_send_tick
| MapAnimationInvalidateAll
| network_process_pending
| GameActions_ProcessQueue
| network_flush
| ContextUpdateMapTooltip
| ContextHandleInput
| ScenarioAutosaveCheck
| WindowDispatchUpdateAll
(* GameState::UpdateLogic *)
| ReplayManager_Update
| network_check_desynchronisation
| network_request_gamestate_snapshot
| DateUpdate
| ScenarioUpdate
| ClimateUpdate
| MapUpdateTiles
| MapRemoveProvisionalElements
| MapUpdatePathWideFlags
| PeepUpdateAll
| MapRestoreProvisionalElements
| VehicleUpdateAll
| UpdateAllMiscEntities
| Ride_UpdateAll
| Park_Update (date : Date)
| ResearchUpdate
| RideRatingsUpdateAll
| RideMeasurementsUpdate
| News_UpdateCurrentItem
| VehicleSoundsUpdate
| PeepUpdateCrowdNoise
| ClimateUpdateSound
| EditorOpenWindowsForCurrentStep
| HookEngine_Call (hook : HOOK_TYPE)
(* GameState::CreateStateSnapshot; Capture and LinkSnapshot act on the
   snapshot that the CreateSnapshot just before them returned *)
| Snapshots_CreateSnapshot
| Snapshots_Capture
| Snapshots_LinkSnapshot (tick srand0 : Z).

(** What the trace records: the collaborator calls, and three marks for
    steps of [GameState.cpp] itself. *)
Inductive Event : Set :=
| Ext (c : Call)
| Enter_UpdateLogic          (* GameState::UpdateLogic is entered *)
| Advance_gCurrentTicks      (* gCurrentTicks++ *)
| Loop_break.                (* a break of the update loop of Tick *)

(** ** The state *)

Section GameState.

(** Whatever the collaborators keep besides the globals below (map,
    entities, rides, queued actions, sockets, ...). *)
Variable World : Type.

Record State : Type := mkState {
  (* counters *)
  gCurrentTicks : Z;             (* uint32_t *)
  gSavedAge : Z;                 (* unsigned, SAVED_AGE_BITS wide *)
  gScreenAge : Z;                (* unsigned, SCREEN_AGE_BITS wide *)
  gLastAutoSaveUpdate : Z;       (* uint32_t *)
  (* pause and speed *)
  gGameSpeed : Z;
  gGamePaused : bool;
  gDoSingleUpdate : bool;
  (* other globals *)
  gInUpdateCode : bool;
  gInMapInitCode : bool;
  gNextGuestNumber : Z;
  gScreenFlags : Z;
  gOpenRCT2Headless : bool;
  gPreviewingTitleSequenceInGame : bool;
  PauseServerIfNoClients : bool; (* gConfigNetwork.PauseServerIfNoClients *)
  gCurrentRealTimeTicks : Z;
  gWindowMapFlashingFlags : Z;
  gDateMonthsElapsed : Z;
  gDateMonthTicks : Z;
  (* member of GameState *)
  _date : Date;
  (* what the getters of the collaborators return *)
  network_get_mode : NetworkMode;
  network_get_status : NetworkStatus;
  network_get_authstatus : NetworkAuth;
  network_get_server_tick : Z;   (* uint32_t *)
  network_get_num_players : Z;
  network_gamestate_snapshots_enabled : bool;
  GetTitleSequencePlayer : bool; (* the player is not nullptr *)
  InputGetState : InputState;
  gInputFlags : Z;
  ScenarioRandState_s0 : Z;
  (* the rest *)
  world : World
}.

(** The globals that [GameState.cpp] assigns, replaced together. *)
Definition assign (s : State)
    (ticks savedAge screenAge lastAutoSave : Z) (paused single : bool)
    (inUpdate inMapInit : bool) (nextGuest flashing : Z) (date : Date)
    (inputFlags : Z) : State :=
  {| gCurrentTicks := ticks; gSavedAge := savedAge; gScreenAge := screenAge;
     gLastAutoSaveUpdate := lastAutoSave;
     gGameSpeed := gGameSpeed s;
     gGamePaused := paused; gDoSingleUpdate := single;
     gInUpdateCode := inUpdate; gInMapInitCode := inMapInit;
     gNextGuestNumber := nextGuest;
     gScreenFlags := gScreenFlags s;
     gOpenRCT2Headless := gOpenRCT2Headless s;
     gPreviewingTitleSequenceInGame := gPreviewingTitleSequenceInGame s;
     PauseServerIfNoClients := PauseServerIfNoClients s;
     gCurrentRealTimeTicks := gCurrentRealTimeTicks s;
     gWindowMapFlashingFlags := flashing;
     gDateMonthsElapsed := gDateMonthsElapsed s;
     gDateMonthTicks := gDateMonthTicks s;
     _date := date;
     network_get_mode := network_get_mode s;
     network_get_status := network_get_status s;
     network_get_authstatus := network_get_authstatus s;
     network_get_server_tick := network_get_server_tick s;
     network_get_num_players := network_get_num_players s;
     network_gamestate_snapshots_enabled := network_gamestate_snapshots_enabled s;
     GetTitleSequencePlayer := GetTitleSequencePlayer s;
     InputGetState := InputGetState s;
     gInputFlags := inputFlags;
     ScenarioRandState_s0 := ScenarioRandState_s0 s;
     world := world s |}.

Definition set_gCurrentTicks (v : Z) (s : State) : State :=
  assign s v (gSavedAge s) (gScreenAge s) (gLastAutoSaveUpdate s) (gGamePaused s)
    (gDoSingleUpdate s) (gInUpdateCode s) (gInMapInitCode s) (gNextGuestNumber s)
    (gWindowMapFlashingFlags s) (_date s) (gInputFlags s).

Definition set_gSavedAge (v : Z) (s : State) : State :=
  assign s (gCurrentTicks s) v (gScreenAge s) (gLastAutoSaveUpdate s) (gGamePaused s)
    (gDoSingleUpdate s) (gInUpdateCode s) (gInMapInitCode s) (gNextGuestNumber s)
    (gWindowMapFlashingFlags s) (_date s) (gInputFlags s).

Definition set_gScreenAge (v : Z) (s : State) : State :=
  assign s (gCurrentTicks s) (gSavedAge s) v (gLastAutoSaveUpdate s) (gGamePaused s)
    (gDoSingleUpdate s) (gInUpdateCode s) (gInMapInitCode s) (gNextGuestNumber s)
    (gWindowMapFlashingFlags s) (_date s) (gInputFlags s).

Definition set_gLastAutoSaveUpdate (v : Z) (s : State) : State :=
  assign s (gCurrentTicks s) (gSavedAge s) (gScreenAge s) v (gGamePaused s)
    (gDoSingleUpdate s) (gInUpdateCode s) (gInMapInitCode s) (gNextGuestNumber s)
    (gWindowMapFlashingFlags s) (_date s) (gInputFlags s).

Definition set_gGamePaused (v : bool) (s : State) : State :=
  assign s (gCurrentTicks s) (gSavedAge s) (gScreenAge s) (gLastAutoSaveUpdate s) v
    (gDoSingleUpdate s) (gInUpdateCode s) (gInMapInitCode s) (gNextGuestNumber s)
    (gWindowMapFlashingFlags s) (_date s) (gInputFlags s).

Definition set_gDoSingleUpdate (v : bool) (s : State) : State :=
  assign s (gCurrentTicks s) (gSavedAge s) (gScreenAge s) (gLastAutoSaveUpdate s)
    (gGamePaused s) v (gInUpdateCode s) (gInMapInitCode s) (gNextGuestNumber s)
    (gWindowMapFlashingFlags s) (_date s) (gInputFlags s).

Definition set_gInUpdateCode (v : bool) (s : State) : State :=
  assign s (gCurrentTicks s) (gSavedAge s) (gScreenAge s) (gLastAutoSaveUpdate s)
    (gGamePaused s) (gDoSingleUpdate s) v (gInMapInitCode s) (gNextGuestNumber s)
    (gWindowMapFlashingFlags s) (_date s) (gInputFlags s).

Definition set_gInMapInitCode (v : bool) (s : State) : State :=
  assign s (gCurrentTicks s) (gSavedAge s) (gScreenAge s) (gLastAutoSaveUpdate s)
    (gGamePaused s) (gDoSingleUpdate s) (gInUpdateCode s) v (gNextGuestNumber s)
    (gWindowMapFlashingFlags s) (_date s) (gInputFlags s).

Definition set_gNextGuestNumber (v : Z) (s : State) : State :=
  assign s (gCurrentTicks s) (gSavedAge s) (gScreenAge s) (gLastAutoSaveUpdate s)
    (gGamePaused s) (gDoSingleUpdate s) (gInUpdateCode s) (gInMapInitCode s) v
    (gWindowMapFlashingFlags s) (_date s) (gInputFlags s).

Definition set_gWindowMapFlashingFlags (v : Z) (s : State) : State :=
  assign s (gCurrentTicks s) (gSavedAge s) (gScreenAge s) (gLastAutoSaveUpdate s)
    (gGamePaused s) (gDoSingleUpdate s) (gInUpdateCode s) (gInMapInitCode s)
    (gNextGuestNumber s) v (_date s) (gInputFlags s).

Definition set__date (v : Date) (s : State) : State :=
  assign s (gCurrentTicks s) (gSavedAge s) (gScreenAge s) (gLastAutoSaveUpdate s)
    (gGamePaused s) (gDoSingleUpdate s) (gInUpdateCode s) (gInMapInitCode s)
    (gNextGuestNumber s) (gWindowMapFlashingFlags s) v (gInputFlags s).

Definition set_gInputFlags (v : Z) (s : State) : State :=
  assign s (gCurrentTicks s) (gSavedAge s) (gScreenAge s) (gLastAutoSaveUpdate s)
    (gGamePaused s) (gDoSingleUpdate s) (gInUpdateCode s) (gInMapInitCode s)
    (gNextGuestNumber s) (gWindowMapFlashingFlags s) (_date s) v.


(** ** Constants and collaborators that the sources do not define *)

(** Bit masks, the sentinel of the autosave timer, the widths of
    [gScreenAge] and [gSavedAge] and the [ENABLE_SCRIPTING] compile-time
    switch are declared in headers outside [GameState.cpp]; they are
    parameters. *)
Record Consts : Set := mkConsts {
  SCREEN_FLAGS_TITLE_DEMO : Z;
  SCREEN_FLAGS_TRACK_DESIGNER : Z;
  SCREEN_FLAGS_TRACK_MANAGER : Z;
  SCREEN_FLAGS_EDITOR : Z;
  INPUT_FLAG_VIEWPORT_SCROLLING : Z;
  MapFlashingFlags_SwitchColour : Z;
  MapFlashingFlags_FlashGuests : Z;
  MapFlashingFlags_GuestListOpen : Z;
  MapFlashingFlags_FlashStaff : Z;
  MapFlashingFlags_StaffListOpen : Z;
  AUTOSAVE_PAUSE : Z;
  SCREEN_AGE_BITS : Z;
  SAVED_AGE_BITS : Z;
  ENABLE_SCRIPTING : bool
}.

(** The collaborators: [ext c] is what the call [c] does to the state;
    the other fields are the values that three of them return. *)
Record Env : Type := mkEnv {
  ext : Call -> State -> State;
  network_check_desynchronisation_result : State -> bool;
  Platform_GetTicks : State -> Z;
  Date_GetDay : Date -> Z
}.

Variable K : Consts.
Variable E : Env.

(** ** A state monad with a trace *)

Definition Config : Type := State * list Event.

Definition M (A : Type) : Type := Config -> A * Config.

Definition ret {A} (a : A) : M A := fun c => (a, c).

Definition bind {A B} (m : M A) (k : A -> M B) : M B :=
  fun c => let (a, c') := m c in k a c'.

Notation "x <- m ;; k" := (bind m (fun x => k))
  (at level 61, m at next level, right associativity).
Notation "m ;; k" := (bind m (fun _ => k))
  (at level 61, right associativity).

(** Read a global, or the result of a getter. *)
Definition gets {A} (f : State -> A) : M A := fun c => (f (fst c), c).

(** Assign globals. *)
Definition modify (f : State -> State) : M unit :=
  fun c => (tt, (f (fst c), snd c)).

Definition mark (e : Event) : M unit :=
  fun c => (tt, (fst c, snd c ++ [e])).

(** Call a collaborator: it is recorded, then it acts. *)
Definition call (c : Call) : M unit :=
  mark (Ext c) ;; modify (ext E c).

Definition when (b : bool) (m : M unit) : M unit :=
  if b then m else ret tt.

Definition state_of {A} (r : A * Config) : State := fst (snd r).
Definition trace_of {A} (r : A * Config) : list Event := snd (snd r).

(** ** Helpers of the repository that are not among the sources *)

(** Modelled from the spec: [GameIsPaused] (Game.cpp is missing).  The
    pause state is the is-paused flag of the Pause/Speed State. *)
Definition GameIsPaused : M bool := gets gGamePaused.

(** Modelled from the spec: [GameIsNotPaused] (Game.cpp is missing). *)
Definition GameIsNotPaused : M bool := gets (fun s => negb (gGamePaused s)).

(** Modelled from the spec: [PauseToggle] (Game.cpp is missing) toggles
    the is-paused flag. *)
Definition PauseToggle : M unit :=
  modify (fun s => set_gGamePaused (negb (gGamePaused s)) s).

(** Modelled from the spec: [InputTestFlag(flag)] (Input.cpp is missing)
    tells whether a bit of the flags of the user input state is set. *)
Definition InputTestFlag (flag : Z) : M bool :=
  gets (fun s => test_mask (gInputFlags s) flag).

(** Modelled from the spec: [InputSetFlag(flag, false)] (Input.cpp is
    missing) clears that bit. *)
Definition InputSetFlag_false (flag : Z) : M unit :=
  modify (fun s => set_gInputFlags (clear_mask (gInputFlags s) flag) s).

(** [gScreenFlags & mask]. *)
Definition screen_flag (mask : Z) : M bool :=
  gets (fun s => test_mask (gScreenFlags s) mask).

(** ** [GameState::InitAll] *)

Definition InitAll (mapSize_x mapSize_y : Z) : M unit :=
  modify (set_gInMapInitCode true) ;;
  modify (set_gCurrentTicks 0) ;;
  call (MapInit mapSize_x mapSize_y) ;;
  call Park_Initialise ;;
  call FinanceInit ;;
  call BannerInit ;;
  call RideInitAll ;;
  call ResetAllEntities ;;
  call UpdateConsolidatedPatrolAreas ;;
  call DateReset ;;
  call ClimateReset_CoolAndWet ;;
  call News_InitQueue ;;
  modify (set_gInMapInitCode false) ;;
  modify (set_gNextGuestNumber 1) ;;
  call ContextInit ;;
  call ScenerySetDefaultPlacementConfiguration ;;
  call ContextBroadcastIntent_CLEAR_TILE_INSPECTOR_CLIPBOARD ;;
  call LoadPalette ;;
  call CheatsReset ;;
  call ClearRestrictedScenery ;;
  when (ENABLE_SCRIPTING K) (call ScriptEngine_ClearParkStorage).

(** ** [GameState::CreateStateSnapshot] *)

Definition CreateStateSnapshot : M unit :=
  call Snapshots_CreateSnapshot ;;
  call Snapshots_Capture ;;
  ticks <- gets gCurrentTicks ;;
  s0 <- gets ScenarioRandState_s0 ;;
  call (Snapshots_LinkSnapshot ticks s0).

(** ** [GameState::UpdateLogic]

    [Tick] calls [UpdateLogic()] without a timing record; [report_time]
    then does nothing, and the wall-clock samples it would store are not
    part of the state. *)

(** [gScreenAge++; if (gScreenAge == 0) gScreenAge--;] *)
Definition increment_gScreenAge (s : State) : State :=
  let a := wrap (SCREEN_AGE_BITS K) (gScreenAge s + 1) in
  set_gScreenAge (if a =? 0 then wrap (SCREEN_AGE_BITS K) (a - 1) else a) s.

(** The stash of the day number and the date step, lines 310 to 318.
    The result is the stashed [day]. *)
Definition UpdateLogic_date : M Z :=
  day <- gets (fun s => Date_GetDay E (_date s)) ;;
  call DateUpdate ;;
  months <- gets gDateMonthsElapsed ;;
  monthTicks <- gets gDateMonthTicks ;;
  modify (set__date (mkDate (wrap32 months) monthTicks)) ;;
  ret day.

(** The subsystem updates, lines 320 to 363. *)
Definition UpdateLogic_subsystems : M unit :=
  call ScenarioUpdate ;;
  call ClimateUpdate ;;
  call MapUpdateTiles ;;
  call MapRemoveProvisionalElements ;;
  call MapUpdatePathWideFlags ;;
  call PeepUpdateAll ;;
  call MapRestoreProvisionalElements ;;
  call VehicleUpdateAll ;;
  call UpdateAllMiscEntities ;;
  call Ride_UpdateAll ;;
  editor <- screen_flag (SCREEN_FLAGS_EDITOR K) ;;
  when (negb editor) (date <- gets _date ;; call (Park_Update date)) ;;
  call ResearchUpdate ;;
  call RideRatingsUpdateAll ;;
  call RideMeasurementsUpdate ;;
  call News_UpdateCurrentItem ;;
  call MapAnimationInvalidateAll ;;
  call VehicleSoundsUpdate ;;
  call PeepUpdateCrowdNoise ;;
  call ClimateUpdateSound ;;
  call EditorOpenWindowsForCurrentStep.

(** The end of the tick, lines 368 to 393; [day] is the stashed day. *)
Definition UpdateLogic_finish (day : Z) : M unit :=
  last <- gets gLastAutoSaveUpdate ;;
  when (last =? AUTOSAVE_PAUSE K)
    (modify (fun s => set_gLastAutoSaveUpdate (wrap32 (Platform_GetTicks E s)) s)) ;;
  call GameActions_ProcessQueue ;;
  call network_process_pending ;;
  call network_flush ;;
  mark Advance_gCurrentTicks ;;
  modify (fun s => set_gCurrentTicks (wrap32 (gCurrentTicks s + 1)) s) ;;
  modify (fun s =>
            set_gSavedAge (wrap (SAVED_AGE_BITS K) (gSavedAge s + 1)) s) ;;
  when (ENABLE_SCRIPTING K)
    (call (HookEngine_Call INTERVAL_TICK) ;;
     today <- gets (fun s => Date_GetDay E (_date s)) ;;
     when (negb (day =? today)) (call (HookEngine_Call INTERVAL_DAY))).

(** Lines 310 to 393: everything after the network block. *)
Definition UpdateLogic_pipeline : M unit :=
  day <- UpdateLogic_date ;;
  UpdateLogic_subsystems ;;
  UpdateLogic_finish day.

(** Lines 267 to 308: the start of [UpdateLogic] and its network block.
    The result tells whether the update goes on; [false] is the [return]
    of line 291. *)
Definition UpdateLogic_network : M bool :=
  mark Enter_UpdateLogic ;;
  modify increment_gScreenAge ;;
  call ReplayManager_Update ;;
  call network_update ;;
  mode <- gets network_get_mode ;;
  match mode with
  | NETWORK_MODE_SERVER =>
      enabled <- gets network_gamestate_snapshots_enabled ;;
      when enabled CreateStateSnapshot ;;
      call network_send_tick ;;
      ret true
  | NETWORK_MODE_CLIENT =>
      serverTick <- gets network_get_server_tick ;;
      ticks <- gets gCurrentTicks ;;
      if serverTick =? ticks then
        ret false                                         (* return *)
      else
        desynced <- gets (network_check_desynchronisation_result E) ;;
        call network_check_desynchronisation ;;
        enabled <- gets network_gamestate_snapshots_enabled ;;
        status <- gets network_get_status ;;
        when (desynced && (enabled && is_CONNECTED status))
          (CreateStateSnapshot ;;
           call network_request_gamestate_snapshot) ;;
        ret true
  | NETWORK_MODE_NONE =>
      ret true
  end.

Definition UpdateLogic : M unit :=
  continue <- UpdateLogic_network ;;
  if continue then UpdateLogic_pipeline else ret tt.

(** [n] calls of [UpdateLogic] in a row. *)
Fixpoint UpdateLogic_times (n : nat) : M unit :=
  match n with
  | O => ret tt
  | S n' => UpdateLogic ;; UpdateLogic_times n'
  end.

(** ** [GameState::Tick] *)

(** Lines 128 and 129: the instance is a network client, connected and
    authenticated. *)
Definition catching_up (s : State) : bool :=
  NetworkMode_eqb (network_get_mode s) NETWORK_MODE_CLIENT
  && is_CONNECTED (network_get_status s)
  && is_Ok (network_get_authstatus s).

(** Lines 111 and 128 to 141: the number of updates before the pause is
    looked at.  The subtraction is one of [uint32_t]; the shift is one of
    [int], defined by C++ for shift counts below 32, and its result is
    converted to [uint32_t]. *)
Definition numUpdates_of (s : State) : Z :=
  if catching_up s
  then clamp (wrap32 (network_get_server_tick s - gCurrentTicks s)) 0 10
  else if 1 <? gGameSpeed s then wrap32 (Z.shiftl 1 (gGameSpeed s - 1))
  else 1.

(** Lines 143 to 151: [isPaused]. *)
Definition isPaused_of (s : State) : bool :=
  if NetworkMode_eqb (network_get_mode s) NETWORK_MODE_SERVER
     && PauseServerIfNoClients s
  then
    if gOpenRCT2Headless s && (network_get_num_players s =? 1)
    then gGamePaused s || true
    else gGamePaused s
  else gGamePaused s.

(** Lines 190 to 204: the test after an update.  The result tells
    whether the loop is left ([break]). *)
Definition update_loop_check : M bool :=
  speed <- gets gGameSpeed ;;
  if speed =? 1 then
    input <- gets InputGetState ;;
    if is_Reset input || is_Normal input then
      scrolling <- InputTestFlag (INPUT_FLAG_VIEWPORT_SCROLLING K) ;;
      if scrolling then
        InputSetFlag_false (INPUT_FLAG_VIEWPORT_SCROLLING K) ;;
        ret true                                          (* break *)
      else ret false
    else ret true                                         (* break *)
  else ret false.

(** Lines 187 to 205: the loop, with [n] iterations left. *)
Fixpoint update_loop (n : nat) : M unit :=
  match n with
  | O => ret tt
  | S n' =>
      UpdateLogic ;;
      leave <- update_loop_check ;;
      if leave then mark Loop_break else update_loop n'
  end.

(** Lines 213 to 229: the flashing of guests and staff on the map. *)
Definition update_map_flashing (s : State) : State :=
  let f0 := gWindowMapFlashingFlags s in
  let f1 := if gCurrentRealTimeTicks s mod 4 =? 0
            then Z.lxor f0 (MapFlashingFlags_SwitchColour K) else f0 in
  let f2 := clear_mask f1 (MapFlashingFlags_FlashGuests K) in
  let f3 := if test_mask f2 (MapFlashingFlags_GuestListOpen K)
            then Z.lor f2 (MapFlashingFlags_FlashGuests K) else f2 in
  let f4 := clear_mask f3 (MapFlashingFlags_GuestListOpen K) in
  let f5 := clear_mask f4 (MapFlashingFlags_FlashStaff K) in
  let f6 := if test_mask f5 (MapFlashingFlags_StaffListOpen K)
            then Z.lor f5 (MapFlashingFlags_FlashStaff K) else f5 in
  let f7 := clear_mask f6 (MapFlashingFlags_StaffListOpen K) in
  set_gWindowMapFlashingFlags f7 s.

(** Lines 153 to 184: the pause.  The result is [didRunSingleFrame] and
    the final [numUpdates]. *)
Definition Tick_pause (numUpdates : Z) : M (bool * Z) :=
  isPaused <- gets isPaused_of ;;
  if isPaused then
    single <- gets gDoSingleUpdate ;;
    mode <- gets network_get_mode ;;
    if single && NetworkMode_eqb mode NETWORK_MODE_NONE then
      PauseToggle ;;
      ret (true, 1)
    else
      mode' <- gets network_get_mode ;;
      when (NetworkMode_eqb mode' NETWORK_MODE_SERVER) (call network_send_tick) ;;
      call MapAnimationInvalidateAll ;;
      call network_process_pending ;;
      call GameActions_ProcessQueue ;;
      ret (false, 0)
  else ret (false, numUpdates).

(** Lines 207 to 251: after the loop. *)
Definition Tick_finish (didRunSingleFrame : bool) : M unit :=
  call network_flush ;;
  headless <- gets gOpenRCT2Headless ;;
  when (negb headless)
    (InputSetFlag_false (INPUT_FLAG_VIEWPORT_SCROLLING K) ;;
     modify update_map_flashing ;;
     call ContextUpdateMapTooltip ;;
     call ContextHandleInput) ;;
  demo <- screen_flag (SCREEN_FLAGS_TITLE_DEMO K) ;;
  designer <- screen_flag (SCREEN_FLAGS_TRACK_DESIGNER K) ;;
  manager <- screen_flag (SCREEN_FLAGS_TRACK_MANAGER K) ;;
  when (negb demo && negb designer && negb manager) (call ScenarioAutosaveCheck) ;;
  call WindowDispatchUpdateAll ;;
  notPaused <- GameIsNotPaused ;;
  demo' <- screen_flag (SCREEN_FLAGS_TITLE_DEMO K) ;;
  when (didRunSingleFrame && notPaused && negb demo') PauseToggle ;;
  modify (set_gDoSingleUpdate false) ;;
  modify (set_gInUpdateCode false).

(** Lines 108 to 126: before the number of updates is decided. *)
Definition Tick_begin : M unit :=
  modify (set_gInUpdateCode true) ;;
  call ScreenshotCheck ;;
  call GameHandleKeyboardInput ;;
  notPaused <- GameIsNotPaused ;;
  previewing <- gets gPreviewingTitleSequenceInGame ;;
  when (notPaused && previewing)
    (player <- gets GetTitleSequencePlayer ;;
     when player (call TitleSequencePlayer_Update)) ;;
  call network_update.

Definition Tick : M unit :=
  Tick_begin ;;
  numUpdates <- gets numUpdates_of ;;
  r <- Tick_pause numUpdates ;;
  update_loop (Z.to_nat (snd r)) ;;
  Tick_finish (fst r).

(** ** Vocabulary of the properties *)

(** No collaborator call changes what [f] reads. *)
Definition stable {X : Type} (f : State -> X) : Prop :=
  forall (c : Call) (s : State), f (ext E c s) = f s.

(** What the frame driver reads and [GameState.cpp] never assigns: speed,
    screen flags, configuration, what the network getters return and the
    input state. *)
Definition ambient_view (s : State) :=
  (gGameSpeed s, gScreenFlags s, gOpenRCT2Headless s, PauseServerIfNoClients s,
   network_get_mode s, network_get_status s, network_get_authstatus s,
   network_get_server_tick s, network_get_num_players s,
   network_gamestate_snapshots_enabled s, InputGetState s).

(** What the frame driver reads to take its decisions, the tick counter
    apart. *)
Definition frame_view (s : State) :=
  (ambient_view s, gGamePaused s, gDoSingleUpdate s, gInputFlags s).

(** The collaborators leave the decisions of the frame driver alone
    during the call: none of them writes the globals and the network
    observations of [frame_view], nor the tick counter. *)
Definition quiet : Prop := stable frame_view /\ stable gCurrentTicks.

(** The test of line 289: a client whose tick equals the server's. *)
Definition at_server_tick (s : State) : bool :=
  NetworkMode_eqb (network_get_mode s) NETWORK_MODE_CLIENT
  && (network_get_server_tick s =? gCurrentTicks s).

(** The input is idle: the state is Reset or Normal and the viewport is
    not being scrolled, so that the loop of [Tick] does not break. *)
Definition input_idle (s : State) : bool :=
  (is_Reset (InputGetState s) || is_Normal (InputGetState s))
  && negb (test_mask (gInputFlags s) (INPUT_FLAG_VIEWPORT_SCROLLING K)).

(** The loop of [Tick] cannot break: the speed is not 1, or the input is
    idle. *)
Definition no_early_exit (s : State) : Prop :=
  gGameSpeed s <> 1 \/ input_idle s = true.

(** The events that running [m] from [s] adds to the trace. *)
Definition events_of {A : Type} (m : M A) (s : State) : list Event :=
  trace_of (m (s, [])).

(** The state in which running [m] from [s] ends. *)
Definition exec {A : Type} (m : M A) (s : State) : State :=
  state_of (m (s, [])).

(** What running [m] from [s] returns. *)
Definition result {A : Type} (m : M A) (s : State) : A :=
  fst (m (s, [])).

(** [m] only appends to the trace, and does not look at it. *)
Definition appends {A : Type} (m : M A) : Prop :=
  forall (s : State) (l : list Event),
    m (s, l) = (result m s, (exec m s, l ++ events_of m s)).

(** [m] leaves what [f] reads as it was. *)
Definition keeps {X A : Type} (f : State -> X) (m : M A) : Prop :=
  forall (s : State) (l : list Event), f (state_of (m (s, l))) = f s.

(** The state in which [Tick] decides the number of updates. *)
Definition Tick_entry (s : State) : State := exec Tick_begin s.

(** What [Tick] decides: [didRunSingleFrame] and [numUpdates]. *)
Definition Tick_plan (s : State) : bool * Z :=
  result (Tick_pause (numUpdates_of (Tick_entry s))) (Tick_entry s).

(** The states in which the loop of [Tick] starts and ends. *)
Definition Tick_loop_start (s : State) : State :=
  exec (Tick_pause (numUpdates_of (Tick_entry s))) (Tick_entry s).

Definition Tick_loop_end (s : State) : State :=
  exec (update_loop (Z.to_nat (snd (Tick_plan s)))) (Tick_loop_start s).

End GameState.

(** ** Reading a trace *)

Definition is_Enter_UpdateLogic (e : Event) : bool :=
  match e with Enter_UpdateLogic => true | _ => false end.

Definition is_Advance_gCurrentTicks (e : Event) : bool :=
  match e with Advance_gCurrentTicks => true | _ => false end.

Definition is_Loop_break (e : Event) : bool :=
  match e with Loop_break => true | _ => false end.

Definition is_hook (e : Event) : bool :=
  match e with Ext (HookEngine_Call _) => true | _ => false end.

Definition is_day_hook (e : Event) : bool :=
  match e with Ext (HookEngine_Call INTERVAL_DAY) => true | _ => false end.

Definition is_tick_hook (e : Event) : bool :=
  match e with Ext (HookEngine_Call INTERVAL_TICK) => true | _ => false end.

Definition is_snapshot_call (e : Event) : bool :=
  match e with
  | Ext Snapshots_CreateSnapshot | Ext Snapshots_Capture
  | Ext (Snapshots_LinkSnapshot _ _) => true
  | _ => false
  end.

(** A step of the update pipeline: the marks of [UpdateLogic] and the
    updates of date, scenario, climate, map, entities, vehicles, rides,
    park, research, ratings, measurements and news. *)
Definition is_simulation_step (e : Event) : bool :=
  match e with
  | Enter_UpdateLogic | Advance_gCurrentTicks => true
  | Ext c =>
      match c with
      | DateUpdate | ScenarioUpdate | ClimateUpdate | MapUpdateTiles
      | MapRemoveProvisionalElements | MapUpdatePathWideFlags | PeepUpdateAll
      | MapRestoreProvisionalElements | VehicleUpdateAll | UpdateAllMiscEntities
      | Ride_UpdateAll | Park_Update _ | ResearchUpdate | RideRatingsUpdateAll
      | RideMeasurementsUpdate | News_UpdateCurrentItem => true
      | _ => false
      end
  | Loop_break => false
  end.

(** A collaborator call that is no step of the update pipeline. *)
Definition is_frame_call (e : Event) : bool :=
  match e with
  | Ext c => negb (is_simulation_step (Ext c))
  | _ => false
  end.

(** The subsystem updates that every completed tick runs, in order, up to
    the drain of the action queue. *)
Definition pipeline_steps : list Call :=
  [DateUpdate; ScenarioUpdate; ClimateUpdate; MapUpdateTiles;
   MapRemoveProvisionalElements; MapUpdatePathWideFlags; PeepUpdateAll;
   MapRestoreProvisionalElements; VehicleUpdateAll; UpdateAllMiscEntities;
   Ride_UpdateAll; ResearchUpdate; RideRatingsUpdateAll; RideMeasurementsUpdate;
   News_UpdateCurrentItem; MapAnimationInvalidateAll; VehicleSoundsUpdate;
   PeepUpdateCrowdNoise; ClimateUpdateSound; GameActions_ProcessQueue].

(** How many events of a trace satisfy [p]. *)
Definition count (p : Event -> bool) (t : list Event) : nat :=
  length (filter p t).

(** The number of invocations of [UpdateLogic] in a trace. *)
Definition updates_run (t : list Event) : nat := count is_Enter_UpdateLogic t.

(** The number of completed logical ticks in a trace. *)
Definition ticks_completed (t : list Event) : nat :=
  count is_Advance_gCurrentTicks t.

(** The ticks that the snapshots of a trace were linked to, in order. *)
Fixpoint linked_ticks (t : list Event) : list Z :=
  match t with
  | [] => []
  | Ext (Snapshots_LinkSnapshot tick _) :: t' => tick :: linked_ticks t'
  | _ :: t' => linked_ticks t'
  end.

(** A list of ticks never goes down. *)
Fixpoint non_decreasing (l : list Z) : Prop :=
  match l with
  | [] => True
  | a :: l' =>
      match l' with
      | [] => True
      | b :: _ => a <= b /\ non_decreasing l'
      end
  end.

(** ** Reading a trace, call by call *)

(** The event is a collaborator call that satisfies [p]. *)
Definition calls (p : Call -> bool) (e : Event) : bool :=
  match e with
  | Ext c => p c
  | _ => false
  end.

Definition is_network_update (c : Call) : bool :=
  match c with network_update => true | _ => false end.

Definition is_network_flush (c : Call) : bool :=
  match c with network_flush => true | _ => false end.

Definition is_network_send_tick (c : Call) : bool :=
  match c with network_send_tick => true | _ => false end.

Definition is_network_process_pending (c : Call) : bool :=
  match c with network_process_pending => true | _ => false end.

Definition is_GameActions_ProcessQueue (c : Call) : bool :=
  match c with GameActions_ProcessQueue => true | _ => false end.

Definition is_WindowDispatchUpdateAll (c : Call) : bool :=
  match c with WindowDispatchUpdateAll => true | _ => false end.

Definition is_ScenarioAutosaveCheck (c : Call) : bool :=
  match c with ScenarioAutosaveCheck => true | _ => false end.

Definition is_Park_Update (c : Call) : bool :=
  match c with Park_Update _ => true | _ => false end.

Definition is_TitleSequencePlayer_Update (c : Call) : bool :=
  match c with TitleSequencePlayer_Update => true | _ => false end.

Definition is_ContextHandleInput (c : Call) : bool :=
  match c with ContextHandleInput => true | _ => false end.

Definition is_ContextUpdateMapTooltip (c : Call) : bool :=
  match c with ContextUpdateMapTooltip => true | _ => false end.

(** The date globals and the date of the game state, together. *)
Definition date_view {World : Type} (s : State World) :=
  (gDateMonthsElapsed s, gDateMonthTicks s, _date s).

(** The date of the game state is the one that the date globals give:
    [_date == Date(static_cast<uint32_t>(gDateMonthsElapsed), gDateMonthTicks)]. *)
Definition date_in_sync {World : Type} (s : State World) : Prop :=
  _date s = mkDate (wrap32 (gDateMonthsElapsed s)) (gDateMonthTicks s).

(** Of the collaborators, only [DateUpdate] writes the date globals. *)
Definition date_globals_owned {World : Type} (E : Env World) : Prop :=
  forall (c : Call) (s : State World),
    c <> DateUpdate ->
    gDateMonthsElapsed (ext E c s) = gDateMonthsElapsed s
    /\ gDateMonthTicks (ext E c s) = gDateMonthTicks s.

(** Of the collaborators, only the autosave check writes the autosave
    timer. *)
Definition timer_owned {World : Type} (E : Env World) : Prop :=
  forall (c : Call) (s : State World),
    c <> ScenarioAutosaveCheck ->
    gLastAutoSaveUpdate (ext E c s) = gLastAutoSaveUpdate s.

(** Follow the provisional map elements along a trace.  [removed] tells
    whether they are stashed away.  The result is [None] when they are
    removed twice, restored without having been removed, or present
    while the guests and the staff are updated. *)
Fixpoint provisional_scan (removed : bool) (t : list Event) : option bool :=
  match t with
  | [] => Some removed
  | Ext MapRemoveProvisionalElements :: t' =>
      if removed then None else provisional_scan true t'
  | Ext MapRestoreProvisionalElements :: t' =>
      if removed then provisional_scan false t' else None
  | Ext PeepUpdateAll :: t' =>
      if removed then provisional_scan removed t' else None
  | _ :: t' => provisional_scan removed t'
  end.

(** An event that [provisional_scan] passes over. *)
Definition provisional_neutral (e : Event) : bool :=
  match e with
  | Ext MapRemoveProvisionalElements | Ext MapRestoreProvisionalElements
  | Ext PeepUpdateAll => false
  | _ => true
  end.

(** [gScreenAge + n], saturating at the largest value of its type. *)
Definition saturating_age (bits age : Z) (n : nat) : Z :=
  Z.min (age + Z.of_nat n) (2 ^ bits - 1).

(** The five masks of the map flashing are the bits [guests_open],
    [flash_guests], [staff_open], [flash_staff] and [switch], all
    different. *)
Record flashing_bits (K : Consts)
    (guests_open flash_guests staff_open flash_staff switch : Z) : Prop := {
  bit_guests_open : MapFlashingFlags_GuestListOpen K = 2 ^ guests_open;
  bit_flash_guests : MapFlashingFlags_FlashGuests K = 2 ^ flash_guests;
  bit_staff_open : MapFlashingFlags_StaffListOpen K = 2 ^ staff_open;
  bit_flash_staff : MapFlashingFlags_FlashStaff K = 2 ^ flash_staff;
  bit_switch : MapFlashingFlags_SwitchColour K = 2 ^ switch;
  bits_nonneg :
    0 <= guests_open /\ 0 <= flash_guests /\ 0 <= staff_open
    /\ 0 <= flash_staff /\ 0 <= switch;
  bits_distinct :
    NoDup [guests_open; flash_guests; staff_open; flash_staff; switch]
}.


(** ** A sample configuration, for the examples

    The constants get sample values; the sample collaborators advance
    the date by four month-ticks per update, count the guest updates in
    the world and do nothing else. *)

Definition sample_consts : Consts :=
  {| SCREEN_FLAGS_TITLE_DEMO := 1;
     SCREEN_FLAGS_TRACK_DESIGNER := 4;
     SCREEN_FLAGS_TRACK_MANAGER := 8;
     SCREEN_FLAGS_EDITOR := 14;
     INPUT_FLAG_VIEWPORT_SCROLLING := 128;
     MapFlashingFlags_SwitchColour := 32768;
     MapFlashingFlags_FlashGuests := 2;
     MapFlashingFlags_GuestListOpen := 1;
     MapFlashingFlags_FlashStaff := 8;
     MapFlashingFlags_StaffListOpen := 4;
     AUTOSAVE_PAUSE := 0;
     SCREEN_AGE_BITS := 16;
     SAVED_AGE_BITS := 16;
     ENABLE_SCRIPTING := true |}.

(** Replace the date counters and the world of a state. *)
Definition sample_with (months monthTicks : Z) (w : nat) (s : State nat) : State nat :=
  {| gCurrentTicks := gCurrentTicks s; gSavedAge := gSavedAge s;
     gScreenAge := gScreenAge s; gLastAutoSaveUpdate := gLastAutoSaveUpdate s;
     gGameSpeed := gGameSpeed s; gGamePaused := gGamePaused s;
     gDoSingleUpdate := gDoSingleUpdate s; gInUpdateCode := gInUpdateCode s;
     gInMapInitCode := gInMapInitCode s; gNextGuestNumber := gNextGuestNumber s;
     gScreenFlags := gScreenFlags s; gOpenRCT2Headless := gOpenRCT2Headless s;
     gPreviewingTitleSequenceInGame := gPreviewingTitleSequenceInGame s;
     PauseServerIfNoClients := PauseServerIfNoClients s;
     gCurrentRealTimeTicks := gCurrentRealTimeTicks s;
     gWindowMapFlashingFlags := gWindowMapFlashingFlags s;
     gDateMonthsElapsed := months; gDateMonthTicks := monthTicks;
     _date := _date s;
     network_get_mode := network_get_mode s;
     network_get_status := network_get_status s;
     network_get_authstatus := network_get_authstatus s;
     network_get_server_tick := network_get_server_tick s;
     network_get_num_players := network_get_num_players s;
     network_gamestate_snapshots_enabled := network_gamestate_snapshots_enabled s;
     GetTitleSequencePlayer := GetTitleSequencePlayer s;
     InputGetState := InputGetState s; gInputFlags := gInputFlags s;
     ScenarioRandState_s0 := ScenarioRandState_s0 s;
     world := w |}.

Definition sample_ext (c : Call) (s : State nat) : State nat :=
  match c with
  | DateUpdate =>
      if 65536 <=? gDateMonthTicks s + 4
      then sample_with (gDateMonthsElapsed s + 1) 0 (world s) s
      else sample_with (gDateMonthsElapsed s) (gDateMonthTicks s + 4) (world s) s
  | PeepUpdateAll =>
      sample_with (gDateMonthsElapsed s) (gDateMonthTicks s) (S (world s)) s
  | _ => s
  end.

Definition sample_env : Env nat :=
  {| ext := sample_ext;
     network_check_desynchronisation_result := fun _ => false;
     Platform_GetTicks := fun _ => 1000;
     Date_GetDay := fun d => Z.shiftr (date_monthTicks d * 31) 16 + 1 |}.



(** The sample collaborators with an autosave check that saves the
    game and puts the timer back to [AUTOSAVE_PAUSE]. *)
Definition autosave_ext (c : Call) (s : State nat) : State nat :=
  match c with
  | ScenarioAutosaveCheck => set_gLastAutoSaveUpdate (AUTOSAVE_PAUSE sample_consts) s
  | _ => sample_ext c s
  end.

Definition autosave_env : Env nat :=
  {| ext := autosave_ext;
     network_check_desynchronisation_result := fun _ => false;
     Platform_GetTicks := fun _ => 1000;
     Date_GetDay := fun d => Z.shiftr (date_monthTicks d * 31) 16 + 1 |}.

(** A state of the sample configuration: a connected and authenticated
    session in the given mode, with a window, outside the title demo
    unless [screenFlags] says so. *)
Definition sample_state (mode : NetworkMode) (ticks serverTick speed : Z)
    (paused single : bool) (input : InputState) (screenFlags monthTicks : Z)
    : State nat :=
  {| gCurrentTicks := ticks; gSavedAge := 0; gScreenAge := 0;
     gLastAutoSaveUpdate := 1;
     gGameSpeed := speed; gGamePaused := paused; gDoSingleUpdate := single;
     gInUpdateCode := false; gInMapInitCode := false; gNextGuestNumber := 1;
     gScreenFlags := screenFlags; gOpenRCT2Headless := false;
     gPreviewingTitleSequenceInGame := false;
     PauseServerIfNoClients := false;
     gCurrentRealTimeTicks := 0; gWindowMapFlashingFlags := 0;
     gDateMonthsElapsed := 0; gDateMonthTicks := monthTicks;
     _date := mkDate 0 monthTicks;
     network_get_mode := mode;
     network_get_status := NETWORK_STATUS_CONNECTED;
     network_get_authstatus := NetworkAuth_Ok;
     network_get_server_tick := serverTick;
     network_get_num_players := 1;
     network_gamestate_snapshots_enabled := true;
     GetTitleSequencePlayer := false;
     InputGetState := input; gInputFlags := 0;
     ScenarioRandState_s0 := 12345;
     world := O |}.

(** The sample states of the examples. *)

(** A client at tick 50, the server at tick 65, the input idle. *)
Definition client_behind_15 : State nat :=
  sample_state NETWORK_MODE_CLIENT 50 65 1 false false InputState_Normal 0 0.

(** A client at tick 50, the server at tick 57, while the player holds a
    widget or drags the view: the input state is neither Reset nor
    Normal. *)
Definition client_behind_7_busy : State nat :=
  sample_state NETWORK_MODE_CLIENT 50 57 1 false false (InputState_other 0) 0 0.

(** A client at tick 50 that has reached the server. *)
Definition client_at_server : State nat :=
  sample_state NETWORK_MODE_CLIENT 50 50 1 false false InputState_Normal 0 0.

(** A client at tick 7 while the server announces tick 5. *)
Definition client_ahead_2 : State nat :=
  sample_state NETWORK_MODE_CLIENT 7 5 1 false false InputState_Normal 0 0.

(** A client at the last tick before the counter wraps, the server at
    tick 0. *)
Definition client_ahead_max : State nat :=
  sample_state NETWORK_MODE_CLIENT 4294967295 0 1 false false InputState_Normal 0 0.

(** A single player game at speed level 4. *)
Definition solo_speed_4 : State nat :=
  sample_state NETWORK_MODE_NONE 100 0 4 false false (InputState_other 0) 0 0.

(** A single player game, paused, with a single step requested. *)
Definition solo_single_step : State nat :=
  sample_state NETWORK_MODE_NONE 100 0 1 true true InputState_Normal 0 0.

(** The same during the title demo. *)
Definition demo_single_step : State nat :=
  sample_state NETWORK_MODE_NONE 100 0 1 true true InputState_Normal 1 0.

(** A paused server. *)
Definition server_paused : State nat :=
  sample_state NETWORK_MODE_SERVER 100 0 1 true false InputState_Normal 0 0.

(** A server at tick 100. *)
Definition server_running : State nat :=
  sample_state NETWORK_MODE_SERVER 100 0 1 false false InputState_Normal 0 0.

(** A server at the last tick before the counter wraps. *)
Definition server_at_max : State nat :=
  sample_state NETWORK_MODE_SERVER 4294967295 0 1 false false InputState_Normal 0 0.

(** A single player game at the last tick before the counter wraps. *)
Definition solo_at_max : State nat :=
  sample_state NETWORK_MODE_NONE 4294967295 0 1 false false InputState_Normal 0 0.

(** A single player game four month-ticks before the end of the month. *)
Definition solo_end_of_month : State nat :=
  sample_state NETWORK_MODE_NONE 100 0 1 false false InputState_Normal 0 65532.

(** A paused server on which a single step was requested. *)
Definition server_paused_single_step : State nat :=
  sample_state NETWORK_MODE_SERVER 100 0 1 true true InputState_Normal 0 0.

(** A server at speed level 3. *)
Definition server_speed_3 : State nat :=
  sample_state NETWORK_MODE_SERVER 100 0 3 false false (InputState_other 0) 0 0.

(** A single player game at speed level 4 whose screen age is one below
    the largest value of the 16 bits of the sample configuration. *)
Definition solo_old_screen : State nat := set_gScreenAge 65534 solo_speed_4.

(** A single player game at speed level 4 whose saved age is six below
    the end of the 16 bits of the sample configuration. *)
Definition solo_old_park : State nat := set_gSavedAge 65530 solo_speed_4.

(** A single player game in which the guest list has marked itself
    open. *)
Definition solo_guest_list_open : State nat :=
  set_gWindowMapFlashingFlags 1 solo_speed_4.

(** A headless server, alone, that waits for clients. *)
Definition headless_server : State nat :=
  {| gCurrentTicks := 100; gSavedAge := 0; gScreenAge := 0;
     gLastAutoSaveUpdate := 1;
     gGameSpeed := 1; gGamePaused := false; gDoSingleUpdate := false;
     gInUpdateCode := false; gInMapInitCode := false; gNextGuestNumber := 1;
     gScreenFlags := 0; gOpenRCT2Headless := true;
     gPreviewingTitleSequenceInGame := false;
     PauseServerIfNoClients := true;
     gCurrentRealTimeTicks := 0; gWindowMapFlashingFlags := 1;
     gDateMonthsElapsed := 0; gDateMonthTicks := 0;
     _date := mkDate 0 0;
     network_get_mode := NETWORK_MODE_SERVER;
     network_get_status := NETWORK_STATUS_CONNECTED;
     network_get_authstatus := NetworkAuth_Ok;
     network_get_server_tick := 0;
     network_get_num_players := 1;
     network_gamestate_snapshots_enabled := false;
     GetTitleSequencePlayer := false;
     InputGetState := InputState_Normal; gInputFlags := 0;
     ScenarioRandState_s0 := 12345;
     world := O |}.

Unset Implicit Arguments.

(** * Properties *)

(** ** Arithmetic *)

Lemma wrap32_small z : 0 <= z < 2 ^ 32 -> wrap32 z = z.
Proof. intros H. unfold wrap32. now apply Z.mod_small. Qed.

Lemma wrap32_range z : 0 <= wrap32 z < 2 ^ 32.
Proof. unfold wrap32. apply Z.mod_pos_bound. lia. Qed.

Lemma clamp_0_10 v : 0 <= v -> clamp v 0 10 = Z.min v 10.
Proof.
  intros H. unfold clamp.
  destruct (Z.ltb_spec v 0); [lia|].
  destruct (Z.ltb_spec 10 v); lia.
Qed.

Lemma shift_speed v : 1 <= v <= 32 -> wrap32 (Z.shiftl 1 (v - 1)) = 2 ^ (v - 1).
Proof.
  intros H. rewrite Z.shiftl_1_l. apply wrap32_small. split.
  - apply Z.pow_nonneg. lia.
  - apply Z.pow_lt_mono_r; lia.
Qed.

(** ** Traces *)

Lemma count_app p a b : count p (a ++ b) = (count p a + count p b)%nat.
Proof. unfold count. rewrite filter_app, length_app. reflexivity. Qed.

Lemma count_zero_not_In p t e : count p t = O -> p e = true -> ~ In e t.
Proof.
  unfold count. intros H He Hin.
  assert (Hf : In e (filter p t)) by (apply filter_In; auto).
  destruct (filter p t); [contradiction | discriminate].
Qed.

Lemma linked_ticks_app a b : linked_ticks (a ++ b) = linked_ticks a ++ linked_ticks b.
Proof.
  induction a as [|e a IH]; [reflexivity|].
  cbn [app linked_ticks]. destruct e as [c| | |]; try exact IH.
  destruct c; try exact IH. cbn [app]. now rewrite IH.
Qed.

Lemma linked_ticks_none t : count is_snapshot_call t = O -> linked_ticks t = [].
Proof.
  unfold count. induction t as [|e t IH]; [reflexivity|].
  cbn [filter linked_ticks]. destruct e as [c| | |]; try exact IH.
  destruct c; cbn [is_snapshot_call]; try exact IH; discriminate.
Qed.

(** The ticks [t], [t + 1], ..., [t + n - 1]. *)
Lemma non_decreasing_seq n : forall t, non_decreasing (map (fun i => t + Z.of_nat i) (seq 0 n)).
Proof.
  induction n as [|n IH]; intros t; [exact I|].
  cbn [seq map]. rewrite <- seq_shift, map_map.
  destruct n as [|n]; [exact I|].
  cbn [seq map non_decreasing]. split; [lia|].
  specialize (IH (t + 1)). cbn [seq map] in IH. rewrite <- seq_shift, map_map in IH |- *.
  cbn [non_decreasing] in IH.
  replace (t + Z.of_nat 1) with (t + 1 + Z.of_nat 0) by lia.
  erewrite map_ext; [exact IH|]. intros i. cbn beta. lia.
Qed.

Lemma count_none p q t :
  forallb q t = true -> (forall e, q e = true -> p e = false) -> count p t = 0%nat.
Proof.
  intros Hq Hpq. unfold count. induction t as [|e t IH]; [reflexivity|].
  cbn [forallb] in Hq. apply andb_prop in Hq. destruct Hq as [He Ht].
  cbn [filter]. rewrite (Hpq e He). now apply IH.
Qed.


Lemma frame_call_no_enter e : is_frame_call e = true -> is_Enter_UpdateLogic e = false.
Proof. destruct e; cbn; try discriminate; reflexivity. Qed.

Lemma frame_call_no_advance e :
  is_frame_call e = true -> is_Advance_gCurrentTicks e = false.
Proof. destruct e; cbn; try discriminate; reflexivity. Qed.

Lemma frame_call_no_break e : is_frame_call e = true -> is_Loop_break e = false.
Proof. destruct e; cbn; try discriminate; reflexivity. Qed.

Lemma count_pos_In p t : count p t <> 0%nat -> exists e, In e t /\ p e = true.
Proof.
  unfold count. intros H. destruct (filter p t) as [|e l] eqn:Hf; [contradiction|].
  exists e. apply filter_In. rewrite Hf. now left.
Qed.

Lemma day_hook_is e : is_day_hook e = true -> e = Ext (HookEngine_Call INTERVAL_DAY).
Proof.
  destruct e as [c| | |]; try discriminate.
  destruct c; try discriminate. destruct hook; [discriminate | reflexivity].
Qed.

Lemma tick_hook_is e : is_tick_hook e = true -> e = Ext (HookEngine_Call INTERVAL_TICK).
Proof.
  destruct e as [c| | |]; try discriminate.
  destruct c; try discriminate. destruct hook; [reflexivity | discriminate].
Qed.

Lemma Call_eq_DateUpdate c : c = DateUpdate \/ c <> DateUpdate.
Proof. destruct c; (now left) || (right; discriminate). Qed.

Lemma Call_eq_ProcessQueue c :
  c = GameActions_ProcessQueue \/ c <> GameActions_ProcessQueue.
Proof. destruct c; (now left) || (right; discriminate). Qed.

Section Properties.

Variable World : Type.
Variable K : Consts.
Variable E : Env World.

(** ** The trace is write-only *)

Lemma appends_ret A (a : A) : appends (ret (World:=World) a).
Proof.
  intros s l. cbv [ret result exec events_of state_of trace_of fst snd].
  now rewrite app_nil_r.
Qed.

Lemma appends_gets A (f : State World -> A) : appends (gets f).
Proof.
  intros s l. cbv [gets result exec events_of state_of trace_of fst snd].
  now rewrite app_nil_r.
Qed.

Lemma appends_modify (f : State World -> State World) : appends (modify f).
Proof.
  intros s l. cbv [modify result exec events_of state_of trace_of fst snd].
  now rewrite app_nil_r.
Qed.

Lemma appends_mark e : appends (mark (World:=World) e).
Proof. intros s l. reflexivity. Qed.

Lemma appends_bind A B (m : M World A) (k : A -> M World B) :
  appends m -> (forall a, appends (k a)) -> appends (bind m k).
Proof.
  intros Hm Hk s l. unfold result, exec, events_of, state_of, trace_of, bind.
  rewrite (Hm s l), (Hm s []).
  rewrite (Hk _ _ (l ++ _)), (Hk _ _ ([] ++ _)). cbn [fst snd app].
  now rewrite app_assoc.
Qed.

Lemma appends_call c : appends (call E c).
Proof. apply appends_bind; intros; [apply appends_mark | apply appends_modify]. Qed.

Lemma appends_when b (m : M World unit) : appends m -> appends (when b m).
Proof. intros H. destruct b; [exact H | apply appends_ret]. Qed.

Ltac appends_step :=
  first
    [ apply appends_bind; [ | intro ]
    | apply appends_ret
    | apply appends_gets
    | apply appends_modify
    | apply appends_mark
    | apply appends_call
    | apply appends_when
    | match goal with
      | |- appends (if ?b then _ else _) => destruct b
      | |- appends (match ?x with _ => _ end) => destruct x
      end ].

Lemma CreateStateSnapshot_appends : appends (CreateStateSnapshot E).
Proof. unfold CreateStateSnapshot. repeat appends_step. Qed.

Lemma UpdateLogic_date_appends : appends (UpdateLogic_date E).
Proof. unfold UpdateLogic_date. repeat appends_step. Qed.

Lemma UpdateLogic_subsystems_appends : appends (UpdateLogic_subsystems K E).
Proof. unfold UpdateLogic_subsystems, screen_flag. repeat appends_step. Qed.

Lemma UpdateLogic_finish_appends day : appends (UpdateLogic_finish K E day).
Proof. unfold UpdateLogic_finish. repeat appends_step. Qed.

Lemma UpdateLogic_pipeline_appends : appends (UpdateLogic_pipeline K E).
Proof.
  unfold UpdateLogic_pipeline.
  repeat first [ apply UpdateLogic_date_appends | apply UpdateLogic_subsystems_appends
               | apply UpdateLogic_finish_appends | appends_step ].
Qed.

Lemma UpdateLogic_network_appends : appends (UpdateLogic_network K E).
Proof.
  unfold UpdateLogic_network.
  repeat first [ apply CreateStateSnapshot_appends | appends_step ].
Qed.

Lemma UpdateLogic_appends : appends (UpdateLogic K E).
Proof.
  unfold UpdateLogic.
  repeat first [ apply UpdateLogic_network_appends | apply UpdateLogic_pipeline_appends
               | appends_step ].
Qed.

Lemma UpdateLogic_times_appends n : appends (UpdateLogic_times K E n).
Proof.
  induction n as [|n IH]; cbn [UpdateLogic_times];
    repeat first [ apply UpdateLogic_appends | apply IH | appends_step ].
Qed.

Lemma update_loop_check_appends : appends (update_loop_check (World:=World) K).
Proof.
  unfold update_loop_check, InputTestFlag, InputSetFlag_false. repeat appends_step.
Qed.

Lemma update_loop_appends n : appends (update_loop K E n).
Proof.
  induction n as [|n IH]; cbn [update_loop];
    repeat first [ apply UpdateLogic_appends | apply update_loop_check_appends
                 | apply IH | appends_step ].
Qed.

Lemma Tick_begin_appends : appends (Tick_begin E).
Proof. unfold Tick_begin, GameIsNotPaused. repeat appends_step. Qed.

Lemma Tick_pause_appends n : appends (Tick_pause E n).
Proof. unfold Tick_pause, PauseToggle. repeat appends_step. Qed.

Lemma Tick_finish_appends d : appends (Tick_finish K E d).
Proof.
  unfold Tick_finish, GameIsNotPaused, PauseToggle, InputSetFlag_false, screen_flag.
  repeat appends_step.
Qed.

Lemma Tick_appends : appends (Tick K E).
Proof.
  unfold Tick.
  repeat first [ apply Tick_begin_appends | apply Tick_pause_appends
               | apply update_loop_appends | apply Tick_finish_appends
               | appends_step ].
Qed.

(** ** Running one computation after another *)

Lemma exec_bind A B (m : M World A) (k : A -> M World B) s :
  (forall a, appends (k a)) ->
  exec (bind m k) s = exec (k (result m s)) (exec m s).
Proof.
  intros Hk. unfold exec, result, state_of, bind.
  destruct (m (s, [])) as [a [s1 l1]]. cbn [fst snd]. now rewrite Hk.
Qed.

Lemma events_bind A B (m : M World A) (k : A -> M World B) s :
  (forall a, appends (k a)) ->
  events_of (bind m k) s = events_of m s ++ events_of (k (result m s)) (exec m s).
Proof.
  intros Hk. unfold events_of, exec, result, state_of, trace_of, bind.
  destruct (m (s, [])) as [a [s1 l1]]. cbn [fst snd]. now rewrite Hk.
Qed.

(** ** What a computation leaves alone *)

Section Keeps.

Variable X : Type.
Variable f : State World -> X.

Lemma keeps_ret A (a : A) : keeps f (ret a).
Proof. intros s l. reflexivity. Qed.

Lemma keeps_gets A (g : State World -> A) : keeps f (gets g).
Proof. intros s l. reflexivity. Qed.

Lemma keeps_mark e : keeps f (mark e).
Proof. intros s l. reflexivity. Qed.

Lemma keeps_modify (g : State World -> State World) :
  (forall s, f (g s) = f s) -> keeps f (modify g).
Proof. intros H s l. apply H. Qed.

Lemma keeps_call c : stable E f -> keeps f (call E c).
Proof. intros H s l. apply H. Qed.

Lemma keeps_bind A B (m : M World A) (k : A -> M World B) :
  keeps f m -> (forall a, keeps f (k a)) -> keeps f (bind m k).
Proof.
  intros Hm Hk s l. unfold bind.
  specialize (Hm s l). destruct (m (s, l)) as [a [s1 l1]].
  rewrite (Hk a s1 l1). exact Hm.
Qed.

Lemma keeps_when b (m : M World unit) : keeps f m -> keeps f (when b m).
Proof. intros H. destruct b; [exact H | apply keeps_ret]. Qed.

Lemma keeps_exec A (m : M World A) s : keeps f m -> f (exec m s) = f s.
Proof. intros H. apply H. Qed.

End Keeps.

Arguments keeps_exec {X f A m} s _.

Ltac keeps_step :=
  first
    [ apply keeps_bind; [ | intro ]
    | apply keeps_ret
    | apply keeps_gets
    | apply keeps_mark
    | apply keeps_call; assumption
    | apply keeps_modify; intro; reflexivity
    | apply keeps_when
    | match goal with
      | |- keeps _ (if ?b then _ else _) => destruct b
      | |- keeps _ (match ?x with _ => _ end) => destruct x
      end ].

Ltac unfold_pieces :=
  unfold UpdateLogic, UpdateLogic_network, UpdateLogic_pipeline, UpdateLogic_date,
    UpdateLogic_subsystems, UpdateLogic_finish, CreateStateSnapshot,
    Tick_begin, Tick_pause, Tick_finish, update_loop_check,
    GameIsPaused, GameIsNotPaused, PauseToggle, InputTestFlag, InputSetFlag_false,
    screen_flag.

(** *** The parts of the view *)

Lemma stable_ambient : stable E (@frame_view World) -> stable E (@ambient_view World).
Proof. intros H c s. specialize (H c s). unfold frame_view in H. congruence. Qed.

Lemma stable_gGamePaused : stable E (@frame_view World) -> stable E (@gGamePaused World).
Proof. intros H c s. specialize (H c s). unfold frame_view in H. congruence. Qed.

Lemma stable_gScreenFlags : stable E (@frame_view World) -> stable E (@gScreenFlags World).
Proof. intros H c s. specialize (H c s). unfold frame_view, ambient_view in H. congruence. Qed.

(** *** [UpdateLogic] *)

Lemma UpdateLogic_keeps_view :
  stable E (@frame_view World) -> keeps (@frame_view World) (UpdateLogic K E).
Proof. intros H. unfold_pieces. repeat keeps_step. Qed.

Lemma UpdateLogic_network_keeps_ticks :
  stable E (@gCurrentTicks World) -> keeps (@gCurrentTicks World) (UpdateLogic_network K E).
Proof. intros H. unfold_pieces. repeat keeps_step. Qed.

Lemma ambient_fields :
  stable E (@ambient_view World) ->
  stable E (@gGameSpeed World) /\ stable E (@network_get_mode World)
  /\ stable E (@network_get_server_tick World) /\ stable E (@InputGetState World)
  /\ stable E (@network_gamestate_snapshots_enabled World).
Proof.
  intros H. repeat split; intros c s; specialize (H c s);
    unfold ambient_view in H; congruence.
Qed.

(** ** Symbolic execution *)

Ltac run :=
  cbv beta iota delta
    [bind ret gets modify mark call when fst snd state_of trace_of exec events_of
     result].

Ltac split_test :=
  match goal with
  | |- context [if ?b then _ else _] => destruct b eqn:?
  | |- context [match ?x with NETWORK_MODE_NONE => _ | _ => _ end] => destruct x eqn:?
  end.

Ltac run_all := run; repeat (split_test; run).

(** Look through the assignments of [GameState.cpp] that do not touch [p]. *)
Ltac skip p :=
  repeat progress
    (try change (p (increment_gScreenAge K ?s)) with (p s) in *;
     try change (p (update_map_flashing K ?s)) with (p s) in *;
     try change (p (set__date ?v ?s)) with (p s) in *;
     try change (p (set_gLastAutoSaveUpdate ?v ?s)) with (p s) in *;
     try change (p (set_gCurrentTicks ?v ?s)) with (p s) in *;
     try change (p (set_gSavedAge ?v ?s)) with (p s) in *;
     try change (p (set_gInUpdateCode ?v ?s)) with (p s) in *;
     try change (p (set_gInMapInitCode ?v ?s)) with (p s) in *;
     try change (p (set_gNextGuestNumber ?v ?s)) with (p s) in *;
     try change (p (set_gGamePaused ?v ?s)) with (p s) in *;
     try change (p (set_gDoSingleUpdate ?v ?s)) with (p s) in *;
     try change (p (set_gInputFlags ?v ?s)) with (p s) in *).

(** Look through collaborator calls and assignments, in the goal and in
    the tests met on the way. *)
Ltac through p H := unfold stable in H; repeat progress (rewrite ?H in *; skip p).

(** *** The events of [UpdateLogic] *)

Lemma UpdateLogic_events s :
  events_of (UpdateLogic K E) s
  = events_of (UpdateLogic_network K E) s
    ++ (if result (UpdateLogic_network K E) s
        then events_of (UpdateLogic_pipeline K E) (exec (UpdateLogic_network K E) s)
        else []).
Proof.
  unfold UpdateLogic. rewrite events_bind.
  - destruct (result (UpdateLogic_network K E) s); reflexivity.
  - intros [|]; [apply UpdateLogic_pipeline_appends | apply appends_ret].
Qed.

Lemma UpdateLogic_exec s :
  exec (UpdateLogic K E) s
  = if result (UpdateLogic_network K E) s
    then exec (UpdateLogic_pipeline K E) (exec (UpdateLogic_network K E) s)
    else exec (UpdateLogic_network K E) s.
Proof.
  unfold UpdateLogic. rewrite exec_bind.
  - destruct (result (UpdateLogic_network K E) s); reflexivity.
  - intros [|]; [apply UpdateLogic_pipeline_appends | apply appends_ret].
Qed.

Ltac count_events := unfold_pieces; run_all; reflexivity.

Lemma UpdateLogic_network_enters s :
  count is_Enter_UpdateLogic (events_of (UpdateLogic_network K E) s) = 1%nat.
Proof. count_events. Qed.

Lemma UpdateLogic_network_advances s :
  count is_Advance_gCurrentTicks (events_of (UpdateLogic_network K E) s) = 0%nat.
Proof. count_events. Qed.

Lemma UpdateLogic_network_breaks s :
  count is_Loop_break (events_of (UpdateLogic_network K E) s) = 0%nat.
Proof. count_events. Qed.

Lemma UpdateLogic_pipeline_enters s :
  count is_Enter_UpdateLogic (events_of (UpdateLogic_pipeline K E) s) = 0%nat.
Proof. count_events. Qed.

Lemma UpdateLogic_pipeline_advances s :
  count is_Advance_gCurrentTicks (events_of (UpdateLogic_pipeline K E) s) = 1%nat.
Proof. count_events. Qed.

Lemma UpdateLogic_pipeline_breaks s :
  count is_Loop_break (events_of (UpdateLogic_pipeline K E) s) = 0%nat.
Proof. count_events. Qed.

Lemma UpdateLogic_updates_run s : updates_run (events_of (UpdateLogic K E) s) = 1%nat.
Proof.
  unfold updates_run. rewrite UpdateLogic_events, count_app.
  rewrite UpdateLogic_network_enters.
  destruct (result _ s); [|reflexivity].
  now rewrite UpdateLogic_pipeline_enters.
Qed.

Lemma UpdateLogic_breaks s : count is_Loop_break (events_of (UpdateLogic K E) s) = 0%nat.
Proof.
  rewrite UpdateLogic_events, count_app, UpdateLogic_network_breaks.
  destruct (result _ s); [|reflexivity].
  now rewrite UpdateLogic_pipeline_breaks.
Qed.

Lemma UpdateLogic_ticks_completed s :
  ticks_completed (events_of (UpdateLogic K E) s)
  = if result (UpdateLogic_network K E) s then 1%nat else 0%nat.
Proof.
  unfold ticks_completed. rewrite UpdateLogic_events, count_app.
  rewrite UpdateLogic_network_advances.
  destruct (result _ s); [|reflexivity].
  now rewrite UpdateLogic_pipeline_advances.
Qed.

(** *** Whether [UpdateLogic] completes, and the tick counter *)

Lemma UpdateLogic_network_result s :
  quiet E ->
  result (UpdateLogic_network K E) s = negb (at_server_tick s).
Proof.
  intros [Hv Ht].
  destruct (ambient_fields (stable_ambient Hv)) as (_ & Hmode & Hserver & _).
  unfold at_server_tick, UpdateLogic_network. run_all;
    through (@network_get_mode World) Hmode;
    through (@network_get_server_tick World) Hserver;
    through (@gCurrentTicks World) Ht;
    repeat match goal with H : _ = _ |- _ => rewrite H end; reflexivity.
Qed.

Lemma UpdateLogic_pipeline_ticks s :
  stable E (@gCurrentTicks World) ->
  gCurrentTicks (exec (UpdateLogic_pipeline K E) s) = wrap32 (gCurrentTicks s + 1).
Proof.
  intros Ht. unfold_pieces. run_all; through (@gCurrentTicks World) Ht; reflexivity.
Qed.

Lemma UpdateLogic_ticks s :
  quiet E ->
  gCurrentTicks (exec (UpdateLogic K E) s)
  = if at_server_tick s then gCurrentTicks s else wrap32 (gCurrentTicks s + 1).
Proof.
  intros Hq. rewrite UpdateLogic_exec, UpdateLogic_network_result by exact Hq.
  destruct Hq as [Hv Ht].
  destruct (at_server_tick s); cbn [negb].
  - apply (keeps_exec s (UpdateLogic_network_keeps_ticks Ht)).
  - rewrite UpdateLogic_pipeline_ticks by exact Ht.
    now rewrite (keeps_exec s (UpdateLogic_network_keeps_ticks Ht)).
Qed.


(** *** The loop of [Tick] *)

Lemma view_no_early_exit (a b : State World) :
  frame_view a = frame_view b -> no_early_exit K b -> no_early_exit K a.
Proof.
  unfold frame_view, ambient_view, no_early_exit, input_idle. intros H.
  injection H as Hspeed _ _ _ _ _ _ _ _ _ Hinput _ _ Hflags.
  now rewrite Hspeed, Hinput, Hflags.
Qed.

Lemma view_input_idle (a b : State World) :
  frame_view a = frame_view b ->
  gGameSpeed a = gGameSpeed b /\ input_idle K a = input_idle K b.
Proof.
  unfold frame_view, ambient_view, input_idle. intros H.
  injection H as Hspeed _ _ _ _ _ _ _ _ _ Hinput _ _ Hflags.
  now rewrite Hspeed, Hinput, Hflags.
Qed.

Lemma update_loop_check_result s :
  result (update_loop_check (World:=World) K) s
  = (gGameSpeed s =? 1) && negb (input_idle K s).
Proof.
  unfold input_idle. unfold_pieces. run.
  destruct (gGameSpeed s =? 1); [|reflexivity].
  destruct (is_Reset (InputGetState s) || is_Normal (InputGetState s)); [|reflexivity].
  destruct (test_mask (gInputFlags s) (INPUT_FLAG_VIEWPORT_SCROLLING K)); reflexivity.
Qed.

Lemma update_loop_check_events s :
  events_of (update_loop_check (World:=World) K) s = [].
Proof. unfold_pieces. run_all; reflexivity. Qed.

Lemma update_loop_check_stay s :
  result (update_loop_check (World:=World) K) s = false ->
  exec (update_loop_check (World:=World) K) s = s.
Proof. unfold_pieces. run_all; intros H; try discriminate H; reflexivity. Qed.

Lemma no_early_exit_check s :
  no_early_exit K s -> result (update_loop_check (World:=World) K) s = false.
Proof.
  rewrite update_loop_check_result. intros [H | H].
  - destruct (Z.eqb_spec (gGameSpeed s) 1); [contradiction | reflexivity].
  - rewrite H. apply andb_false_r.
Qed.

Lemma update_loop_S_events n s :
  events_of (update_loop K E (S n)) s
  = events_of (UpdateLogic K E) s
    ++ (if result (update_loop_check K) (exec (UpdateLogic K E) s)
        then [Loop_break]
        else events_of (update_loop K E n)
               (exec (update_loop_check K) (exec (UpdateLogic K E) s))).
Proof.
  cbn [update_loop].
  assert (Hk : forall leave : bool,
             appends (if leave then mark Loop_break else update_loop K E n))
    by (intros [|]; [apply appends_mark | apply update_loop_appends]).
  rewrite events_bind.
  2:{ intros _. apply appends_bind; [apply update_loop_check_appends | exact Hk]. }
  rewrite events_bind by exact Hk.
  rewrite update_loop_check_events.
  destruct (result (update_loop_check K) _); reflexivity.
Qed.

Lemma update_loop_S_exec n s :
  exec (update_loop K E (S n)) s
  = if result (update_loop_check K) (exec (UpdateLogic K E) s)
    then exec (update_loop_check K) (exec (UpdateLogic K E) s)
    else exec (update_loop K E n)
           (exec (update_loop_check K) (exec (UpdateLogic K E) s)).
Proof.
  cbn [update_loop].
  assert (Hk : forall leave : bool,
             appends (if leave then mark Loop_break else update_loop K E n))
    by (intros [|]; [apply appends_mark | apply update_loop_appends]).
  rewrite exec_bind.
  2:{ intros _. apply appends_bind; [apply update_loop_check_appends | exact Hk]. }
  rewrite exec_bind by exact Hk.
  destruct (result (update_loop_check K) _); reflexivity.
Qed.

(** Whatever the input does, one iteration is one update. *)
Lemma update_loop_1_updates_run s :
  updates_run (events_of (update_loop K E 1) s) = 1%nat.
Proof.
  unfold updates_run. rewrite update_loop_S_events, count_app.
  fold (updates_run (events_of (UpdateLogic K E) s)). rewrite UpdateLogic_updates_run.
  destruct (result _ _); reflexivity.
Qed.

Lemma update_loop_1_ticks_completed s :
  ticks_completed (events_of (update_loop K E 1) s)
  = ticks_completed (events_of (UpdateLogic K E) s).
Proof.
  unfold ticks_completed. rewrite update_loop_S_events, count_app.
  destruct (result (update_loop_check K) _); cbn; lia.
Qed.

(** Without an early exit, [n] iterations are [n] updates, and the view
    of the frame driver is what it was. *)
Lemma update_loop_full n :
  quiet E ->
  forall s, no_early_exit K s ->
    updates_run (events_of (update_loop K E n) s) = n
    /\ count is_Loop_break (events_of (update_loop K E n) s) = 0%nat
    /\ frame_view (exec (update_loop K E n) s) = frame_view s.
Proof.
  intros Hq. induction n as [|n IH]; intros s Hs; [repeat split|].
  pose proof (keeps_exec s (UpdateLogic_keeps_view (proj1 Hq))) as Hview.
  pose proof (view_no_early_exit _ _ Hview Hs) as Hs1.
  pose proof (no_early_exit_check _ Hs1) as Hstay.
  rewrite update_loop_S_events, update_loop_S_exec, Hstay.
  rewrite (update_loop_check_stay _ Hstay).
  destruct (IH _ Hs1) as (Hruns & Hbreaks & Hv).
  unfold updates_run in *. rewrite !count_app.
  fold (updates_run (events_of (UpdateLogic K E) s)).
  rewrite UpdateLogic_updates_run, UpdateLogic_breaks, Hruns, Hbreaks, Hv.
  repeat split. exact Hview.
Qed.

(** At speed 1 and with an input that is not idle, the loop is left
    after the first update. *)
Lemma update_loop_breaks_first n s :
  quiet E ->
  gGameSpeed s = 1 ->
  input_idle K s = false ->
  events_of (update_loop K E (S n)) s = events_of (UpdateLogic K E) s ++ [Loop_break].
Proof.
  intros Hq Hspeed Hbusy.
  pose proof (keeps_exec s (UpdateLogic_keeps_view (proj1 Hq))) as Hview.
  destruct (view_input_idle _ _ Hview) as [Hs Hi].
  rewrite update_loop_S_events, update_loop_check_result, Hs, Hi, Hspeed, Hbusy.
  reflexivity.
Qed.

(** A client that is [n] or more ticks behind the server completes [n]
    ticks in [n] iterations. *)
Lemma update_loop_client n :
  quiet E ->
  forall s, no_early_exit K s ->
    network_get_mode s = NETWORK_MODE_CLIENT ->
    0 <= gCurrentTicks s ->
    gCurrentTicks s + Z.of_nat n <= network_get_server_tick s < 2 ^ 32 ->
    ticks_completed (events_of (update_loop K E n) s) = n
    /\ gCurrentTicks (exec (update_loop K E n) s) = gCurrentTicks s + Z.of_nat n.
Proof.
  intros Hq. induction n as [|n IH]; intros s Hs Hmode Hlo Hhi.
  - split; [reflexivity|]. cbn. now rewrite Z.add_0_r.
  - pose proof (keeps_exec s (UpdateLogic_keeps_view (proj1 Hq))) as Hview.
    pose proof (view_no_early_exit _ _ Hview Hs) as Hs1.
    pose proof (no_early_exit_check _ Hs1) as Hstay.
    assert (Hnot : at_server_tick s = false).
    { unfold at_server_tick. rewrite Hmode. cbn [NetworkMode_eqb andb].
      apply Z.eqb_neq. lia. }
    pose proof (UpdateLogic_ticks s Hq) as Hticks. rewrite Hnot in Hticks.
    rewrite wrap32_small in Hticks by lia.
    assert (Hfields : network_get_mode (exec (UpdateLogic K E) s) = network_get_mode s
                      /\ network_get_server_tick (exec (UpdateLogic K E) s)
                         = network_get_server_tick s).
    { unfold frame_view, ambient_view in Hview. split; congruence. }
    destruct Hfields as [Hm1 Hs1'].
    rewrite update_loop_S_events, update_loop_S_exec, Hstay.
    rewrite (update_loop_check_stay _ Hstay).
    destruct (IH (exec (UpdateLogic K E) s) Hs1) as [Hdone Hend];
      [congruence | lia | rewrite Hticks, Hs1'; lia | ].
    unfold ticks_completed in *. rewrite count_app.
    fold (ticks_completed (events_of (UpdateLogic K E) s)).
    rewrite UpdateLogic_ticks_completed, UpdateLogic_network_result, Hnot by exact Hq.
    cbn [negb]. rewrite Hdone, Hend, Hticks. split; lia.
Qed.

Lemma update_loop_keeps_ambient n :
  stable E (@ambient_view World) -> keeps (@ambient_view World) (update_loop K E n).
Proof.
  intros H. induction n as [|n IH]; cbn [update_loop]; unfold_pieces;
    repeat first [ apply IH | keeps_step ].
Qed.


(** *** The parts of [Tick] around the loop *)

Lemma Tick_events s :
  events_of (Tick K E) s
  = events_of (Tick_begin E) s
    ++ events_of (Tick_pause E (numUpdates_of (Tick_entry E s))) (Tick_entry E s)
    ++ events_of (update_loop K E (Z.to_nat (snd (Tick_plan E s)))) (Tick_loop_start E s)
    ++ events_of (Tick_finish K E (fst (Tick_plan E s))) (Tick_loop_end K E s).
Proof.
  unfold Tick, Tick_loop_end, Tick_loop_start, Tick_plan, Tick_entry.
  assert (H3 : forall r : bool * Z,
             appends (bind (update_loop K E (Z.to_nat (snd r)))
                        (fun _ => Tick_finish K E (fst r)))).
  { intros r. apply appends_bind; [apply update_loop_appends|].
    intros _. apply Tick_finish_appends. }
  assert (H2 : forall n : Z,
             appends (bind (Tick_pause E n)
                        (fun r => bind (update_loop K E (Z.to_nat (snd r)))
                                    (fun _ => Tick_finish K E (fst r))))).
  { intros n. apply appends_bind; [apply Tick_pause_appends | exact H3]. }
  rewrite events_bind.
  2:{ intros _. apply appends_bind; [apply appends_gets | exact H2]. }
  rewrite events_bind by exact H2.
  rewrite events_bind by exact H3.
  rewrite events_bind by (intros _; apply Tick_finish_appends).
  reflexivity.
Qed.

Lemma Tick_exec s :
  exec (Tick K E) s = exec (Tick_finish K E (fst (Tick_plan E s))) (Tick_loop_end K E s).
Proof.
  unfold Tick, Tick_loop_end, Tick_loop_start, Tick_plan, Tick_entry.
  assert (H3 : forall r : bool * Z,
             appends (bind (update_loop K E (Z.to_nat (snd r)))
                        (fun _ => Tick_finish K E (fst r)))).
  { intros r. apply appends_bind; [apply update_loop_appends|].
    intros _. apply Tick_finish_appends. }
  assert (H2 : forall n : Z,
             appends (bind (Tick_pause E n)
                        (fun r => bind (update_loop K E (Z.to_nat (snd r)))
                                    (fun _ => Tick_finish K E (fst r))))).
  { intros n. apply appends_bind; [apply Tick_pause_appends | exact H3]. }
  rewrite exec_bind.
  2:{ intros _. apply appends_bind; [apply appends_gets | exact H2]. }
  rewrite exec_bind by exact H2.
  rewrite exec_bind by exact H3.
  rewrite exec_bind by (intros _; apply Tick_finish_appends).
  reflexivity.
Qed.

Lemma Tick_begin_calls s : forallb is_frame_call (events_of (Tick_begin E) s) = true.
Proof. count_events. Qed.

Lemma Tick_pause_calls n s : forallb is_frame_call (events_of (Tick_pause E n) s) = true.
Proof. count_events. Qed.

Lemma Tick_finish_calls d s :
  forallb is_frame_call (events_of (Tick_finish K E d) s) = true.
Proof. count_events. Qed.

(** Only the loop of [Tick] contributes events that no frame call is. *)
Lemma Tick_count p s :
  (forall e, is_frame_call e = true -> p e = false) ->
  count p (events_of (Tick K E) s)
  = count p (events_of (update_loop K E (Z.to_nat (snd (Tick_plan E s))))
               (Tick_loop_start E s)).
Proof.
  intros Hp. rewrite Tick_events, !count_app.
  rewrite (count_none p _ _ (Tick_begin_calls s) Hp).
  rewrite (count_none p _ _ (Tick_pause_calls _ _) Hp).
  rewrite (count_none p _ _ (Tick_finish_calls _ _) Hp).
  lia.
Qed.

Lemma Tick_begin_keeps_view :
  stable E (@frame_view World) -> keeps (@frame_view World) (Tick_begin E).
Proof. intros H. unfold_pieces. repeat keeps_step. Qed.

Lemma Tick_begin_keeps_ticks :
  stable E (@gCurrentTicks World) -> keeps (@gCurrentTicks World) (Tick_begin E).
Proof. intros H. unfold_pieces. repeat keeps_step. Qed.

Lemma Tick_pause_keeps_ticks n :
  stable E (@gCurrentTicks World) -> keeps (@gCurrentTicks World) (Tick_pause E n).
Proof. intros H. unfold_pieces. repeat keeps_step. Qed.

Lemma Tick_pause_keeps_ambient n :
  stable E (@ambient_view World) -> keeps (@ambient_view World) (Tick_pause E n).
Proof. intros H. unfold_pieces. repeat keeps_step. Qed.

Lemma Tick_finish_keeps_ticks d :
  stable E (@gCurrentTicks World) -> keeps (@gCurrentTicks World) (Tick_finish K E d).
Proof. intros H. unfold_pieces. repeat keeps_step. Qed.

(** Under [quiet], the decisions taken at [Tick_entry] are those that the
    state at the call determines. *)
Lemma Tick_entry_view s : quiet E -> frame_view (Tick_entry E s) = frame_view s.
Proof. intros [Hv _]. apply (keeps_exec s (Tick_begin_keeps_view Hv)). Qed.

Lemma Tick_entry_ticks s : quiet E -> gCurrentTicks (Tick_entry E s) = gCurrentTicks s.
Proof. intros [_ Ht]. apply (keeps_exec s (Tick_begin_keeps_ticks Ht)). Qed.

Lemma view_numUpdates (a b : State World) :
  frame_view a = frame_view b -> gCurrentTicks a = gCurrentTicks b ->
  numUpdates_of a = numUpdates_of b.
Proof.
  unfold frame_view, ambient_view, numUpdates_of, catching_up. intros H Ht.
  injection H as Hspeed _ _ _ Hmode Hstatus Hauth Hserver _ _ _ _ _ _.
  now rewrite Hspeed, Hmode, Hstatus, Hauth, Hserver, Ht.
Qed.

Lemma view_isPaused (a b : State World) :
  frame_view a = frame_view b -> isPaused_of a = isPaused_of b.
Proof.
  unfold frame_view, ambient_view, isPaused_of. intros H.
  injection H as _ _ Hheadless Hconfig Hmode _ _ _ Hplayers _ _ Hpaused _ _.
  now rewrite Hheadless, Hconfig, Hmode, Hplayers, Hpaused.
Qed.

(** *** The three outcomes of the pause *)

Lemma Tick_pause_running n s :
  isPaused_of s = false ->
  result (Tick_pause E n) s = (false, n)
  /\ exec (Tick_pause E n) s = s
  /\ events_of (Tick_pause E n) s = [].
Proof. intros H. unfold_pieces. run. rewrite H. repeat split. Qed.

Lemma Tick_pause_single n s :
  isPaused_of s = true -> gDoSingleUpdate s = true ->
  network_get_mode s = NETWORK_MODE_NONE ->
  result (Tick_pause E n) s = (true, 1)
  /\ exec (Tick_pause E n) s = set_gGamePaused (negb (gGamePaused s)) s
  /\ events_of (Tick_pause E n) s = [].
Proof.
  intros H Hsingle Hmode. unfold_pieces. run. rewrite H, Hsingle, Hmode.
  repeat split.
Qed.


(** *** The end of [Tick] *)

Lemma Tick_finish_clears_single d s :
  gDoSingleUpdate (exec (Tick_finish K E d) s) = false.
Proof. unfold_pieces. run_all; reflexivity. Qed.

Lemma Tick_finish_pauses s :
  stable E (@frame_view World) ->
  test_mask (gScreenFlags s) (SCREEN_FLAGS_TITLE_DEMO K) = false ->
  gGamePaused (exec (Tick_finish K E true) s) = true.
Proof.
  intros Hv Hdemo.
  pose proof (stable_gGamePaused Hv) as Hp.
  pose proof (stable_gScreenFlags Hv) as Hf.
  unfold_pieces. run_all;
    through (@gScreenFlags World) Hf; through (@gGamePaused World) Hp;
    cbn [gGamePaused set_gInUpdateCode set_gDoSingleUpdate set_gGamePaused assign];
    through (@gGamePaused World) Hp;
    repeat match goal with
           | H : _ && _ = _ |- _ => rewrite Hdemo in H; cbn [negb andb] in H
           end;
    destruct (gGamePaused s); cbn in *; congruence.
Qed.


(** *** The network block, case by case *)

Lemma UpdateLogic_network_early s :
  quiet E ->
  network_get_mode s = NETWORK_MODE_CLIENT ->
  network_get_server_tick s = gCurrentTicks s ->
  events_of (UpdateLogic_network K E) s
  = [Enter_UpdateLogic; Ext ReplayManager_Update; Ext network_update]
  /\ exec (UpdateLogic_network K E) s
     = ext E network_update (ext E ReplayManager_Update (increment_gScreenAge K s)).
Proof.
  intros [Hv Ht] Hmode Heq.
  destruct (ambient_fields (stable_ambient Hv)) as (_ & Hm & Hserver & _).
  unfold_pieces. run_all;
    through (@network_get_mode World) Hm;
    through (@network_get_server_tick World) Hserver;
    through (@gCurrentTicks World) Ht;
    try congruence; try (split; reflexivity);
    match goal with
    | H : (_ =? _) = false |- _ => rewrite Heq, Z.eqb_refl in H; discriminate H
    end.
Qed.

Lemma UpdateLogic_network_server s :
  quiet E ->
  stable E (@ScenarioRandState_s0 World) ->
  network_get_mode s = NETWORK_MODE_SERVER ->
  network_gamestate_snapshots_enabled s = true ->
  events_of (UpdateLogic_network K E) s
  = [Enter_UpdateLogic; Ext ReplayManager_Update; Ext network_update;
     Ext Snapshots_CreateSnapshot; Ext Snapshots_Capture;
     Ext (Snapshots_LinkSnapshot (gCurrentTicks s) (ScenarioRandState_s0 s));
     Ext network_send_tick].
Proof.
  intros [Hv Ht] Hseed Hmode Henabled.
  destruct (ambient_fields (stable_ambient Hv)) as (_ & Hm & _ & _ & Hsnap).
  unfold_pieces. run_all;
    through (@network_get_mode World) Hm;
    through (@network_gamestate_snapshots_enabled World) Hsnap;
    through (@gCurrentTicks World) Ht;
    through (@ScenarioRandState_s0 World) Hseed;
    try congruence; reflexivity.
Qed.

Lemma UpdateLogic_pipeline_no_snapshot s :
  count is_snapshot_call (events_of (UpdateLogic_pipeline K E) s) = 0%nat.
Proof. count_events. Qed.

(** *** The pipeline, part by part *)

Lemma UpdateLogic_pipeline_events s :
  events_of (UpdateLogic_pipeline K E) s
  = events_of (UpdateLogic_date E) s
    ++ events_of (UpdateLogic_subsystems K E) (exec (UpdateLogic_date E) s)
    ++ events_of (UpdateLogic_finish K E (result (UpdateLogic_date E) s))
         (exec (UpdateLogic_subsystems K E) (exec (UpdateLogic_date E) s)).
Proof.
  unfold UpdateLogic_pipeline.
  rewrite events_bind.
  2:{ intros day. apply appends_bind; [apply UpdateLogic_subsystems_appends|].
      intros _. apply UpdateLogic_finish_appends. }
  rewrite events_bind by (intros _; apply UpdateLogic_finish_appends).
  reflexivity.
Qed.

Lemma UpdateLogic_date_events s : events_of (UpdateLogic_date E) s = [Ext DateUpdate].
Proof. reflexivity. Qed.

Lemma UpdateLogic_date_day s :
  result (UpdateLogic_date E) s = Date_GetDay E (_date s).
Proof. reflexivity. Qed.

Lemma UpdateLogic_subsystems_steps s c :
  In c pipeline_steps -> c <> DateUpdate -> c <> GameActions_ProcessQueue ->
  In (Ext c) (events_of (UpdateLogic_subsystems K E) s).
Proof.
  intros Hc Hd Hq. unfold_pieces. run_all; cbn [app];
    cbn [pipeline_steps In] in Hc;
    repeat (destruct Hc as [<- | Hc];
            [ try contradiction; cbn [In]; repeat (first [ left; reflexivity | right ]) | ]);
    contradiction.
Qed.

Lemma UpdateLogic_subsystems_quiet p s :
  (forall c, p (Ext c) = false) ->
  count p (events_of (UpdateLogic_subsystems K E) s) = 0%nat.
Proof.
  intros Hp. apply count_none with (q := fun e => match e with Ext _ => true | _ => false end).
  - count_events.
  - intros [c| | |] H; try discriminate. apply Hp.
Qed.

Lemma UpdateLogic_subsystems_keeps_date :
  stable E (@_date World) -> keeps (@_date World) (UpdateLogic_subsystems K E).
Proof. intros H. unfold_pieces. repeat keeps_step. Qed.

Lemma UpdateLogic_network_keeps_date :
  stable E (@_date World) -> keeps (@_date World) (UpdateLogic_network K E).
Proof. intros H. unfold_pieces. repeat keeps_step. Qed.

(** The events of the end of the tick: the queue, the network, the
    counter, and then nothing but hook notifications. *)
Lemma UpdateLogic_finish_events day s :
  exists hooks,
    events_of (UpdateLogic_finish K E day) s
    = [Ext GameActions_ProcessQueue; Ext network_process_pending; Ext network_flush;
       Advance_gCurrentTicks] ++ hooks
    /\ forallb is_hook hooks = true.
Proof.
  unfold_pieces. run_all; cbn [app]; eexists; split; reflexivity.
Qed.

Lemma UpdateLogic_finish_hooks day s :
  ENABLE_SCRIPTING K = true ->
  stable E (@_date World) ->
  count is_tick_hook (events_of (UpdateLogic_finish K E day) s) = 1%nat
  /\ count is_day_hook (events_of (UpdateLogic_finish K E day) s)
     = if day =? Date_GetDay E (_date s) then 0%nat else 1%nat.
Proof.
  intros Hscript Hdate. unfold_pieces. run_all; try congruence;
    through (@_date World) Hdate;
    match goal with
    | H : negb (day =? ?today) = _ |- _ => destruct (day =? today)
    end; try discriminate; split; reflexivity.
Qed.


(** *** The tick counter across the loop and across [Tick] *)

Lemma update_loop_check_keeps_ticks :
  keeps (@gCurrentTicks World) (update_loop_check (World:=World) K).
Proof. unfold_pieces. repeat keeps_step. Qed.

Lemma update_loop_ticks n :
  quiet E ->
  forall s, 0 <= gCurrentTicks s < 2 ^ 32 ->
    gCurrentTicks (exec (update_loop K E n) s)
    = wrap32 (gCurrentTicks s
              + Z.of_nat (ticks_completed (events_of (update_loop K E n) s))).
Proof.
  intros Hq. induction n as [|n IH]; intros s Hs.
  - cbn. rewrite Z.add_0_r. symmetry. now apply wrap32_small.
  - set (s1 := exec (UpdateLogic K E) s).
    assert (H1 : gCurrentTicks s1
                 = wrap32 (gCurrentTicks s
                           + Z.of_nat (ticks_completed (events_of (UpdateLogic K E) s)))).
    { unfold s1. rewrite UpdateLogic_ticks, UpdateLogic_ticks_completed,
        UpdateLogic_network_result by exact Hq.
      destruct (at_server_tick s); cbn [negb Z.of_nat].
      - rewrite Z.add_0_r. symmetry. now apply wrap32_small.
      - reflexivity. }
    rewrite update_loop_S_events, update_loop_S_exec. fold s1.
    unfold ticks_completed in *. rewrite count_app.
    destruct (result (update_loop_check K) s1) eqn:Hleave.
    + rewrite (keeps_exec s1 update_loop_check_keeps_ticks), H1.
      cbn [count filter is_Loop_break is_Advance_gCurrentTicks length].
      now rewrite Nat.add_0_r.
    + rewrite (update_loop_check_stay _ Hleave).
      rewrite IH by (rewrite H1; apply wrap32_range).
      rewrite H1. unfold wrap32. rewrite Zplus_mod_idemp_l. f_equal. lia.
Qed.

(** [Tick] moves the counter by the number of ticks it completes. *)
Lemma Tick_ticks s :
  quiet E ->
  0 <= gCurrentTicks s < 2 ^ 32 ->
  gCurrentTicks (exec (Tick K E) s)
  = wrap32 (gCurrentTicks s + Z.of_nat (ticks_completed (events_of (Tick K E) s))).
Proof.
  intros Hq Hs. pose proof Hq as [Hv Ht].
  unfold ticks_completed. rewrite (Tick_count _ s frame_call_no_advance).
  rewrite Tick_exec, (keeps_exec _ (Tick_finish_keeps_ticks _ Ht)).
  unfold Tick_loop_end.
  assert (Hstart : gCurrentTicks (Tick_loop_start E s) = gCurrentTicks s).
  { unfold Tick_loop_start.
    rewrite (keeps_exec _ (Tick_pause_keeps_ticks _ Ht)). now apply Tick_entry_ticks. }
  rewrite update_loop_ticks by (exact Hq || now rewrite Hstart).
  now rewrite Hstart.
Qed.

(** *** [Tick] when the game runs *)

Lemma Tick_running s :
  quiet E ->
  isPaused_of s = false ->
  Tick_plan E s = (false, numUpdates_of s) /\ Tick_loop_start E s = Tick_entry E s.
Proof.
  intros Hq Hrun.
  pose proof (Tick_entry_view s Hq) as Hview.
  pose proof (Tick_entry_ticks s Hq) as Hticks.
  assert (He : isPaused_of (Tick_entry E s) = false)
    by now rewrite (view_isPaused _ _ Hview).
  destruct (Tick_pause_running (numUpdates_of (Tick_entry E s)) _ He) as (Hr & Hx & _).
  unfold Tick_plan, Tick_loop_start. rewrite Hr, Hx.
  now rewrite (view_numUpdates _ _ Hview Hticks).
Qed.

Lemma Tick_running_full s :
  quiet E ->
  isPaused_of s = false ->
  no_early_exit K s ->
  updates_run (events_of (Tick K E) s) = Z.to_nat (numUpdates_of s)
  /\ count is_Loop_break (events_of (Tick K E) s) = 0%nat.
Proof.
  intros Hq Hrun Hexit.
  destruct (Tick_running s Hq Hrun) as [Hplan Hstart].
  assert (He : no_early_exit K (Tick_entry E s))
    by exact (view_no_early_exit _ _ (Tick_entry_view s Hq) Hexit).
  destruct (update_loop_full (Z.to_nat (numUpdates_of s)) Hq _ He) as (Hruns & Hbreaks & _).
  unfold updates_run.
  rewrite (Tick_count _ s frame_call_no_enter), (Tick_count _ s frame_call_no_break).
  rewrite Hplan, Hstart. cbn [snd]. split; assumption.
Qed.


(** ** The frame driver *)

(** C1, as amended.  A connected and authenticated client that is [d]
    ticks behind the server and is not paused runs [min d 10] updates in
    one call of [Tick], all of them complete, and its tick counter ends
    at [localTick + min d 10], provided that the loop takes no early
    exit: the speed is not 1, or the input is idle. *)
Theorem Tick_catch_up_bound (s : State World) (d : Z) :
  quiet E ->
  catching_up s = true ->
  gGamePaused s = false ->
  no_early_exit K s ->
  0 <= gCurrentTicks s ->
  0 <= d ->
  network_get_server_tick s = gCurrentTicks s + d ->
  network_get_server_tick s < 2 ^ 32 ->
  updates_run (events_of (Tick K E) s) = Z.to_nat (Z.min d 10)
  /\ ticks_completed (events_of (Tick K E) s) = Z.to_nat (Z.min d 10)
  /\ gCurrentTicks (exec (Tick K E) s) = gCurrentTicks s + Z.min d 10.
Proof.
  intros Hq Hcu Hrun Hexit Hlo Hd Hserver Hhi.
  assert (Hmode : network_get_mode s = NETWORK_MODE_CLIENT).
  { unfold catching_up in Hcu.
    destruct (network_get_mode s); [discriminate | reflexivity | discriminate]. }
  assert (Hp : isPaused_of s = false).
  { unfold isPaused_of. rewrite Hmode. exact Hrun. }
  assert (Hn : numUpdates_of s = Z.min d 10).
  { unfold numUpdates_of. rewrite Hcu, Hserver.
    replace (gCurrentTicks s + d - gCurrentTicks s) with d by lia.
    rewrite wrap32_small by lia. now apply clamp_0_10. }
  destruct (Tick_running_full s Hq Hp Hexit) as [Hruns _].
  destruct (Tick_running s Hq Hp) as [Hplan Hstart].
  pose proof (Tick_entry_view s Hq) as Hview.
  pose proof (Tick_entry_ticks s Hq) as Hticks.
  assert (Hentry : network_get_mode (Tick_entry E s) = network_get_mode s
                   /\ network_get_server_tick (Tick_entry E s) = network_get_server_tick s).
  { unfold frame_view, ambient_view in Hview. split; congruence. }
  destruct Hentry as [Hm Hs].
  destruct (update_loop_client (Z.to_nat (Z.min d 10)) Hq (Tick_entry E s)) as [Hdone Hend].
  - exact (view_no_early_exit _ _ Hview Hexit).
  - congruence.
  - lia.
  - rewrite Hs, Hticks. lia.
  - rewrite Hruns, Hn. split; [reflexivity|].
    unfold ticks_completed in *. rewrite (Tick_count _ s frame_call_no_advance).
    rewrite Tick_exec, (keeps_exec _ (Tick_finish_keeps_ticks _ (proj2 Hq))).
    unfold Tick_loop_end. rewrite Hplan, Hstart, Hn. cbn [snd].
    rewrite Hdone, Hend, Hticks. split; lia.
Qed.

(** C2, as amended.  The early exit of the update loop is taken only at
    speed 1: when the speed is not 1, no call of [Tick] leaves its loop
    early, whatever the network role and the input.  At speed 1 a call
    that is not paused, has an update to run and finds the input not
    idle leaves the loop after the first update, whatever the network
    role: a client that catches up with the server included. *)
Theorem Tick_early_exit_only_at_speed_1 (s : State World) :
  quiet E ->
  (gGameSpeed s <> 1 ->
   count is_Loop_break (events_of (Tick K E) s) = 0%nat)
  /\ (gGameSpeed s = 1 ->
      isPaused_of s = false ->
      input_idle K s = false ->
      0 < numUpdates_of s ->
      count is_Loop_break (events_of (Tick K E) s) = 1%nat
      /\ updates_run (events_of (Tick K E) s) = 1%nat).
Proof.
  intros Hq. pose proof Hq as [Hv Ht].
  pose proof (Tick_entry_view s Hq) as Hview.
  split.
  - intros Hspeed. rewrite (Tick_count _ s frame_call_no_break).
    assert (Hstart : gGameSpeed (Tick_loop_start E s) = gGameSpeed s).
    { pose proof (keeps_exec (Tick_entry E s)
                    (Tick_pause_keeps_ambient (numUpdates_of (Tick_entry E s))
                       (stable_ambient Hv))) as H1.
      fold (Tick_loop_start E s) in H1.
      unfold frame_view, ambient_view in H1, Hview. congruence. }
    apply (update_loop_full _ Hq). left. now rewrite Hstart.
  - intros Hspeed Hrun Hbusy Hn.
    destruct (Tick_running s Hq Hrun) as [Hplan Hstart].
    destruct (view_input_idle _ _ Hview) as [Hs Hi].
    unfold updates_run.
    rewrite (Tick_count _ s frame_call_no_break), (Tick_count _ s frame_call_no_enter).
    rewrite Hplan, Hstart. cbn [snd].
    destruct (Z.to_nat (numUpdates_of s)) as [|n] eqn:Hk; [lia|].
    rewrite update_loop_breaks_first by (exact Hq || congruence).
    rewrite !count_app, UpdateLogic_breaks.
    fold (updates_run (events_of (UpdateLogic K E) (Tick_entry E s))).
    rewrite UpdateLogic_updates_run. split; reflexivity.
Qed.


Lemma Tick_finish_in_title_demo s :
  stable E (@frame_view World) ->
  test_mask (gScreenFlags s) (SCREEN_FLAGS_TITLE_DEMO K) = true ->
  gGamePaused (exec (Tick_finish K E true) s) = gGamePaused s.
Proof.
  intros Hv Hdemo.
  pose proof (stable_gGamePaused Hv) as Hp.
  pose proof (stable_gScreenFlags Hv) as Hf.
  unfold_pieces. run_all;
    through (@gScreenFlags World) Hf; through (@gGamePaused World) Hp;
    cbn [gGamePaused set_gInUpdateCode set_gDoSingleUpdate set_gGamePaused assign];
    through (@gGamePaused World) Hp;
    repeat match goal with
           | H : _ && _ = _ |- _ => rewrite Hdemo in H; cbn [negb andb] in H
           end;
    rewrite ?andb_false_r in *; first [ discriminate | reflexivity ].
Qed.

Lemma update_loop_keeps_paused n :
  stable E (@gGamePaused World) -> keeps (@gGamePaused World) (update_loop K E n).
Proof.
  intros H. induction n as [|n IH]; cbn [update_loop]; [apply keeps_ret|].
  apply keeps_bind; [unfold_pieces; repeat keeps_step | intros _].
  apply keeps_bind; [unfold_pieces; repeat keeps_step | intros [|]].
  - apply keeps_mark.
  - exact IH.
Qed.

(** C4, as amended.  A call of [Tick] that starts paused, with a single
    step requested and no network session, runs exactly one update, which
    completes, and clears the request; outside the title demo it ends
    paused again, and during the title demo it leaves the game
    running. *)
Theorem Tick_single_step (s : State World) :
  quiet E ->
  gGamePaused s = true ->
  gDoSingleUpdate s = true ->
  network_get_mode s = NETWORK_MODE_NONE ->
  updates_run (events_of (Tick K E) s) = 1%nat
  /\ ticks_completed (events_of (Tick K E) s) = 1%nat
  /\ gDoSingleUpdate (exec (Tick K E) s) = false
  /\ (test_mask (gScreenFlags s) (SCREEN_FLAGS_TITLE_DEMO K) = false ->
      gGamePaused (exec (Tick K E) s) = true)
  /\ (test_mask (gScreenFlags s) (SCREEN_FLAGS_TITLE_DEMO K) = true ->
      gGamePaused (exec (Tick K E) s) = false).
Proof.
  intros Hq Hpaused Hsingle Hmode. pose proof Hq as [Hv Ht].
  pose proof (Tick_entry_view s Hq) as Hview.
  assert (Hentry : network_get_mode (Tick_entry E s) = NETWORK_MODE_NONE
                   /\ gDoSingleUpdate (Tick_entry E s) = true
                   /\ gScreenFlags (Tick_entry E s) = gScreenFlags s
                   /\ gGamePaused (Tick_entry E s) = true).
  { unfold frame_view, ambient_view in Hview. repeat split; congruence. }
  destruct Hentry as (Hm & Hsg & Hfl & Hpa).
  assert (Hp : isPaused_of (Tick_entry E s) = true).
  { rewrite (view_isPaused _ _ Hview). unfold isPaused_of. now rewrite Hmode. }
  destruct (Tick_pause_single (numUpdates_of (Tick_entry E s)) _ Hp Hsg Hm)
    as (Hplan & Hstart & _).
  fold (Tick_plan E s) in Hplan. fold (Tick_loop_start E s) in Hstart.
  assert (Hflags : gScreenFlags (exec (update_loop K E 1) (Tick_loop_start E s))
                   = gScreenFlags s).
  { pose proof (keeps_exec (Tick_loop_start E s)
                  (update_loop_keeps_ambient 1 (stable_ambient Hv))) as Hloop.
    assert (H : gScreenFlags (exec (update_loop K E 1) (Tick_loop_start E s))
                = gScreenFlags (Tick_loop_start E s))
      by (unfold ambient_view in Hloop; congruence).
    rewrite H, Hstart.
    change (gScreenFlags (set_gGamePaused ?v ?x)) with (gScreenFlags x).
    exact Hfl. }
  unfold updates_run, ticks_completed.
  rewrite (Tick_count _ s frame_call_no_enter), (Tick_count _ s frame_call_no_advance).
  rewrite Tick_exec. unfold Tick_loop_end. rewrite Hplan. cbn [fst snd].
  change (Z.to_nat 1) with 1%nat.
  split; [apply update_loop_1_updates_run|].
  split; [|split; [apply Tick_finish_clears_single|split]].
  - fold (ticks_completed (events_of (update_loop K E 1) (Tick_loop_start E s))).
    rewrite update_loop_1_ticks_completed, UpdateLogic_ticks_completed,
      UpdateLogic_network_result by exact Hq.
    unfold at_server_tick. rewrite Hstart.
    change (network_get_mode (set_gGamePaused ?v ?x)) with (network_get_mode x).
    now rewrite Hm.
  - intros Hdemo. apply (Tick_finish_pauses _ Hv). now rewrite Hflags.
  - intros Hdemo.
    rewrite (Tick_finish_in_title_demo _ Hv) by now rewrite Hflags.
    rewrite (keeps_exec _ (update_loop_keeps_paused 1 (stable_gGamePaused Hv))).
    rewrite Hstart. cbn [gGamePaused set_gGamePaused assign]. now rewrite Hpa.
Qed.





(** C10, as amended.  For a connected and authenticated client whose tick
    counter is ahead of the server's by at most [2 ^ 32 - 10], the
    unsigned subtraction wraps around to 10 or more and the clamp gives
    10 updates; when the game is not paused and the loop takes no early
    exit, [Tick] runs [UpdateLogic] ten times. *)
Theorem numUpdates_client_ahead (s : State World) :
  catching_up s = true ->
  0 <= network_get_server_tick s ->
  network_get_server_tick s < gCurrentTicks s ->
  gCurrentTicks s < 2 ^ 32 ->
  gCurrentTicks s - network_get_server_tick s <= 2 ^ 32 - 10 ->
  numUpdates_of s = 10
  /\ (quiet E -> gGamePaused s = false -> no_early_exit K s ->
      updates_run (events_of (Tick K E) s) = 10%nat).
Proof.
  intros Hcu Hlo Hahead Hhi Hgap.
  assert (Hn : numUpdates_of s = 10).
  { unfold numUpdates_of. rewrite Hcu. unfold wrap32.
    replace (network_get_server_tick s - gCurrentTicks s)
      with (network_get_server_tick s - gCurrentTicks s + 2 ^ 32 + (-1) * 2 ^ 32) by lia.
    rewrite Z.mod_add by lia. rewrite Z.mod_small by lia.
    rewrite clamp_0_10 by lia. lia. }
  split; [exact Hn|]. intros Hq Hrun Hexit.
  assert (Hmode : network_get_mode s = NETWORK_MODE_CLIENT).
  { unfold catching_up in Hcu.
    destruct (network_get_mode s); [discriminate | reflexivity | discriminate]. }
  assert (Hp : isPaused_of s = false).
  { unfold isPaused_of. rewrite Hmode. exact Hrun. }
  destruct (Tick_running_full s Hq Hp Hexit) as [Hruns _].
  now rewrite Hruns, Hn.
Qed.


(** ** The update pipeline *)

(** The early return of line 291.  On a client whose tick counter equals
    the tick that the server announced, [UpdateLogic] returns after the
    replay and network polls: no step of the pipeline runs, the state is
    the one that these two polls leave, and the tick counter is
    unchanged.  The guard of line 289 is an equality: it does not cover
    a client whose counter is past the server's tick. *)
Lemma UpdateLogic_client_at_server_tick (s : State World) :
  quiet E ->
  network_get_mode s = NETWORK_MODE_CLIENT ->
  network_get_server_tick s = gCurrentTicks s ->
  events_of (UpdateLogic K E) s
  = [Enter_UpdateLogic; Ext ReplayManager_Update; Ext network_update]
  /\ exec (UpdateLogic K E) s
     = ext E network_update (ext E ReplayManager_Update (increment_gScreenAge K s))
  /\ gCurrentTicks (exec (UpdateLogic K E) s) = gCurrentTicks s.
Proof.
  intros Hq Hmode Heq.
  assert (Hat : at_server_tick s = true).
  { unfold at_server_tick. rewrite Hmode, Heq, Z.eqb_refl. reflexivity. }
  destruct (UpdateLogic_network_early s Hq Hmode Heq) as [Hev Hex].
  rewrite UpdateLogic_ticks, UpdateLogic_events, UpdateLogic_exec,
    UpdateLogic_network_result, Hat by exact Hq.
  cbn [negb]. rewrite Hev, Hex. repeat split.
Qed.

(** C7.  With the scripting hooks compiled in, and no collaborator
    writing the date of the game state, a completed call of
    [UpdateLogic] notifies the tick hook, and it notifies the day hook if
    and only if the day of the date after the date step differs from the
    day at the start of the tick. *)
Theorem UpdateLogic_day_hook (s : State World) :
  ENABLE_SCRIPTING K = true ->
  stable E (@_date World) ->
  result (UpdateLogic_network K E) s = true ->
  let start := exec (UpdateLogic_network K E) s in
  let dated := exec (UpdateLogic_date E) start in
  _date start = _date s
  /\ In (Ext (HookEngine_Call INTERVAL_TICK)) (events_of (UpdateLogic K E) s)
  /\ (In (Ext (HookEngine_Call INTERVAL_DAY)) (events_of (UpdateLogic K E) s)
      <-> Date_GetDay E (_date dated) <> Date_GetDay E (_date start)).
Proof.
  intros Hscript Hdate Hgo start dated.
  set (done := exec (UpdateLogic_subsystems K E) dated).
  destruct (UpdateLogic_finish_hooks (result (UpdateLogic_date E) start) done
              Hscript Hdate) as [Htick Hday].
  assert (Hdone : _date done = _date dated)
    by apply (keeps_exec dated (UpdateLogic_subsystems_keeps_date Hdate)).
  rewrite UpdateLogic_date_day, Hdone in Hday.
  assert (Hevents : forall p,
             count p (events_of (UpdateLogic_network K E) s) = 0%nat ->
             count p (events_of (UpdateLogic_date E) start) = 0%nat ->
             count p (events_of (UpdateLogic_subsystems K E) dated) = 0%nat ->
             count p (events_of (UpdateLogic K E) s)
             = count p (events_of (UpdateLogic_finish K E
                                     (result (UpdateLogic_date E) start)) done)).
  { intros p H1 H2 H3. rewrite UpdateLogic_events, Hgo.
    fold start. rewrite UpdateLogic_pipeline_events. fold dated. fold done.
    rewrite !count_app, H1, H2, H3. reflexivity. }
  assert (Hnet : forall p, p Enter_UpdateLogic = false ->
             (forall c, p (Ext c) = true -> exists h, c = HookEngine_Call h) ->
             count p (events_of (UpdateLogic_network K E) s) = 0%nat).
  { intros p Hp Hc.
    apply count_none with
      (q := fun e => match e with
                     | Ext (HookEngine_Call _) => false
                     | Ext _ | Enter_UpdateLogic => true
                     | _ => false
                     end).
    - count_events.
    - intros [c| | |] H; try discriminate; [|exact Hp].
      destruct (p (Ext c)) eqn:Hpc; [|reflexivity].
      destruct (Hc c Hpc) as [h ->]. discriminate. }
  assert (Hsub : forall p,
             (forall c, p (Ext c) = true -> exists h, c = HookEngine_Call h) ->
             count p (events_of (UpdateLogic_subsystems K E) dated) = 0%nat).
  { intros p Hc.
    apply count_none with
      (q := fun e => match e with
                     | Ext (HookEngine_Call _) => false
                     | Ext _ => true
                     | _ => false
                     end).
    - count_events.
    - intros [c| | |] H; try discriminate.
      destruct (p (Ext c)) eqn:Hpc; [|reflexivity].
      destruct (Hc c Hpc) as [h ->]. discriminate. }
  assert (Htick' : count is_tick_hook (events_of (UpdateLogic K E) s) = 1%nat).
  { rewrite Hevents; [exact Htick | apply Hnet | reflexivity | apply Hsub];
      try reflexivity; intros c Hc; destruct c; try discriminate; eauto. }
  assert (Hday' : count is_day_hook (events_of (UpdateLogic K E) s)
                  = if Date_GetDay E (_date start) =? Date_GetDay E (_date dated)
                    then 0%nat else 1%nat).
  { rewrite Hevents; [exact Hday | apply Hnet | reflexivity | apply Hsub];
      try reflexivity; intros c Hc; destruct c; try discriminate; eauto. }
  split; [apply (keeps_exec s (UpdateLogic_network_keeps_date Hdate))|].
  split.
  - destruct (count_pos_In is_tick_hook (events_of (UpdateLogic K E) s))
      as (e & Hin & He); [rewrite Htick'; discriminate|].
    now rewrite <- (tick_hook_is e He).
  - destruct (Z.eqb_spec (Date_GetDay E (_date start)) (Date_GetDay E (_date dated)))
      as [Hsame | Hdiff].
    + split; [|intros H; now symmetry in Hsame].
      intros Hin. exfalso.
      exact (count_zero_not_In is_day_hook _ (Ext (HookEngine_Call INTERVAL_DAY))
             Hday' eq_refl Hin).
    + split; [intros _ H; now symmetry in H|]. intros _.
      destruct (count_pos_In is_day_hook (events_of (UpdateLogic K E) s))
        as (e & Hin & He); [rewrite Hday'; discriminate|].
      now rewrite <- (day_hook_is e He).
Qed.


(** *** Snapshots on the server *)

Lemma UpdateLogic_server_events s :
  quiet E ->
  stable E (@ScenarioRandState_s0 World) ->
  network_get_mode s = NETWORK_MODE_SERVER ->
  network_gamestate_snapshots_enabled s = true ->
  events_of (UpdateLogic K E) s
  = [Enter_UpdateLogic; Ext ReplayManager_Update; Ext network_update;
     Ext Snapshots_CreateSnapshot; Ext Snapshots_Capture;
     Ext (Snapshots_LinkSnapshot (gCurrentTicks s) (ScenarioRandState_s0 s));
     Ext network_send_tick]
    ++ events_of (UpdateLogic_pipeline K E) (exec (UpdateLogic_network K E) s).
Proof.
  intros Hq Hseed Hmode Hsnap.
  rewrite UpdateLogic_events, UpdateLogic_network_result by exact Hq.
  unfold at_server_tick. rewrite Hmode. cbn [NetworkMode_eqb andb negb].
  now rewrite (UpdateLogic_network_server s Hq Hseed Hmode Hsnap).
Qed.

Lemma UpdateLogic_network_linked s :
  quiet E ->
  network_get_mode s = NETWORK_MODE_SERVER ->
  network_gamestate_snapshots_enabled s = true ->
  linked_ticks (events_of (UpdateLogic_network K E) s) = [gCurrentTicks s].
Proof.
  intros [Hv Ht] Hmode Henabled.
  destruct (ambient_fields (stable_ambient Hv)) as (_ & Hm & _ & _ & Hsnap).
  unfold_pieces. run_all;
    through (@network_get_mode World) Hm;
    through (@network_gamestate_snapshots_enabled World) Hsnap;
    through (@gCurrentTicks World) Ht;
    try congruence; reflexivity.
Qed.

Lemma UpdateLogic_times_linked n :
  quiet E ->
  forall s,
    network_get_mode s = NETWORK_MODE_SERVER ->
    network_gamestate_snapshots_enabled s = true ->
    0 <= gCurrentTicks s ->
    gCurrentTicks s + Z.of_nat n <= 2 ^ 32 ->
    linked_ticks (events_of (UpdateLogic_times K E n) s)
    = map (fun i => gCurrentTicks s + Z.of_nat i) (seq 0 n).
Proof.
  intros Hq. induction n as [|n IH]; intros s Hmode Hsnap Hlo Hhi; [reflexivity|].
  cbn [UpdateLogic_times].
  rewrite events_bind by (intros _; apply UpdateLogic_times_appends).
  rewrite linked_ticks_app, UpdateLogic_events, linked_ticks_app.
  rewrite UpdateLogic_network_linked by assumption.
  rewrite UpdateLogic_network_result by exact Hq.
  assert (Hat : at_server_tick s = false)
    by (unfold at_server_tick; now rewrite Hmode).
  rewrite Hat. cbn [negb].
  rewrite (linked_ticks_none _ (UpdateLogic_pipeline_no_snapshot _)).
  cbn [app seq map]. rewrite Z.add_0_r. f_equal.
  destruct n as [|n]; [reflexivity|].
  pose proof (keeps_exec s (UpdateLogic_keeps_view (proj1 Hq))) as Hview.
  pose proof (UpdateLogic_ticks s Hq) as Hticks. rewrite Hat in Hticks.
  rewrite wrap32_small in Hticks by lia.
  rewrite IH.
  - rewrite Hticks, <- seq_shift, map_map. apply map_ext. intros i. lia.
  - unfold frame_view, ambient_view in Hview. congruence.
  - unfold frame_view, ambient_view in Hview. congruence.
  - lia.
  - lia.
Qed.

(** C8, as amended.  On the server with snapshots enabled, a call of
    [UpdateLogic] creates one snapshot, captures it and links it to the
    current tick and the current random seed, before it announces the
    tick, and does nothing else with snapshots; over [n] calls in a row
    the linked ticks never go down, as long as the tick counter does not
    wrap around. *)
Theorem UpdateLogic_server_snapshot (s : State World) (n : nat) :
  quiet E ->
  stable E (@ScenarioRandState_s0 World) ->
  network_get_mode s = NETWORK_MODE_SERVER ->
  network_gamestate_snapshots_enabled s = true ->
  0 <= gCurrentTicks s ->
  gCurrentTicks s + Z.of_nat n <= 2 ^ 32 ->
  (exists rest,
      events_of (UpdateLogic K E) s
      = [Enter_UpdateLogic; Ext ReplayManager_Update; Ext network_update;
         Ext Snapshots_CreateSnapshot; Ext Snapshots_Capture;
         Ext (Snapshots_LinkSnapshot (gCurrentTicks s) (ScenarioRandState_s0 s));
         Ext network_send_tick] ++ rest
      /\ count is_snapshot_call rest = 0%nat)
  /\ linked_ticks (events_of (UpdateLogic_times K E n) s)
     = map (fun i => gCurrentTicks s + Z.of_nat i) (seq 0 n)
  /\ non_decreasing (linked_ticks (events_of (UpdateLogic_times K E n) s)).
Proof.
  intros Hq Hseed Hmode Hsnap Hlo Hhi. split; [|split].
  - eexists. split; [now apply UpdateLogic_server_events|].
    apply UpdateLogic_pipeline_no_snapshot.
  - now apply UpdateLogic_times_linked.
  - rewrite UpdateLogic_times_linked by assumption. apply non_decreasing_seq.
Qed.

(** *** The tick counter *)

Lemma InitAll_ticks x y s :
  stable E (@gCurrentTicks World) ->
  gCurrentTicks (exec (InitAll K E x y) s) = 0.
Proof.
  intros Ht. unfold InitAll. run_all; through (@gCurrentTicks World) Ht; reflexivity.
Qed.

Lemma CreateStateSnapshot_keeps_ticks :
  stable E (@gCurrentTicks World) ->
  keeps (@gCurrentTicks World) (CreateStateSnapshot E).
Proof. intros H. unfold_pieces. repeat keeps_step. Qed.

Lemma UpdateLogic_advance_last s :
  result (UpdateLogic_network K E) s = true ->
  exists pre post,
    events_of (UpdateLogic K E) s = pre ++ Advance_gCurrentTicks :: post
    /\ ticks_completed pre = 0%nat
    /\ (forall c, In c pipeline_steps -> In (Ext c) pre)
    /\ forallb is_hook post = true.
Proof.
  intros Hgo.
  set (start := exec (UpdateLogic_network K E) s).
  set (dated := exec (UpdateLogic_date E) start).
  set (done := exec (UpdateLogic_subsystems K E) dated).
  destruct (UpdateLogic_finish_events (result (UpdateLogic_date E) start) done)
    as (hooks & Hfin & Hhooks).
  exists (events_of (UpdateLogic_network K E) s
          ++ [Ext DateUpdate]
          ++ events_of (UpdateLogic_subsystems K E) dated
          ++ [Ext GameActions_ProcessQueue; Ext network_process_pending;
              Ext network_flush]),
         hooks.
  split; [|split; [|split]].
  - rewrite UpdateLogic_events, Hgo. fold start.
    rewrite UpdateLogic_pipeline_events. fold dated. fold done.
    rewrite Hfin, UpdateLogic_date_events. rewrite <- !app_assoc. reflexivity.
  - unfold ticks_completed. rewrite !count_app.
    rewrite UpdateLogic_network_advances.
    rewrite UpdateLogic_subsystems_quiet by (intro; reflexivity). reflexivity.
  - intros c Hc. apply in_or_app. right.
    destruct (Call_eq_DateUpdate c) as [-> | Hd]; [now left|].
    apply in_or_app. right. apply in_or_app.
    destruct (Call_eq_ProcessQueue c) as [-> | Hq]; [right; now left|].
    left. now apply UpdateLogic_subsystems_steps.
  - exact Hhooks.
Qed.

(** C9, as amended.  A completed call of [UpdateLogic] adds one to the
    tick counter modulo [2 ^ 32], so exactly one unless the counter is at
    its maximum; the increment comes after every subsystem update and
    after the drain of the action queue, and only hook notifications
    follow it.  A call that returns early and [CreateStateSnapshot] leave
    the counter alone, [Tick] moves it by the number of ticks it
    completes, and [InitAll] sets it to 0. *)
Theorem gCurrentTicks_advances (s : State World) :
  quiet E ->
  0 <= gCurrentTicks s < 2 ^ 32 ->
  (at_server_tick s = false ->
     gCurrentTicks (exec (UpdateLogic K E) s) = wrap32 (gCurrentTicks s + 1)
     /\ (gCurrentTicks s < 2 ^ 32 - 1 ->
         gCurrentTicks (exec (UpdateLogic K E) s) = gCurrentTicks s + 1)
     /\ exists pre post,
          events_of (UpdateLogic K E) s = pre ++ Advance_gCurrentTicks :: post
          /\ ticks_completed pre = 0%nat
          /\ (forall c, In c pipeline_steps -> In (Ext c) pre)
          /\ forallb is_hook post = true)
  /\ (at_server_tick s = true ->
      gCurrentTicks (exec (UpdateLogic K E) s) = gCurrentTicks s)
  /\ gCurrentTicks (exec (CreateStateSnapshot E) s) = gCurrentTicks s
  /\ gCurrentTicks (exec (Tick K E) s)
     = wrap32 (gCurrentTicks s + Z.of_nat (ticks_completed (events_of (Tick K E) s)))
  /\ (forall x y, gCurrentTicks (exec (InitAll K E x y) s) = 0).
Proof.
  intros Hq Hs. pose proof Hq as [Hv Ht].
  pose proof (UpdateLogic_ticks s Hq) as Hticks.
  split; [|split; [|split; [|split]]].
  - intros Hat. rewrite Hat in Hticks. split; [exact Hticks|]. split.
    + intros Hmax. rewrite Hticks. apply wrap32_small. lia.
    + apply UpdateLogic_advance_last.
      rewrite UpdateLogic_network_result by exact Hq. now rewrite Hat.
  - intros Hat. now rewrite Hat in Hticks.
  - apply (keeps_exec s (CreateStateSnapshot_keeps_ticks Ht)).
  - now apply Tick_ticks.
  - intros x y. now apply InitAll_ticks.
Qed.

(** ** More about the frame driver and the pipeline *)

(** *** Counting over the loop *)

(** A fact about the events of every [UpdateLogic] carries over to the
    events of the loop, as long as the states stay within [I]. *)
Lemma update_loop_count_eq (I : State World -> Prop) p (q : Event -> bool) :
  (forall s, I s -> I (exec (UpdateLogic K E) s)) ->
  (forall s, I s -> I (exec (update_loop_check K) s)) ->
  (forall s, I s ->
     count p (events_of (UpdateLogic K E) s) = count q (events_of (UpdateLogic K E) s)) ->
  p Loop_break = q Loop_break ->
  forall n s, I s ->
    count p (events_of (update_loop K E n) s) = count q (events_of (update_loop K E n) s).
Proof.
  intros HU HC Hpq Hbreak. induction n as [|n IH]; intros s Hs; [reflexivity|].
  rewrite update_loop_S_events, !count_app, (Hpq s Hs). f_equal.
  destruct (result (update_loop_check K) _).
  - unfold count. cbn [filter]. now rewrite Hbreak.
  - apply IH. apply HC, HU, Hs.
Qed.

Lemma update_loop_count_zero (I : State World -> Prop) p :
  (forall s, I s -> I (exec (UpdateLogic K E) s)) ->
  (forall s, I s -> I (exec (update_loop_check K) s)) ->
  (forall s, I s -> count p (events_of (UpdateLogic K E) s) = 0%nat) ->
  p Loop_break = false ->
  forall n s, I s -> count p (events_of (update_loop K E n) s) = 0%nat.
Proof.
  intros HU HC Hp Hbreak. induction n as [|n IH]; intros s Hs; [reflexivity|].
  rewrite update_loop_S_events, !count_app, (Hp s Hs).
  destruct (result (update_loop_check K) _).
  - unfold count. cbn [filter]. now rewrite Hbreak.
  - apply IH. apply HC, HU, Hs.
Qed.

Lemma update_loop_updates_bound n s :
  (updates_run (events_of (update_loop K E n) s) <= n)%nat.
Proof.
  revert s. induction n as [|n IH]; intros s; [apply Nat.le_refl|].
  unfold updates_run in *. rewrite update_loop_S_events, count_app.
  fold (updates_run (events_of (UpdateLogic K E) s)). rewrite UpdateLogic_updates_run.
  destruct (result (update_loop_check K) _).
  - cbn. lia.
  - specialize (IH (exec (update_loop_check K) (exec (UpdateLogic K E) s))). lia.
Qed.

Lemma update_loop_updates_first n s :
  (1 <= updates_run (events_of (update_loop K E (S n)) s))%nat.
Proof.
  unfold updates_run. rewrite update_loop_S_events, count_app.
  fold (updates_run (events_of (UpdateLogic K E) s)). rewrite UpdateLogic_updates_run.
  lia.
Qed.

Lemma update_loop_completed_bound n s :
  (ticks_completed (events_of (update_loop K E n) s)
   <= updates_run (events_of (update_loop K E n) s))%nat.
Proof.
  revert s. induction n as [|n IH]; intros s; [apply Nat.le_refl|].
  unfold updates_run, ticks_completed in *. rewrite update_loop_S_events, !count_app.
  fold (updates_run (events_of (UpdateLogic K E) s)).
  fold (ticks_completed (events_of (UpdateLogic K E) s)).
  rewrite UpdateLogic_updates_run, UpdateLogic_ticks_completed.
  destruct (result (update_loop_check K) _).
  - destruct (result _ s); cbn; lia.
  - specialize (IH (exec (update_loop_check K) (exec (UpdateLogic K E) s))).
    destruct (result _ s); lia.
Qed.

(** Count the calls of one kind in a part of [Tick] or [UpdateLogic]. *)
Ltac count_calls p m n :=
  replace (count (calls p) (events_of m _)) with n by (symmetry; count_events).

Lemma update_loop_check_keeps (X : Type) (f : State World -> X) :
  (forall v s, f (set_gInputFlags v s) = f s) ->
  keeps f (update_loop_check (World:=World) K).
Proof.
  intros H. unfold_pieces.
  repeat first [ keeps_step | apply keeps_modify; intro; apply H ].
Qed.

(** *** The calls of every frame *)

Lemma UpdateLogic_network_updates s :
  count (calls is_network_update) (events_of (UpdateLogic K E) s) = 1%nat.
Proof.
  rewrite UpdateLogic_events, count_app.
  count_calls is_network_update (UpdateLogic_network K E) 1%nat.
  destruct (result _ s); [|reflexivity].
  count_calls is_network_update (UpdateLogic_pipeline K E) 0%nat.
  reflexivity.
Qed.

Lemma UpdateLogic_network_flushes s :
  count (calls is_network_flush) (events_of (UpdateLogic K E) s)
  = ticks_completed (events_of (UpdateLogic K E) s).
Proof.
  rewrite UpdateLogic_ticks_completed, UpdateLogic_events, count_app.
  count_calls is_network_flush (UpdateLogic_network K E) 0%nat.
  destruct (result _ s); [|reflexivity].
  count_calls is_network_flush (UpdateLogic_pipeline K E) 1%nat.
  reflexivity.
Qed.

Lemma UpdateLogic_no_window_dispatch s :
  count (calls is_WindowDispatchUpdateAll) (events_of (UpdateLogic K E) s) = 0%nat.
Proof.
  rewrite UpdateLogic_events, count_app.
  count_calls is_WindowDispatchUpdateAll (UpdateLogic_network K E) 0%nat.
  destruct (result _ s); [|reflexivity].
  count_calls is_WindowDispatchUpdateAll (UpdateLogic_pipeline K E) 0%nat.
  reflexivity.
Qed.

(** X1.  Whatever the state and whatever the collaborators do, [Tick]
    ends outside the update code and with no single step pending. *)
Theorem Tick_leaves_update_code (s : State World) :
  gInUpdateCode (exec (Tick K E) s) = false
  /\ gDoSingleUpdate (exec (Tick K E) s) = false.
Proof.
  rewrite Tick_exec. split; [|apply Tick_finish_clears_single].
  unfold_pieces. run_all; reflexivity.
Qed.

(** X2.  Whatever the state and whatever the collaborators do, a call of
    [Tick] polls the network once and once more in every update, flushes
    it once and once more in every completed tick, and dispatches the
    window updates exactly once. *)
Theorem Tick_frame_calls (s : State World) :
  count (calls is_network_update) (events_of (Tick K E) s)
  = S (updates_run (events_of (Tick K E) s))
  /\ count (calls is_network_flush) (events_of (Tick K E) s)
     = S (ticks_completed (events_of (Tick K E) s))
  /\ count (calls is_WindowDispatchUpdateAll) (events_of (Tick K E) s) = 1%nat.
Proof.
  unfold updates_run, ticks_completed.
  rewrite (Tick_count _ s frame_call_no_enter), (Tick_count _ s frame_call_no_advance).
  rewrite Tick_events, !count_app.
  set (n := Z.to_nat (snd (Tick_plan E s))).
  set (s1 := Tick_loop_start E s).
  rewrite (update_loop_count_eq (fun _ => True) (calls is_network_update)
             is_Enter_UpdateLogic) by
    (trivial || (intros; rewrite UpdateLogic_network_updates;
                 symmetry; apply UpdateLogic_updates_run)).
  rewrite (update_loop_count_eq (fun _ => True) (calls is_network_flush)
             is_Advance_gCurrentTicks) by
    (trivial || (intros; apply UpdateLogic_network_flushes)).
  rewrite (update_loop_count_zero (fun _ => True) (calls is_WindowDispatchUpdateAll)) by
    (trivial || (intros; apply UpdateLogic_no_window_dispatch)).
  count_calls is_network_update (Tick_begin E) 1%nat.
  count_calls is_network_flush (Tick_begin E) 0%nat.
  count_calls is_WindowDispatchUpdateAll (Tick_begin E) 0%nat.
  count_calls is_network_update (Tick_pause E (numUpdates_of (Tick_entry E s))) 0%nat.
  count_calls is_network_flush (Tick_pause E (numUpdates_of (Tick_entry E s))) 0%nat.
  count_calls is_WindowDispatchUpdateAll
    (Tick_pause E (numUpdates_of (Tick_entry E s))) 0%nat.
  count_calls is_network_update (Tick_finish K E (fst (Tick_plan E s))) 0%nat.
  count_calls is_network_flush (Tick_finish K E (fst (Tick_plan E s))) 1%nat.
  count_calls is_WindowDispatchUpdateAll (Tick_finish K E (fst (Tick_plan E s))) 1%nat.
  repeat split; lia.
Qed.

(** *** The provisional map elements *)

Lemma provisional_scan_app a : forall r b,
  provisional_scan r (a ++ b)
  = match provisional_scan r a with
    | Some r' => provisional_scan r' b
    | None => None
    end.
Proof.
  induction a as [|e a IH]; intros r b; [reflexivity|].
  cbn [app provisional_scan].
  destruct e as [c| | |]; try apply IH.
  destruct c; try apply IH; destruct r; try reflexivity; apply IH.
Qed.

Lemma provisional_scan_neutral t : forall r,
  forallb provisional_neutral t = true -> provisional_scan r t = Some r.
Proof.
  induction t as [|e t IH]; intros r H; [reflexivity|].
  cbn [forallb] in H. apply andb_prop in H. destruct H as [He Ht].
  cbn [provisional_scan].
  destruct e as [c| | |]; try (now apply IH).
  destruct c; try (now apply IH); discriminate He.
Qed.

Lemma UpdateLogic_subsystems_provisional s :
  provisional_scan false (events_of (UpdateLogic_subsystems K E) s) = Some false.
Proof. count_events. Qed.

Lemma UpdateLogic_provisional s :
  provisional_scan false (events_of (UpdateLogic K E) s) = Some false.
Proof.
  rewrite UpdateLogic_events, provisional_scan_app.
  rewrite (provisional_scan_neutral (events_of (UpdateLogic_network K E) s))
    by count_events.
  destruct (result _ s); [|reflexivity].
  rewrite UpdateLogic_pipeline_events, UpdateLogic_date_events.
  cbn [app provisional_scan].
  rewrite provisional_scan_app, UpdateLogic_subsystems_provisional.
  apply provisional_scan_neutral. count_events.
Qed.

Lemma update_loop_provisional n : forall s,
  provisional_scan false (events_of (update_loop K E n) s) = Some false.
Proof.
  induction n as [|n IH]; intros s; [reflexivity|].
  rewrite update_loop_S_events, provisional_scan_app, UpdateLogic_provisional.
  destruct (result (update_loop_check K) _); [reflexivity | apply IH].
Qed.

(** X3.  In every update and in every frame, the provisional map
    elements are stashed away while the guests and the staff are
    updated, never stashed twice, and back in place at the end. *)
Theorem Tick_provisional_elements (s : State World) :
  provisional_scan false (events_of (UpdateLogic K E) s) = Some false
  /\ provisional_scan false (events_of (Tick K E) s) = Some false.
Proof.
  split; [apply UpdateLogic_provisional|].
  rewrite Tick_events, provisional_scan_app.
  rewrite (provisional_scan_neutral (events_of (Tick_begin E) s)) by count_events.
  rewrite provisional_scan_app.
  rewrite (provisional_scan_neutral
             (events_of (Tick_pause E (numUpdates_of (Tick_entry E s))) (Tick_entry E s)))
    by count_events.
  rewrite provisional_scan_app, update_loop_provisional.
  apply provisional_scan_neutral. count_events.
Qed.

(** *** How many updates a frame runs *)

Lemma clamp_upper v : clamp v 0 10 <= 10.
Proof.
  unfold clamp. destruct (Z.ltb_spec v 0); [lia|]. destruct (Z.ltb_spec 10 v); lia.
Qed.

Lemma view_catching_up (a b : State World) :
  frame_view a = frame_view b -> catching_up a = catching_up b.
Proof.
  unfold frame_view, ambient_view, catching_up. intros H.
  injection H as _ _ _ _ Hmode Hstatus Hauth _ _ _ _ _ _ _.
  now rewrite Hmode, Hstatus, Hauth.
Qed.

Lemma view_mode (a b : State World) :
  frame_view a = frame_view b -> network_get_mode a = network_get_mode b.
Proof. unfold frame_view, ambient_view. intros H. congruence. Qed.

Lemma catching_up_client (s : State World) :
  catching_up s = true -> network_get_mode s = NETWORK_MODE_CLIENT.
Proof.
  unfold catching_up.
  destruct (network_get_mode s); [discriminate | reflexivity | discriminate].
Qed.

(** What the pause decides when no single step is taken. *)
Lemma Tick_pause_no_step n s :
  isPaused_of s = true ->
  gDoSingleUpdate s && NetworkMode_eqb (network_get_mode s) NETWORK_MODE_NONE = false ->
  result (Tick_pause E n) s = (false, 0).
Proof.
  intros H Hno. unfold_pieces. run. rewrite H, Hno.
  destruct (NetworkMode_eqb (network_get_mode s) NETWORK_MODE_SERVER); reflexivity.
Qed.

Lemma Tick_pause_updates n s :
  let r := result (Tick_pause E n) s in snd r = n \/ snd r = 0 \/ snd r = 1.
Proof.
  unfold_pieces. run_all; cbn [snd]; auto.
Qed.

Lemma Tick_pause_keeps_paused n s :
  stable E (@gGamePaused World) ->
  gDoSingleUpdate s && NetworkMode_eqb (network_get_mode s) NETWORK_MODE_NONE = false ->
  gGamePaused (exec (Tick_pause E n) s) = gGamePaused s.
Proof.
  intros Hp Hno. unfold_pieces. run.
  destruct (isPaused_of s); run; [|reflexivity]. rewrite Hno.
  run_all; through (@gGamePaused World) Hp; reflexivity.
Qed.

Lemma Tick_finish_keeps_paused :
  stable E (@gGamePaused World) -> keeps (@gGamePaused World) (Tick_finish K E false).
Proof.
  intros H. unfold_pieces. cbn [andb]. unfold when at 3. repeat keeps_step.
Qed.

(** X4.  A call of [Tick] never completes more ticks than it runs
    updates, and a connected and authenticated client runs at most ten
    updates in one call, whatever its distance to the server, the speed,
    the pause and the input. *)
Theorem Tick_update_bound (s : State World) :
  (ticks_completed (events_of (Tick K E) s) <= updates_run (events_of (Tick K E) s))%nat
  /\ (stable E (@frame_view World) ->
      catching_up s = true ->
      (updates_run (events_of (Tick K E) s) <= 10)%nat).
Proof.
  unfold updates_run, ticks_completed.
  rewrite (Tick_count _ s frame_call_no_enter), (Tick_count _ s frame_call_no_advance).
  split; [apply update_loop_completed_bound|].
  intros Hv Hcu.
  pose proof (keeps_exec s (Tick_begin_keeps_view Hv)) as Hview.
  fold (Tick_entry E s) in Hview.
  assert (He : catching_up (Tick_entry E s) = true)
    by now rewrite (view_catching_up _ _ Hview).
  assert (Hn : numUpdates_of (Tick_entry E s) <= 10).
  { unfold numUpdates_of. rewrite He. apply clamp_upper. }
  pose proof (update_loop_updates_bound (Z.to_nat (snd (Tick_plan E s)))
                (Tick_loop_start E s)) as Hb.
  unfold updates_run in Hb.
  assert (Hplan : snd (Tick_plan E s) <= 10).
  { unfold Tick_plan.
    destruct (Tick_pause_updates (numUpdates_of (Tick_entry E s)) (Tick_entry E s))
      as [H | [H | H]]; rewrite H; lia. }
  lia.
Qed.

(** X5.  A connected and authenticated client that has reached the
    server's tick and is not paused runs no update in a call of [Tick];
    unlike a paused call, it neither drains the action queue nor
    processes the pending network messages, and the tick counter stays. *)
Theorem Tick_client_caught_up (s : State World) :
  quiet E ->
  catching_up s = true ->
  gGamePaused s = false ->
  network_get_server_tick s = gCurrentTicks s ->
  updates_run (events_of (Tick K E) s) = 0%nat
  /\ count (calls is_GameActions_ProcessQueue) (events_of (Tick K E) s) = 0%nat
  /\ count (calls is_network_process_pending) (events_of (Tick K E) s) = 0%nat
  /\ gCurrentTicks (exec (Tick K E) s) = gCurrentTicks s.
Proof.
  intros Hq Hcu Hrun Hat. pose proof Hq as [Hv Ht].
  assert (Hp : isPaused_of s = false).
  { unfold isPaused_of. rewrite (catching_up_client _ Hcu). exact Hrun. }
  assert (Hn : numUpdates_of s = 0).
  { unfold numUpdates_of. rewrite Hcu, Hat, Z.sub_diag. reflexivity. }
  destruct (Tick_running s Hq Hp) as [Hplan Hstart].
  assert (He : isPaused_of (Tick_entry E s) = false)
    by now rewrite (view_isPaused _ _ (Tick_entry_view s Hq)).
  destruct (Tick_pause_running (numUpdates_of (Tick_entry E s)) _ He) as (_ & _ & Hev).
  unfold updates_run. rewrite (Tick_count _ s frame_call_no_enter).
  rewrite Tick_exec, Tick_events. unfold Tick_loop_end.
  rewrite Hplan, Hn, Hev, Hstart. cbn [fst snd Z.to_nat update_loop app].
  change (events_of (ret tt) (Tick_entry E s)) with (@nil Event).
  change (exec (ret tt) (Tick_entry E s)) with (Tick_entry E s).
  cbn [app]. rewrite !count_app.
  count_calls is_GameActions_ProcessQueue (Tick_begin E) 0%nat.
  count_calls is_network_process_pending (Tick_begin E) 0%nat.
  count_calls is_GameActions_ProcessQueue (Tick_finish K E false) 0%nat.
  count_calls is_network_process_pending (Tick_finish K E false) 0%nat.
  repeat split.
  rewrite (keeps_exec _ (Tick_finish_keeps_ticks _ Ht)). now apply Tick_entry_ticks.
Qed.

(** X6.  A single step requested during a network session is not taken:
    a paused call of [Tick] on a server or a client runs no update even
    with the request pending, leaves the tick counter and the pause as
    they were, and drops the request. *)
Theorem Tick_network_single_step (s : State World) :
  quiet E ->
  isPaused_of s = true ->
  gDoSingleUpdate s = true ->
  network_get_mode s <> NETWORK_MODE_NONE ->
  updates_run (events_of (Tick K E) s) = 0%nat
  /\ gCurrentTicks (exec (Tick K E) s) = gCurrentTicks s
  /\ gGamePaused (exec (Tick K E) s) = gGamePaused s
  /\ gDoSingleUpdate (exec (Tick K E) s) = false.
Proof.
  intros Hq Hpaused Hsingle Hmode. pose proof Hq as [Hv Ht].
  pose proof (Tick_entry_view s Hq) as Hview.
  assert (Hp : isPaused_of (Tick_entry E s) = true)
    by now rewrite (view_isPaused _ _ Hview).
  assert (Hno : gDoSingleUpdate (Tick_entry E s)
                && NetworkMode_eqb (network_get_mode (Tick_entry E s)) NETWORK_MODE_NONE
                = false).
  { rewrite (view_mode _ _ Hview). destruct (network_get_mode s);
      [contradiction | apply andb_false_r | apply andb_false_r]. }
  pose proof (Tick_pause_no_step (numUpdates_of (Tick_entry E s)) _ Hp Hno) as Hplan.
  fold (Tick_plan E s) in Hplan.
  unfold updates_run. rewrite (Tick_count _ s frame_call_no_enter).
  rewrite Tick_exec. unfold Tick_loop_end. rewrite Hplan.
  cbn [fst snd Z.to_nat update_loop].
  change (exec (ret tt) (Tick_loop_start E s)) with (Tick_loop_start E s).
  split; [reflexivity|]. split; [|split].
  - rewrite (keeps_exec _ (Tick_finish_keeps_ticks _ Ht)). unfold Tick_loop_start.
    rewrite (keeps_exec _ (Tick_pause_keeps_ticks _ Ht)). now apply Tick_entry_ticks.
  - rewrite (keeps_exec _ (Tick_finish_keeps_paused (stable_gGamePaused Hv))).
    unfold Tick_loop_start.
    rewrite (Tick_pause_keeps_paused _ _ (stable_gGamePaused Hv) Hno).
    unfold frame_view in Hview. congruence.
  - apply Tick_finish_clears_single.
Qed.

(** *** The network role in the loop *)

Lemma UpdateLogic_keeps_mode :
  stable E (@network_get_mode World) -> keeps (@network_get_mode World) (UpdateLogic K E).
Proof. intros H. unfold_pieces. repeat keeps_step. Qed.

Lemma UpdateLogic_send_tick s :
  stable E (@network_get_mode World) ->
  count (calls is_network_send_tick) (events_of (UpdateLogic K E) s)
  = if NetworkMode_eqb (network_get_mode s) NETWORK_MODE_SERVER then 1%nat else 0%nat.
Proof.
  intros Hm. rewrite UpdateLogic_events, count_app.
  replace (count (calls is_network_send_tick)
             (if result (UpdateLogic_network K E) s
              then events_of (UpdateLogic_pipeline K E) (exec (UpdateLogic_network K E) s)
              else []))
    with 0%nat.
  2:{ destruct (result _ s); [|reflexivity]. symmetry. count_events. }
  rewrite Nat.add_0_r.
  unfold_pieces. run_all; through (@network_get_mode World) Hm;
    destruct (network_get_mode s); cbn [NetworkMode_eqb] in *;
    first [ discriminate | reflexivity ].
Qed.

Lemma Tick_pause_send_tick n s :
  count (calls is_network_send_tick) (events_of (Tick_pause E n) s)
  = if isPaused_of s && NetworkMode_eqb (network_get_mode s) NETWORK_MODE_SERVER
    then 1%nat else 0%nat.
Proof.
  unfold_pieces. run. destruct (isPaused_of s); run; [|reflexivity].
  destruct (gDoSingleUpdate s); destruct (network_get_mode s) eqn:Hmode;
    cbn [andb NetworkMode_eqb]; run; rewrite ?Hmode; reflexivity.
Qed.

Lemma update_loop_send_tick n s :
  stable E (@network_get_mode World) ->
  count (calls is_network_send_tick) (events_of (update_loop K E n) s)
  = if NetworkMode_eqb (network_get_mode s) NETWORK_MODE_SERVER
    then updates_run (events_of (update_loop K E n) s) else 0%nat.
Proof.
  intros Hm.
  assert (HU : forall m (s0 : State World), network_get_mode s0 = m ->
                 network_get_mode (exec (UpdateLogic K E) s0) = m)
    by (intros m s0 <-; apply (keeps_exec s0 (UpdateLogic_keeps_mode Hm))).
  assert (HC : forall m (s0 : State World), network_get_mode s0 = m ->
                 network_get_mode (exec (update_loop_check K) s0) = m).
  { intros m s0 <-.
    apply (keeps_exec s0 (update_loop_check_keeps _ (@network_get_mode World)
                            (fun _ _ => eq_refl))). }
  destruct (network_get_mode s) eqn:Hmode; cbn [NetworkMode_eqb].
  - apply (update_loop_count_zero (fun s0 => network_get_mode s0 = NETWORK_MODE_NONE));
      auto.
    intros s0 H0. now rewrite UpdateLogic_send_tick, H0.
  - apply (update_loop_count_zero (fun s0 => network_get_mode s0 = NETWORK_MODE_CLIENT));
      auto.
    intros s0 H0. now rewrite UpdateLogic_send_tick, H0.
  - apply (update_loop_count_eq (fun s0 => network_get_mode s0 = NETWORK_MODE_SERVER));
      auto.
    intros s0 H0. rewrite UpdateLogic_send_tick, H0 by exact Hm.
    symmetry. apply UpdateLogic_updates_run.
Qed.

(** X7.  The server makes its tick known in every frame: a call of
    [Tick] on a server announces the tick once when it is paused and
    once in every update when it runs, so at least once up to speed
    level 32; a client and a single player game never announce a tick. *)
Theorem Tick_announces_tick (s : State World) :
  quiet E ->
  count (calls is_network_send_tick) (events_of (Tick K E) s)
  = (if NetworkMode_eqb (network_get_mode s) NETWORK_MODE_SERVER
     then if isPaused_of s then 1%nat else updates_run (events_of (Tick K E) s)
     else 0%nat)
  /\ (network_get_mode s = NETWORK_MODE_SERVER ->
      gGameSpeed s <= 32 ->
      (1 <= count (calls is_network_send_tick) (events_of (Tick K E) s))%nat).
Proof.
  intros Hq. pose proof Hq as [Hv Ht].
  destruct (ambient_fields (stable_ambient Hv)) as (_ & Hm & _).
  pose proof (Tick_entry_view s Hq) as Hview.
  pose proof (view_mode _ _ Hview) as Hmode.
  pose proof (view_isPaused _ _ Hview) as Hpaused.
  assert (Hstart : network_get_mode (Tick_loop_start E s) = network_get_mode s).
  { pose proof (keeps_exec (Tick_entry E s)
                  (Tick_pause_keeps_ambient (numUpdates_of (Tick_entry E s))
                     (stable_ambient Hv))) as H1.
    fold (Tick_loop_start E s) in H1. unfold ambient_view in H1. congruence. }
  assert (Hcount :
    count (calls is_network_send_tick) (events_of (Tick K E) s)
    = if NetworkMode_eqb (network_get_mode s) NETWORK_MODE_SERVER
      then if isPaused_of s then 1%nat else updates_run (events_of (Tick K E) s)
      else 0%nat).
  { unfold updates_run. rewrite (Tick_count _ s frame_call_no_enter).
    rewrite Tick_events, !count_app.
    count_calls is_network_send_tick (Tick_begin E) 0%nat.
    count_calls is_network_send_tick (Tick_finish K E (fst (Tick_plan E s))) 0%nat.
    rewrite Tick_pause_send_tick, update_loop_send_tick by exact Hm.
    rewrite Hstart, Hmode, Hpaused.
    destruct (NetworkMode_eqb (network_get_mode s) NETWORK_MODE_SERVER) eqn:Hserver;
      [|now rewrite andb_false_r].
    rewrite andb_true_r. destruct (isPaused_of s) eqn:Hp; [|unfold updates_run; lia].
    assert (Hno : gDoSingleUpdate (Tick_entry E s)
                  && NetworkMode_eqb (network_get_mode (Tick_entry E s)) NETWORK_MODE_NONE
                  = false).
    { rewrite Hmode. destruct (network_get_mode s);
        [discriminate Hserver | apply andb_false_r | apply andb_false_r]. }
    assert (Hp' : isPaused_of (Tick_entry E s) = true) by congruence.
    pose proof (Tick_pause_no_step (numUpdates_of (Tick_entry E s)) _ Hp' Hno) as Hplan.
    fold (Tick_plan E s) in Hplan. rewrite Hplan. reflexivity. }
  split; [exact Hcount|].
  intros Hserver Hspeed. rewrite Hcount, Hserver. cbn [NetworkMode_eqb].
  destruct (isPaused_of s) eqn:Hp; [apply Nat.le_refl|].
  destruct (Tick_running s Hq Hp) as [Hplan _].
  unfold updates_run. rewrite (Tick_count _ s frame_call_no_enter), Hplan. cbn [snd].
  assert (Hn : 1 <= numUpdates_of s).
  { unfold numUpdates_of, catching_up. rewrite Hserver. cbn [NetworkMode_eqb andb].
    destruct (Z.ltb_spec 1 (gGameSpeed s)); [|lia].
    rewrite shift_speed by lia.
    assert (0 < 2 ^ (gGameSpeed s - 1)) by (apply Z.pow_pos_nonneg; lia). lia. }
  destruct (Z.to_nat (numUpdates_of s)) as [|k] eqn:Hk; [lia|].
  apply update_loop_updates_first.
Qed.

(** *** Only a client returns early *)

Lemma update_loop_completes n s :
  quiet E ->
  network_get_mode s <> NETWORK_MODE_CLIENT ->
  ticks_completed (events_of (update_loop K E n) s)
  = updates_run (events_of (update_loop K E n) s).
Proof.
  intros Hq Hmode. pose proof Hq as [Hv _].
  destruct (ambient_fields (stable_ambient Hv)) as (_ & Hm & _).
  apply (update_loop_count_eq (fun s0 => network_get_mode s0 <> NETWORK_MODE_CLIENT));
    auto.
  - intros s0 H0. now rewrite (keeps_exec s0 (UpdateLogic_keeps_mode Hm)).
  - intros s0 H0.
    now rewrite (keeps_exec s0 (update_loop_check_keeps _ (@network_get_mode World)
                                  (fun _ _ => eq_refl))).
  - intros s0 H0.
    fold (ticks_completed (events_of (UpdateLogic K E) s0)).
    fold (updates_run (events_of (UpdateLogic K E) s0)).
    rewrite UpdateLogic_ticks_completed, UpdateLogic_updates_run,
      UpdateLogic_network_result by exact Hq.
    unfold at_server_tick. destruct (network_get_mode s0); try reflexivity.
    contradiction.
Qed.

(** X8.  Outside a client, every update that a call of [Tick] runs goes
    through the whole pipeline: the frame completes as many ticks as it
    runs updates, and the tick counter moves by that number. *)
Theorem Tick_completes_every_update (s : State World) :
  quiet E ->
  network_get_mode s <> NETWORK_MODE_CLIENT ->
  0 <= gCurrentTicks s < 2 ^ 32 ->
  ticks_completed (events_of (Tick K E) s) = updates_run (events_of (Tick K E) s)
  /\ gCurrentTicks (exec (Tick K E) s)
     = wrap32 (gCurrentTicks s + Z.of_nat (updates_run (events_of (Tick K E) s))).
Proof.
  intros Hq Hmode Hrange. pose proof Hq as [Hv Ht].
  assert (Heq : ticks_completed (events_of (Tick K E) s)
                = updates_run (events_of (Tick K E) s)).
  { unfold updates_run, ticks_completed.
    rewrite (Tick_count _ s frame_call_no_enter), (Tick_count _ s frame_call_no_advance).
    apply update_loop_completes; [exact Hq|].
    pose proof (keeps_exec (Tick_entry E s)
                  (Tick_pause_keeps_ambient (numUpdates_of (Tick_entry E s))
                     (stable_ambient Hv))) as H1.
    fold (Tick_loop_start E s) in H1.
    pose proof (view_mode _ _ (Tick_entry_view s Hq)) as H2.
    unfold ambient_view in H1. congruence. }
  split; [exact Heq|]. rewrite <- Heq. now apply Tick_ticks.
Qed.

(** *** The counters beside the tick counter *)

Lemma wrap_small w z : 0 <= z < 2 ^ w -> wrap w z = z.
Proof. intros H. unfold wrap. now apply Z.mod_small. Qed.

Lemma wrap_range w z : 0 <= w -> 0 <= wrap w z < 2 ^ w.
Proof.
  intros Hw. unfold wrap. apply Z.mod_pos_bound. apply Z.pow_pos_nonneg; lia.
Qed.

(** Reducing modulo [2 ^ 32] first does not change a value modulo
    [2 ^ w], for [w] up to 32. *)
Lemma wrap_wrap32 w z : 0 <= w <= 32 -> wrap w (wrap32 z) = wrap w z.
Proof.
  intros Hw. unfold wrap, wrap32. apply Z.mod_mod_divide.
  exists (2 ^ (32 - w)). rewrite <- Z.pow_add_r by lia. f_equal. lia.
Qed.

(** A counter of [w] bits that every completed tick increments. *)
Lemma update_loop_counter (f : State World -> Z) (w : Z) :
  0 <= w ->
  keeps f (update_loop_check (World:=World) K) ->
  (forall s, f (exec (UpdateLogic K E) s)
             = if result (UpdateLogic_network K E) s then wrap w (f s + 1) else f s) ->
  forall n s, 0 <= f s < 2 ^ w ->
    f (exec (update_loop K E n) s)
    = wrap w (f s + Z.of_nat (ticks_completed (events_of (update_loop K E n) s))).
Proof.
  intros Hw HC HU. induction n as [|n IH]; intros s Hs.
  - cbn. rewrite Z.add_0_r. symmetry. now apply wrap_small.
  - set (s1 := exec (UpdateLogic K E) s).
    assert (H1 : f s1 = wrap w (f s + Z.of_nat (ticks_completed
                                                 (events_of (UpdateLogic K E) s)))).
    { unfold s1. rewrite HU, UpdateLogic_ticks_completed.
      destruct (result _ s); cbn [Z.of_nat]; [reflexivity|].
      rewrite Z.add_0_r. symmetry. now apply wrap_small. }
    rewrite update_loop_S_events, update_loop_S_exec. fold s1.
    unfold ticks_completed in *. rewrite count_app.
    destruct (result (update_loop_check K) s1) eqn:Hleave.
    + rewrite (keeps_exec s1 HC), H1.
      cbn [count filter is_Loop_break is_Advance_gCurrentTicks length].
      now rewrite Nat.add_0_r.
    + rewrite (update_loop_check_stay _ Hleave).
      rewrite IH by (rewrite H1; now apply wrap_range).
      rewrite H1. unfold wrap. rewrite Zplus_mod_idemp_l. f_equal. lia.
Qed.

Lemma UpdateLogic_saved_age s :
  stable E (@gSavedAge World) ->
  gSavedAge (exec (UpdateLogic K E) s)
  = if result (UpdateLogic_network K E) s
    then wrap (SAVED_AGE_BITS K) (gSavedAge s + 1) else gSavedAge s.
Proof.
  intros Ha. rewrite UpdateLogic_exec.
  assert (Hn : keeps (@gSavedAge World) (UpdateLogic_network K E))
    by (unfold_pieces; repeat keeps_step).
  destruct (result _ s); [|apply (keeps_exec s Hn)].
  rewrite <- (keeps_exec s Hn).
  generalize (exec (UpdateLogic_network K E) s). intros s1.
  unfold_pieces. run_all; through (@gSavedAge World) Ha;
    cbn [gSavedAge set_gSavedAge assign]; through (@gSavedAge World) Ha; reflexivity.
Qed.

Lemma Tick_around_keeps (X : Type) (f : State World -> X) :
  stable E f ->
  (forall v s, f (set_gInUpdateCode v s) = f s) ->
  (forall v s, f (set_gGamePaused v s) = f s) ->
  (forall v s, f (set_gDoSingleUpdate v s) = f s) ->
  (forall v s, f (set_gInputFlags v s) = f s) ->
  (forall s, f (update_map_flashing K s) = f s) ->
  keeps f (Tick_begin E)
  /\ (forall n, keeps f (Tick_pause E n))
  /\ (forall d, keeps f (Tick_finish K E d)).
Proof.
  intros H H1 H2 H3 H4 H5.
  repeat split; intros; unfold_pieces;
    repeat first [ keeps_step
                 | apply keeps_modify; intro;
                   first [ apply H1 | apply H2 | apply H3 | apply H4 | apply H5 ] ].
Qed.

(** [Tick] moves [f] as its loop does, when nothing around the loop
    touches [f]. *)
Lemma Tick_exec_loop (X : Type) (f : State World -> X) s :
  keeps f (Tick_begin E) ->
  (forall n, keeps f (Tick_pause E n)) ->
  (forall d, keeps f (Tick_finish K E d)) ->
  f (Tick_loop_start E s) = f s
  /\ f (exec (Tick K E) s) = f (Tick_loop_end K E s).
Proof.
  intros Hb Hp Hf. split.
  - unfold Tick_loop_start. rewrite (keeps_exec _ (Hp _)). apply (keeps_exec s Hb).
  - rewrite Tick_exec. apply (keeps_exec _ (Hf _)).
Qed.

(** X9.  The saved age of the park is a counter of the completed ticks
    in an unsigned integer of [SAVED_AGE_BITS] bits: a call of [Tick]
    adds to it the number of ticks it completes, modulo
    [2 ^ SAVED_AGE_BITS].  When that width is at most the 32 bits of the
    tick counter, the two counters keep their distance modulo
    [2 ^ SAVED_AGE_BITS]. *)
Theorem Tick_saved_age (s : State World) :
  stable E (@gSavedAge World) ->
  0 <= SAVED_AGE_BITS K ->
  0 <= gSavedAge s < 2 ^ SAVED_AGE_BITS K ->
  gSavedAge (exec (Tick K E) s)
  = wrap (SAVED_AGE_BITS K)
      (gSavedAge s + Z.of_nat (ticks_completed (events_of (Tick K E) s)))
  /\ (quiet E -> SAVED_AGE_BITS K <= 32 -> 0 <= gCurrentTicks s < 2 ^ 32 ->
      wrap (SAVED_AGE_BITS K)
        (gCurrentTicks (exec (Tick K E) s) - gSavedAge (exec (Tick K E) s))
      = wrap (SAVED_AGE_BITS K) (gCurrentTicks s - gSavedAge s)).
Proof.
  intros Ha Hw Hs.
  destruct (Tick_around_keeps _ (@gSavedAge World) Ha) as (Hb & Hp & Hf);
    try (intros; reflexivity).
  destruct (Tick_exec_loop _ (@gSavedAge World) s Hb Hp Hf) as [Hstart Hend].
  assert (Hage : gSavedAge (exec (Tick K E) s)
                 = wrap (SAVED_AGE_BITS K)
                     (gSavedAge s
                      + Z.of_nat (ticks_completed (events_of (Tick K E) s)))).
  { rewrite Hend. unfold Tick_loop_end, ticks_completed.
    rewrite (Tick_count _ s frame_call_no_advance).
    rewrite (update_loop_counter (@gSavedAge World) (SAVED_AGE_BITS K)).
    - now rewrite Hstart.
    - exact Hw.
    - apply update_loop_check_keeps. reflexivity.
    - intros s0. now apply UpdateLogic_saved_age.
    - now rewrite Hstart. }
  split; [exact Hage|]. intros Hq Hw32 Ht.
  rewrite Hage, (Tick_ticks s Hq Ht).
  set (k := Z.of_nat (ticks_completed (events_of (Tick K E) s))).
  assert (Hpos : 0 < 2 ^ SAVED_AGE_BITS K) by (apply Z.pow_pos_nonneg; lia).
  unfold wrap at 1. rewrite Zminus_mod.
  fold (wrap (SAVED_AGE_BITS K) (wrap32 (gCurrentTicks s + k))).
  rewrite wrap_wrap32 by lia.
  unfold wrap. rewrite Z.mod_mod by lia. rewrite <- Zminus_mod. f_equal. lia.
Qed.

(** [gScreenAge++; if (gScreenAge == 0) gScreenAge--;] on an unsigned
    integer stops at the largest value. *)
Lemma increment_gScreenAge_saturates (s : State World) :
  0 <= SCREEN_AGE_BITS K ->
  0 <= gScreenAge s < 2 ^ SCREEN_AGE_BITS K ->
  gScreenAge (increment_gScreenAge K s)
  = Z.min (gScreenAge s + 1) (2 ^ SCREEN_AGE_BITS K - 1).
Proof.
  intros Hb Hs. unfold increment_gScreenAge.
  cbn [gScreenAge set_gScreenAge assign]. unfold wrap.
  assert (Hpos : 0 < 2 ^ SCREEN_AGE_BITS K) by (apply Z.pow_pos_nonneg; lia).
  destruct (Z.eq_dec (gScreenAge s + 1) (2 ^ SCREEN_AGE_BITS K)) as [Htop | Hlow].
  - rewrite Htop, Z.mod_same by lia. cbn [Z.eqb Z.sub Z.add Z.opp Z.pos_sub].
    replace (-1) with (2 ^ SCREEN_AGE_BITS K - 1 + (-1) * 2 ^ SCREEN_AGE_BITS K) by lia.
    rewrite Z.mod_add by lia. rewrite Z.mod_small by lia. lia.
  - rewrite Z.mod_small by lia.
    destruct (Z.eqb_spec (gScreenAge s + 1) 0); lia.
Qed.

Lemma UpdateLogic_screen_age s :
  stable E (@gScreenAge World) ->
  gScreenAge (exec (UpdateLogic K E) s) = gScreenAge (increment_gScreenAge K s).
Proof.
  intros Ha. rewrite UpdateLogic_exec.
  assert (Hn : gScreenAge (exec (UpdateLogic_network K E) s)
               = gScreenAge (increment_gScreenAge K s)).
  { unfold_pieces. run_all; through (@gScreenAge World) Ha; reflexivity. }
  assert (Hp : keeps (@gScreenAge World) (UpdateLogic_pipeline K E))
    by (unfold_pieces; repeat keeps_step).
  destruct (result _ s); [|exact Hn].
  now rewrite (keeps_exec _ Hp).
Qed.

Lemma update_loop_screen_age n :
  stable E (@gScreenAge World) ->
  0 <= SCREEN_AGE_BITS K ->
  forall s, 0 <= gScreenAge s < 2 ^ SCREEN_AGE_BITS K ->
    gScreenAge (exec (update_loop K E n) s)
    = saturating_age (SCREEN_AGE_BITS K) (gScreenAge s)
        (updates_run (events_of (update_loop K E n) s)).
Proof.
  intros Ha Hb. unfold saturating_age.
  assert (HC : keeps (@gScreenAge World) (update_loop_check (World:=World) K))
    by (apply update_loop_check_keeps; reflexivity).
  induction n as [|n IH]; intros s Hs.
  - cbn. lia.
  - set (s1 := exec (UpdateLogic K E) s).
    assert (H1 : gScreenAge s1 = Z.min (gScreenAge s + 1) (2 ^ SCREEN_AGE_BITS K - 1)).
    { unfold s1. rewrite UpdateLogic_screen_age by exact Ha.
      now apply increment_gScreenAge_saturates. }
    rewrite update_loop_S_events, update_loop_S_exec. fold s1.
    unfold updates_run in *. rewrite count_app.
    fold (updates_run (events_of (UpdateLogic K E) s)). rewrite UpdateLogic_updates_run.
    destruct (result (update_loop_check K) s1) eqn:Hleave.
    + rewrite (keeps_exec s1 HC), H1. cbn. lia.
    + rewrite (update_loop_check_stay _ Hleave).
      rewrite IH by lia. rewrite H1. lia.
Qed.

(** X10.  The screen age counts the updates of a call of [Tick], those
    from which a client returns early included, and stops at the largest
    value of its type instead of wrapping around to 0. *)
Theorem Tick_screen_age (s : State World) :
  stable E (@gScreenAge World) ->
  0 <= SCREEN_AGE_BITS K ->
  0 <= gScreenAge s < 2 ^ SCREEN_AGE_BITS K ->
  gScreenAge (exec (Tick K E) s)
  = saturating_age (SCREEN_AGE_BITS K) (gScreenAge s)
      (updates_run (events_of (Tick K E) s))
  /\ gScreenAge s <= gScreenAge (exec (Tick K E) s) < 2 ^ SCREEN_AGE_BITS K.
Proof.
  intros Ha Hb Hs.
  destruct (Tick_around_keeps _ (@gScreenAge World) Ha) as (Hbegin & Hp & Hf);
    try (intros; reflexivity).
  destruct (Tick_exec_loop _ (@gScreenAge World) s Hbegin Hp Hf) as [Hstart Hend].
  assert (Hage : gScreenAge (exec (Tick K E) s)
                 = saturating_age (SCREEN_AGE_BITS K) (gScreenAge s)
                     (updates_run (events_of (Tick K E) s))).
  { rewrite Hend. unfold Tick_loop_end, updates_run.
    rewrite (Tick_count _ s frame_call_no_enter).
    fold (updates_run (events_of (update_loop K E (Z.to_nat (snd (Tick_plan E s))))
                         (Tick_loop_start E s))).
    rewrite update_loop_screen_age by (assumption || now rewrite Hstart).
    now rewrite Hstart. }
  split; [exact Hage|]. rewrite Hage. unfold saturating_age. lia.
Qed.

(** *** The calls that depend on the screen and on the window *)

(** Nothing in an update is a call that satisfies [p]. *)
Ltac no_such_call p :=
  intros; rewrite UpdateLogic_events, count_app;
  count_calls p (UpdateLogic_network K E) 0%nat;
  match goal with
  | |- context [if ?r then _ else _] => destruct r; [|reflexivity]
  end;
  count_calls p (UpdateLogic_pipeline K E) 0%nat;
  reflexivity.

Lemma update_loop_no_call p n s :
  (forall s0, count (calls p) (events_of (UpdateLogic K E) s0) = 0%nat) ->
  count (calls p) (events_of (update_loop K E n) s) = 0%nat.
Proof.
  intros H. now apply (update_loop_count_zero (fun _ => True)).
Qed.

Lemma UpdateLogic_keeps (X : Type) (f : State World -> X) :
  stable E f ->
  (forall s, f (increment_gScreenAge K s) = f s) ->
  (forall v s, f (set__date v s) = f s) ->
  (forall v s, f (set_gLastAutoSaveUpdate v s) = f s) ->
  (forall v s, f (set_gCurrentTicks v s) = f s) ->
  (forall v s, f (set_gSavedAge v s) = f s) ->
  keeps f (UpdateLogic K E).
Proof.
  intros H H1 H2 H3 H4 H5. unfold_pieces.
  repeat first [ keeps_step
               | apply keeps_modify; intro;
                 first [ apply H1 | apply H2 | apply H3 | apply H4 | apply H5 ] ].
Qed.

Lemma update_loop_keeps (X : Type) (f : State World -> X) n :
  stable E f ->
  (forall s, f (increment_gScreenAge K s) = f s) ->
  (forall v s, f (set__date v s) = f s) ->
  (forall v s, f (set_gLastAutoSaveUpdate v s) = f s) ->
  (forall v s, f (set_gCurrentTicks v s) = f s) ->
  (forall v s, f (set_gSavedAge v s) = f s) ->
  (forall v s, f (set_gInputFlags v s) = f s) ->
  keeps f (update_loop K E n).
Proof.
  intros H H1 H2 H3 H4 H5 H6.
  induction n as [|n IH]; cbn [update_loop]; [apply keeps_ret|].
  apply keeps_bind; [now apply UpdateLogic_keeps | intros _].
  apply keeps_bind; [now apply update_loop_check_keeps | intros [|]].
  - apply keeps_mark.
  - exact IH.
Qed.

Lemma Tick_before_keeps (X : Type) (f : State World -> X) :
  stable E f ->
  (forall v s, f (set_gInUpdateCode v s) = f s) ->
  (forall v s, f (set_gGamePaused v s) = f s) ->
  keeps f (Tick_begin E) /\ (forall n, keeps f (Tick_pause E n)).
Proof.
  intros H H1 H2.
  split; intros; unfold_pieces;
    repeat first [ keeps_step
                 | apply keeps_modify; intro; first [ apply H1 | apply H2 ] ].
Qed.

(** The state in which the loop of [Tick] ends reads as the state at
    the call, for what neither the collaborators nor [GameState.cpp]
    write before the end of the loop. *)
Lemma Tick_loop_end_keeps (X : Type) (f : State World -> X) s :
  stable E f ->
  (forall s, f (increment_gScreenAge K s) = f s) ->
  (forall v s, f (set__date v s) = f s) ->
  (forall v s, f (set_gLastAutoSaveUpdate v s) = f s) ->
  (forall v s, f (set_gCurrentTicks v s) = f s) ->
  (forall v s, f (set_gSavedAge v s) = f s) ->
  (forall v s, f (set_gInputFlags v s) = f s) ->
  (forall v s, f (set_gInUpdateCode v s) = f s) ->
  (forall v s, f (set_gGamePaused v s) = f s) ->
  f (Tick_loop_start E s) = f s /\ f (Tick_loop_end K E s) = f s.
Proof.
  intros H H1 H3 H4 H5 H6 H7 H8 H9.
  destruct (Tick_before_keeps _ f H H8 H9) as (Hb & Hp).
  assert (Hstart : f (Tick_loop_start E s) = f s).
  { unfold Tick_loop_start. rewrite (keeps_exec _ (Hp _)). apply (keeps_exec s Hb). }
  split; [exact Hstart|]. unfold Tick_loop_end.
  rewrite (keeps_exec _ (update_loop_keeps _ f _ H H1 H3 H4 H5 H6 H7)). exact Hstart.
Qed.

Ltac field_kept := intros; reflexivity.

Lemma Tick_finish_autosave_check d s :
  stable E (@gScreenFlags World) ->
  count (calls is_ScenarioAutosaveCheck) (events_of (Tick_finish K E d) s)
  = if test_mask (gScreenFlags s) (SCREEN_FLAGS_TITLE_DEMO K)
       || test_mask (gScreenFlags s) (SCREEN_FLAGS_TRACK_DESIGNER K)
       || test_mask (gScreenFlags s) (SCREEN_FLAGS_TRACK_MANAGER K)
    then 0%nat else 1%nat.
Proof.
  intros Hf.
  match goal with |- _ = ?r => set (rhs := r) end.
  unfold_pieces. run_all; through (@gScreenFlags World) Hf; unfold rhs;
    destruct (test_mask (gScreenFlags s) (SCREEN_FLAGS_TITLE_DEMO K));
    destruct (test_mask (gScreenFlags s) (SCREEN_FLAGS_TRACK_DESIGNER K));
    destruct (test_mask (gScreenFlags s) (SCREEN_FLAGS_TRACK_MANAGER K));
    cbn [negb andb orb] in *; first [ discriminate | reflexivity ].
Qed.

(** X12.  The autosave check is made once in every call of [Tick],
    paused or not and whatever the number of updates, unless the title
    demo, the track designer or the track manager is on the screen, and
    then it is not made at all. *)
Theorem Tick_autosave_check (s : State World) :
  stable E (@gScreenFlags World) ->
  count (calls is_ScenarioAutosaveCheck) (events_of (Tick K E) s)
  = if test_mask (gScreenFlags s) (SCREEN_FLAGS_TITLE_DEMO K)
       || test_mask (gScreenFlags s) (SCREEN_FLAGS_TRACK_DESIGNER K)
       || test_mask (gScreenFlags s) (SCREEN_FLAGS_TRACK_MANAGER K)
    then 0%nat else 1%nat.
Proof.
  intros Hf.
  destruct (Tick_loop_end_keeps _ (@gScreenFlags World) s Hf) as [_ Hend];
    try field_kept.
  rewrite Tick_events, !count_app.
  count_calls is_ScenarioAutosaveCheck (Tick_begin E) 0%nat.
  count_calls is_ScenarioAutosaveCheck
    (Tick_pause E (numUpdates_of (Tick_entry E s))) 0%nat.
  rewrite update_loop_no_call by no_such_call is_ScenarioAutosaveCheck.
  rewrite Tick_finish_autosave_check by exact Hf.
  now rewrite Hend.
Qed.

Lemma Tick_finish_window d s :
  stable E (@gOpenRCT2Headless World) ->
  count (calls is_ContextHandleInput) (events_of (Tick_finish K E d) s)
  = (if gOpenRCT2Headless s then 0%nat else 1%nat)
  /\ count (calls is_ContextUpdateMapTooltip) (events_of (Tick_finish K E d) s)
     = (if gOpenRCT2Headless s then 0%nat else 1%nat).
Proof.
  intros Hh.
  split; unfold_pieces; run_all; through (@gOpenRCT2Headless World) Hh;
    destruct (gOpenRCT2Headless s); cbn [negb] in *;
    first [ discriminate | reflexivity ].
Qed.

Lemma Tick_finish_headless d s :
  stable E (@gWindowMapFlashingFlags World) ->
  stable E (@gOpenRCT2Headless World) ->
  gOpenRCT2Headless s = true ->
  gWindowMapFlashingFlags (exec (Tick_finish K E d) s) = gWindowMapFlashingFlags s.
Proof.
  intros Hw Hh Hs.
  unfold_pieces. run_all; through (@gOpenRCT2Headless World) Hh;
    through (@gWindowMapFlashingFlags World) Hw;
    first [ reflexivity
          | match goal with
            | H : negb (gOpenRCT2Headless s) = true |- _ =>
                rewrite Hs in H; discriminate H
            end ].
Qed.

(** X13.  With a window, every call of [Tick] updates the map tooltip
    and handles the input exactly once, after its loop, however many
    updates it ran; a headless instance does neither, and leaves the
    flashing flags of the map alone. *)
Theorem Tick_window_calls (s : State World) :
  stable E (@gOpenRCT2Headless World) ->
  count (calls is_ContextUpdateMapTooltip) (events_of (Tick K E) s)
  = (if gOpenRCT2Headless s then 0%nat else 1%nat)
  /\ count (calls is_ContextHandleInput) (events_of (Tick K E) s)
     = (if gOpenRCT2Headless s then 0%nat else 1%nat)
  /\ (stable E (@gWindowMapFlashingFlags World) ->
      gOpenRCT2Headless s = true ->
      gWindowMapFlashingFlags (exec (Tick K E) s) = gWindowMapFlashingFlags s).
Proof.
  intros Hh.
  destruct (Tick_loop_end_keeps _ (@gOpenRCT2Headless World) s Hh) as [_ Hend];
    try field_kept.
  destruct (Tick_finish_window (fst (Tick_plan E s)) (Tick_loop_end K E s) Hh)
    as [Hinput Htip].
  rewrite Hend in Hinput, Htip.
  split; [|split].
  - rewrite Tick_events, !count_app, Htip.
    count_calls is_ContextUpdateMapTooltip (Tick_begin E) 0%nat.
    count_calls is_ContextUpdateMapTooltip
      (Tick_pause E (numUpdates_of (Tick_entry E s))) 0%nat.
    rewrite update_loop_no_call by no_such_call is_ContextUpdateMapTooltip.
    reflexivity.
  - rewrite Tick_events, !count_app, Hinput.
    count_calls is_ContextHandleInput (Tick_begin E) 0%nat.
    count_calls is_ContextHandleInput
      (Tick_pause E (numUpdates_of (Tick_entry E s))) 0%nat.
    rewrite update_loop_no_call by no_such_call is_ContextHandleInput.
    reflexivity.
  - intros Hw Hs.
    destruct (Tick_loop_end_keeps _ (@gWindowMapFlashingFlags World) s Hw)
      as [_ Hflags]; try field_kept.
    rewrite Tick_exec, Tick_finish_headless by (assumption || now rewrite Hend).
    exact Hflags.
Qed.

(** *** The park and the editor *)

Lemma UpdateLogic_subsystems_park s :
  stable E (@gScreenFlags World) ->
  count (calls is_Park_Update) (events_of (UpdateLogic_subsystems K E) s)
  = if test_mask (gScreenFlags s) (SCREEN_FLAGS_EDITOR K) then 0%nat else 1%nat.
Proof.
  intros Hf. match goal with |- _ = ?r => set (rhs := r) end.
  unfold_pieces. run_all; through (@gScreenFlags World) Hf; unfold rhs;
    destruct (test_mask (gScreenFlags s) (SCREEN_FLAGS_EDITOR K));
    cbn [negb] in *; first [ discriminate | reflexivity ].
Qed.

Lemma UpdateLogic_park s :
  stable E (@gScreenFlags World) ->
  count (calls is_Park_Update) (events_of (UpdateLogic K E) s)
  = if test_mask (gScreenFlags s) (SCREEN_FLAGS_EDITOR K)
    then 0%nat else ticks_completed (events_of (UpdateLogic K E) s).
Proof.
  intros Hf. rewrite UpdateLogic_ticks_completed, UpdateLogic_events, count_app.
  count_calls is_Park_Update (UpdateLogic_network K E) 0%nat.
  assert (Hn : keeps (@gScreenFlags World) (UpdateLogic_network K E))
    by (unfold_pieces; repeat keeps_step).
  destruct (result _ s); [|now destruct (test_mask _ _)].
  rewrite UpdateLogic_pipeline_events, !count_app, UpdateLogic_date_events.
  rewrite UpdateLogic_subsystems_park by exact Hf.
  count_calls is_Park_Update
    (UpdateLogic_finish K E
       (result (UpdateLogic_date E) (exec (UpdateLogic_network K E) s))) 0%nat.
  assert (Hd : keeps (@gScreenFlags World) (UpdateLogic_date E))
    by (unfold_pieces; repeat keeps_step).
  rewrite (keeps_exec _ Hd), (keeps_exec _ Hn).
  destruct (test_mask _ _); reflexivity.
Qed.

Lemma UpdateLogic_park_date s d :
  stable E (@_date World) ->
  In (Ext (Park_Update d)) (events_of (UpdateLogic_pipeline K E) s) ->
  d = mkDate (wrap32 (gDateMonthsElapsed (ext E DateUpdate s)))
        (gDateMonthTicks (ext E DateUpdate s)).
Proof.
  intros Hd. unfold_pieces. run_all; through (@_date World) Hd;
    cbn [_date set__date assign app In]; intros Hin;
    repeat (destruct Hin as [Hin | Hin]; try discriminate Hin);
    try contradiction; now injection Hin as <-.
Qed.

(** X14.  The park is updated once in every completed tick and in
    nothing else that a call of [Tick] does, and not at all while the
    scenario editor is on the screen; the date it is given is the one
    that the date step of the same tick has just computed. *)
Theorem Tick_park_update (s : State World) :
  stable E (@gScreenFlags World) ->
  count (calls is_Park_Update) (events_of (Tick K E) s)
  = (if test_mask (gScreenFlags s) (SCREEN_FLAGS_EDITOR K)
     then 0%nat else ticks_completed (events_of (Tick K E) s))
  /\ (stable E (@_date World) ->
      forall s0 d,
        In (Ext (Park_Update d)) (events_of (UpdateLogic_pipeline K E) s0) ->
        d = mkDate (wrap32 (gDateMonthsElapsed (ext E DateUpdate s0)))
              (gDateMonthTicks (ext E DateUpdate s0))).
Proof.
  intros Hf. split; [|intros Hd s0 d; now apply UpdateLogic_park_date].
  destruct (Tick_loop_end_keeps _ (@gScreenFlags World) s Hf) as [Hstart _];
    try field_kept.
  unfold ticks_completed. rewrite (Tick_count _ s frame_call_no_advance).
  rewrite Tick_events, !count_app.
  count_calls is_Park_Update (Tick_begin E) 0%nat.
  count_calls is_Park_Update (Tick_pause E (numUpdates_of (Tick_entry E s))) 0%nat.
  count_calls is_Park_Update (Tick_finish K E (fst (Tick_plan E s))) 0%nat.
  rewrite Nat.add_0_r. cbn [Nat.add].
  assert (HU : forall s0 : State World, gScreenFlags s0 = gScreenFlags s ->
                 gScreenFlags (exec (UpdateLogic K E) s0) = gScreenFlags s).
  { intros s0 <-. apply (keeps_exec s0). apply UpdateLogic_keeps; try field_kept.
    exact Hf. }
  assert (HC : forall s0 : State World, gScreenFlags s0 = gScreenFlags s ->
                 gScreenFlags (exec (update_loop_check K) s0) = gScreenFlags s).
  { intros s0 <-. apply (keeps_exec s0). apply update_loop_check_keeps. field_kept. }
  destruct (test_mask (gScreenFlags s) (SCREEN_FLAGS_EDITOR K)) eqn:Heditor.
  - apply (update_loop_count_zero (fun s0 => gScreenFlags s0 = gScreenFlags s));
      auto.
    intros s0 H0. now rewrite UpdateLogic_park, H0, Heditor.
  - apply (update_loop_count_eq (fun s0 => gScreenFlags s0 = gScreenFlags s)); auto.
    intros s0 H0. now rewrite UpdateLogic_park, H0, Heditor.
Qed.

(** *** Snapshots *)

Lemma UpdateLogic_no_snapshot s :
  stable E (@network_get_mode World) ->
  stable E (@network_gamestate_snapshots_enabled World) ->
  network_gamestate_snapshots_enabled s = false
  \/ network_get_mode s = NETWORK_MODE_NONE ->
  count is_snapshot_call (events_of (UpdateLogic K E) s) = 0%nat.
Proof.
  intros Hm He Hs. rewrite UpdateLogic_events, count_app.
  replace (count is_snapshot_call
             (if result (UpdateLogic_network K E) s
              then events_of (UpdateLogic_pipeline K E) (exec (UpdateLogic_network K E) s)
              else []))
    with 0%nat
    by (destruct (result _ s); [symmetry; apply UpdateLogic_pipeline_no_snapshot
                               | reflexivity]).
  rewrite Nat.add_0_r.
  unfold_pieces. run_all;
    through (@network_get_mode World) Hm;
    through (@network_gamestate_snapshots_enabled World) He;
    try reflexivity;
    destruct Hs as [Hs | Hs]; rewrite Hs in *;
    cbn [andb] in *; rewrite ?andb_false_r in *; discriminate.
Qed.

(** X15.  No snapshot of the game state is created, captured or linked
    in a call of [Tick] when the snapshots are disabled, and none in a
    single player game. *)
Theorem Tick_no_snapshot (s : State World) :
  stable E (@network_get_mode World) ->
  stable E (@network_gamestate_snapshots_enabled World) ->
  network_gamestate_snapshots_enabled s = false
  \/ network_get_mode s = NETWORK_MODE_NONE ->
  count is_snapshot_call (events_of (Tick K E) s) = 0%nat.
Proof.
  intros Hm He Hs.
  set (f := fun s0 : State World =>
              (network_gamestate_snapshots_enabled s0, network_get_mode s0)).
  assert (Hf : stable E f)
    by (intros c s0; unfold f; now rewrite (Hm c s0), (He c s0)).
  destruct (Tick_loop_end_keeps _ f s Hf) as [Hstart _]; try field_kept.
  rewrite Tick_events, !count_app.
  replace (count is_snapshot_call (events_of (Tick_begin E) s))
    with 0%nat by (symmetry; count_events).
  replace (count is_snapshot_call
             (events_of (Tick_pause E (numUpdates_of (Tick_entry E s))) (Tick_entry E s)))
    with 0%nat by (symmetry; count_events).
  replace (count is_snapshot_call
             (events_of (Tick_finish K E (fst (Tick_plan E s))) (Tick_loop_end K E s)))
    with 0%nat by (symmetry; count_events).
  rewrite Nat.add_0_r. cbn [Nat.add].
  apply (update_loop_count_zero (fun s0 => f s0 = f s)).
  - intros s0 <-. apply (keeps_exec s0). apply UpdateLogic_keeps; try field_kept.
    exact Hf.
  - intros s0 <-. apply (keeps_exec s0). apply update_loop_check_keeps. field_kept.
  - intros s0 H0. apply UpdateLogic_no_snapshot; try assumption.
    unfold f in H0. injection H0 as H1 H2. rewrite H1, H2. exact Hs.
  - reflexivity.
  - exact Hstart.
Qed.

(** X16.  On a client whose tick differs from the server's, the desync
    check never stops the update.  When it reports a desync, snapshots
    are enabled and the client is still connected, a snapshot of this
    tick is taken and the server's is requested; otherwise neither
    happens. *)
Theorem UpdateLogic_client_desync (s : State World) :
  quiet E ->
  stable E (@ScenarioRandState_s0 World) ->
  network_get_mode s = NETWORK_MODE_CLIENT ->
  network_get_server_tick s <> gCurrentTicks s ->
  result (UpdateLogic_network K E) s = true
  /\ events_of (UpdateLogic_network K E) s
     = [Enter_UpdateLogic; Ext ReplayManager_Update; Ext network_update;
        Ext network_check_desynchronisation]
       ++ (if network_check_desynchronisation_result E
                (ext E network_update
                   (ext E ReplayManager_Update (increment_gScreenAge K s)))
              && (network_gamestate_snapshots_enabled s
                  && is_CONNECTED (network_get_status s))
           then [Ext Snapshots_CreateSnapshot; Ext Snapshots_Capture;
                 Ext (Snapshots_LinkSnapshot (gCurrentTicks s) (ScenarioRandState_s0 s));
                 Ext network_request_gamestate_snapshot]
           else []).
Proof.
  intros Hq Hseed Hmode Hne. pose proof Hq as [Hv Ht].
  destruct (ambient_fields (stable_ambient Hv)) as (_ & Hm & Hserver & _ & Hsnap).
  assert (Hstatus : stable E (@network_get_status World)).
  { intros c s0. pose proof (Hv c s0) as H. unfold frame_view, ambient_view in H.
    congruence. }
  split.
  { rewrite UpdateLogic_network_result by exact Hq. unfold at_server_tick.
    rewrite Hmode. cbn [NetworkMode_eqb andb].
    destruct (Z.eqb_spec (network_get_server_tick s) (gCurrentTicks s));
      [contradiction | reflexivity]. }
  set (polled := ext E network_update
                   (ext E ReplayManager_Update (increment_gScreenAge K s))).
  unfold_pieces. run. fold polled.
  assert (Hpm : network_get_mode polled = NETWORK_MODE_CLIENT).
  { unfold polled. through (@network_get_mode World) Hm. exact Hmode. }
  rewrite Hpm. run.
  assert (Hps : (network_get_server_tick polled =? gCurrentTicks polled) = false).
  { unfold polled. through (@network_get_server_tick World) Hserver.
    through (@gCurrentTicks World) Ht. now apply Z.eqb_neq. }
  rewrite Hps. run.
  assert (He : network_gamestate_snapshots_enabled
                 (ext E network_check_desynchronisation polled)
               = network_gamestate_snapshots_enabled s).
  { unfold polled. through (@network_gamestate_snapshots_enabled World) Hsnap.
    reflexivity. }
  assert (Hst : network_get_status (ext E network_check_desynchronisation polled)
                = network_get_status s).
  { unfold polled. through (@network_get_status World) Hstatus. reflexivity. }
  rewrite He, Hst.
  destruct (network_check_desynchronisation_result E polled
            && (network_gamestate_snapshots_enabled s
                && is_CONNECTED (network_get_status s))); run; [|reflexivity].
  unfold polled.
  through (@gCurrentTicks World) Ht. through (@ScenarioRandState_s0 World) Hseed.
  reflexivity.
Qed.

(** *** The date of the game state and the date globals *)

Lemma keeps_call_other (X : Type) (f : State World -> X) c :
  (forall c s, c <> DateUpdate -> f (ext E c s) = f s) ->
  c <> DateUpdate ->
  keeps f (call E c).
Proof. intros H Hc s l. now apply H. Qed.

Ltac keeps_date_step :=
  first [ keeps_step | apply keeps_call_other; [assumption | discriminate] ].

Lemma UpdateLogic_pipeline_exec s :
  exec (UpdateLogic_pipeline K E) s
  = exec (UpdateLogic_finish K E (result (UpdateLogic_date E) s))
      (exec (UpdateLogic_subsystems K E) (exec (UpdateLogic_date E) s)).
Proof.
  unfold UpdateLogic_pipeline.
  rewrite exec_bind.
  2:{ intros day. apply appends_bind; [apply UpdateLogic_subsystems_appends|].
      intros _. apply UpdateLogic_finish_appends. }
  rewrite exec_bind by (intros _; apply UpdateLogic_finish_appends).
  reflexivity.
Qed.

Section DateInSync.

Hypothesis Howned : date_globals_owned E.
Hypothesis Hdate : stable E (@_date World).

Lemma dates_other :
  forall c (s : State World), c <> DateUpdate -> date_view (ext E c s) = date_view s.
Proof.
  intros c s Hc. unfold date_view. destruct (Howned c s Hc) as [-> ->].
  now rewrite (Hdate c s).
Qed.

Lemma dates_in_sync (a b : State World) :
  date_view a = date_view b -> date_in_sync b -> date_in_sync a.
Proof. unfold date_view, date_in_sync. intros H. injection H as -> -> ->. auto. Qed.

Lemma UpdateLogic_network_keeps_dates : keeps date_view (UpdateLogic_network K E).
Proof. pose proof dates_other. unfold_pieces. repeat keeps_date_step. Qed.

Lemma UpdateLogic_subsystems_keeps_dates :
  keeps date_view (UpdateLogic_subsystems K E).
Proof. pose proof dates_other. unfold_pieces. repeat keeps_date_step. Qed.

Lemma UpdateLogic_finish_keeps_dates day :
  keeps date_view (UpdateLogic_finish K E day).
Proof. pose proof dates_other. unfold_pieces. repeat keeps_date_step. Qed.

Lemma Tick_around_keeps_dates :
  keeps date_view (Tick_begin E)
  /\ (forall n, keeps date_view (Tick_pause E n))
  /\ (forall d, keeps date_view (Tick_finish K E d))
  /\ keeps date_view (update_loop_check (World:=World) K).
Proof.
  pose proof dates_other.
  repeat split; intros; unfold_pieces; repeat keeps_date_step.
Qed.

Lemma UpdateLogic_pipeline_in_sync s : date_in_sync (exec (UpdateLogic_pipeline K E) s).
Proof.
  rewrite UpdateLogic_pipeline_exec.
  apply (dates_in_sync _ _ (keeps_exec _ (UpdateLogic_finish_keeps_dates _))).
  apply (dates_in_sync _ _ (keeps_exec _ UpdateLogic_subsystems_keeps_dates)).
  reflexivity.
Qed.

Lemma UpdateLogic_in_sync s :
  date_in_sync s \/ result (UpdateLogic_network K E) s = true ->
  date_in_sync (exec (UpdateLogic K E) s).
Proof.
  intros H. rewrite UpdateLogic_exec.
  destruct (result _ s); [apply UpdateLogic_pipeline_in_sync|].
  destruct H as [H | H]; [|discriminate H].
  exact (dates_in_sync _ _ (keeps_exec s UpdateLogic_network_keeps_dates) H).
Qed.

Lemma update_loop_in_sync n : forall s,
  date_in_sync s -> date_in_sync (exec (update_loop K E n) s).
Proof.
  destruct Tick_around_keeps_dates as (_ & _ & _ & HC).
  induction n as [|n IH]; intros s Hs; [exact Hs|].
  rewrite update_loop_S_exec.
  assert (H1 : date_in_sync (exec (update_loop_check K) (exec (UpdateLogic K E) s))).
  { apply (dates_in_sync _ _ (keeps_exec _ HC)). apply UpdateLogic_in_sync. now left. }
  destruct (result (update_loop_check K) _); [exact H1 | now apply IH].
Qed.

Lemma Tick_in_sync s : date_in_sync s -> date_in_sync (exec (Tick K E) s).
Proof.
  intros Hs. destruct Tick_around_keeps_dates as (Hb & Hp & Hf & _).
  rewrite Tick_exec.
  apply (dates_in_sync _ _ (keeps_exec _ (Hf _))).
  apply update_loop_in_sync.
  apply (dates_in_sync _ _ (keeps_exec _ (Hp _))).
  exact (dates_in_sync _ _ (keeps_exec s Hb) Hs).
Qed.

End DateInSync.

(** X17.  The date of the game state follows the date globals: when only
    [DateUpdate] writes the globals and no collaborator writes the date
    of the game state, every completed update ends with the date that
    the globals give, and a call of [Tick] that starts with the two in
    agreement ends with them in agreement. *)
Theorem Tick_date_in_sync (s : State World) :
  date_globals_owned E ->
  stable E (@_date World) ->
  (result (UpdateLogic_network K E) s = true -> date_in_sync (exec (UpdateLogic K E) s))
  /\ (date_in_sync s -> date_in_sync (exec (Tick K E) s)).
Proof.
  intros Ho Hd. split.
  - intros H. apply UpdateLogic_in_sync; auto.
  - now apply Tick_in_sync.
Qed.

(** *** The autosave timer *)

Lemma keeps_call_except (X : Type) (f : State World -> X) c0 c :
  (forall c s, c <> c0 -> f (ext E c s) = f s) ->
  c <> c0 ->
  keeps f (call E c).
Proof. intros H Hc s l. now apply H. Qed.

Section AutosaveTimer.

Hypothesis Howned : timer_owned E.

Ltac keeps_timer_step :=
  first [ keeps_step
        | apply (keeps_call_except _ _ ScenarioAutosaveCheck);
          [exact Howned | discriminate] ].

(** Look through the calls other than the autosave check. *)
Ltac past_calls :=
  repeat first
    [ match goal with
      | |- context [gLastAutoSaveUpdate (ext E ?c ?x)] =>
          rewrite (Howned c x) by discriminate
      end
    | progress skip (@gLastAutoSaveUpdate World) ].

Lemma UpdateLogic_before_finish_keeps_timer :
  keeps (@gLastAutoSaveUpdate World) (UpdateLogic_network K E)
  /\ keeps (@gLastAutoSaveUpdate World) (UpdateLogic_date E)
  /\ keeps (@gLastAutoSaveUpdate World) (UpdateLogic_subsystems K E).
Proof. repeat split; unfold_pieces; repeat keeps_timer_step. Qed.

Lemma UpdateLogic_finish_timer day s :
  gLastAutoSaveUpdate (exec (UpdateLogic_finish K E day) s)
  = if gLastAutoSaveUpdate s =? AUTOSAVE_PAUSE K
    then wrap32 (Platform_GetTicks E s) else gLastAutoSaveUpdate s.
Proof. unfold_pieces. run_all; past_calls; reflexivity. Qed.

Lemma UpdateLogic_autosave_timer s :
  gLastAutoSaveUpdate (exec (UpdateLogic K E) s) = gLastAutoSaveUpdate s
  \/ (gLastAutoSaveUpdate s = AUTOSAVE_PAUSE K
      /\ result (UpdateLogic_network K E) s = true).
Proof.
  destruct UpdateLogic_before_finish_keeps_timer as (Hn & Hd & Hs).
  rewrite UpdateLogic_exec.
  destruct (result _ s); [|left; apply (keeps_exec s Hn)].
  rewrite UpdateLogic_pipeline_exec, UpdateLogic_finish_timer.
  rewrite (keeps_exec _ Hs), (keeps_exec _ Hd), (keeps_exec _ Hn).
  destruct (Z.eqb_spec (gLastAutoSaveUpdate s) (AUTOSAVE_PAUSE K)); auto.
Qed.

Lemma update_loop_autosave_timer n : forall s,
  gLastAutoSaveUpdate (exec (update_loop K E n) s) = gLastAutoSaveUpdate s
  \/ (gLastAutoSaveUpdate s = AUTOSAVE_PAUSE K
      /\ (1 <= ticks_completed (events_of (update_loop K E n) s))%nat).
Proof.
  assert (HC : keeps (@gLastAutoSaveUpdate World) (update_loop_check (World:=World) K))
    by (apply update_loop_check_keeps; reflexivity).
  induction n as [|n IH]; intros s; [now left|].
  rewrite update_loop_S_events, update_loop_S_exec.
  unfold ticks_completed in *. rewrite count_app.
  fold (ticks_completed (events_of (UpdateLogic K E) s)).
  rewrite UpdateLogic_ticks_completed.
  destruct (UpdateLogic_autosave_timer s) as [Hsame | [Hpause Hgo]].
  - destruct (result (update_loop_check K) _) eqn:Hleave.
    + left. now rewrite (keeps_exec _ HC).
    + rewrite (update_loop_check_stay _ Hleave).
      destruct (IH (exec (UpdateLogic K E) s)) as [H | [H1 H2]].
      * left. congruence.
      * right. split; [congruence | lia].
  - right. rewrite Hgo. split; [exact Hpause | lia].
Qed.

Lemma Tick_before_loop_keeps_timer :
  keeps (@gLastAutoSaveUpdate World) (Tick_begin E)
  /\ (forall n, keeps (@gLastAutoSaveUpdate World) (Tick_pause E n)).
Proof. split; intros; unfold_pieces; repeat keeps_timer_step. Qed.

(** The end of [Tick] hands the timer to the autosave check as it
    found it, and does not touch it otherwise. *)
Lemma Tick_finish_timer d s :
  exists checked : State World,
    gLastAutoSaveUpdate checked = gLastAutoSaveUpdate s
    /\ gLastAutoSaveUpdate (exec (Tick_finish K E d) s)
       = if (count (calls is_ScenarioAutosaveCheck) (events_of (Tick_finish K E d) s)
             =? 0)%nat
         then gLastAutoSaveUpdate s
         else gLastAutoSaveUpdate (ext E ScenarioAutosaveCheck checked).
Proof.
  unfold_pieces. run_all;
    match goal with
    | H : (count _ _ =? 0)%nat = _ |- _ => vm_compute in H; try discriminate H
    end;
    (eexists; split; [idtac | past_calls; reflexivity];
     first [ reflexivity | past_calls; reflexivity ]).
Qed.

End AutosaveTimer.

(** X11.  When of the collaborators only the autosave check writes the
    autosave timer, an update changes the timer only if it completes
    and the timer was at [AUTOSAVE_PAUSE].  A call of [Tick] that
    completes no tick, a paused one for instance, or that finds the
    timer not at [AUTOSAVE_PAUSE], does not change the timer itself: it
    hands it as it was to the autosave check, and the timer ends as
    that check leaves it, or as it was when the check is not made. *)
Theorem Tick_autosave_timer (s : State World) :
  timer_owned E ->
  (gLastAutoSaveUpdate (exec (UpdateLogic K E) s) = gLastAutoSaveUpdate s
   \/ (gLastAutoSaveUpdate s = AUTOSAVE_PAUSE K
       /\ ticks_completed (events_of (UpdateLogic K E) s) = 1%nat))
  /\ (ticks_completed (events_of (Tick K E) s) = 0%nat
      \/ gLastAutoSaveUpdate s <> AUTOSAVE_PAUSE K ->
      exists checked : State World,
        gLastAutoSaveUpdate checked = gLastAutoSaveUpdate s
        /\ gLastAutoSaveUpdate (exec (Tick K E) s)
           = if (count (calls is_ScenarioAutosaveCheck) (events_of (Tick K E) s)
                 =? 0)%nat
             then gLastAutoSaveUpdate s
             else gLastAutoSaveUpdate (ext E ScenarioAutosaveCheck checked)).
Proof.
  intros Ho. split.
  - rewrite UpdateLogic_ticks_completed.
    destruct (UpdateLogic_autosave_timer Ho s) as [H | [H1 H2]]; [now left|].
    right. now rewrite H2.
  - intros Hs.
    destruct (Tick_before_loop_keeps_timer Ho) as [Hb Hp].
    assert (Hstart : gLastAutoSaveUpdate (Tick_loop_start E s) = gLastAutoSaveUpdate s).
    { unfold Tick_loop_start. rewrite (keeps_exec _ (Hp _)). apply (keeps_exec s Hb). }
    assert (Hend : gLastAutoSaveUpdate (Tick_loop_end K E s) = gLastAutoSaveUpdate s).
    { unfold Tick_loop_end.
      destruct (update_loop_autosave_timer Ho (Z.to_nat (snd (Tick_plan E s)))
                  (Tick_loop_start E s)) as [H | [H1 H2]]; [congruence|].
      exfalso. rewrite Hstart in H1.
      unfold ticks_completed in Hs, H2.
      rewrite (Tick_count _ s frame_call_no_advance) in Hs.
      destruct Hs as [Hs | Hs]; [lia | contradiction]. }
    assert (Hcount :
      count (calls is_ScenarioAutosaveCheck) (events_of (Tick K E) s)
      = count (calls is_ScenarioAutosaveCheck)
          (events_of (Tick_finish K E (fst (Tick_plan E s))) (Tick_loop_end K E s))).
    { rewrite Tick_events, !count_app.
      count_calls is_ScenarioAutosaveCheck (Tick_begin E) 0%nat.
      count_calls is_ScenarioAutosaveCheck
        (Tick_pause E (numUpdates_of (Tick_entry E s))) 0%nat.
      rewrite update_loop_no_call by no_such_call is_ScenarioAutosaveCheck.
      reflexivity. }
    destruct (Tick_finish_timer Ho (fst (Tick_plan E s)) (Tick_loop_end K E s))
      as (checked & Hc1 & Hc2).
    exists checked. rewrite Tick_exec, Hcount, Hc2, Hc1, Hend. split; reflexivity.
Qed.

(** *** After a re-initialisation *)

Lemma InitAll_keeps (X : Type) (f : State World -> X) x y :
  stable E f ->
  (forall v s, f (set_gInMapInitCode v s) = f s) ->
  (forall v s, f (set_gCurrentTicks v s) = f s) ->
  (forall v s, f (set_gNextGuestNumber v s) = f s) ->
  keeps f (InitAll K E x y).
Proof.
  intros H H1 H2 H3. unfold InitAll.
  repeat first [ keeps_step
               | apply keeps_modify; intro; first [ apply H1 | apply H2 | apply H3 ] ].
Qed.

Lemma InitAll_appends x y : appends (InitAll K E x y).
Proof. unfold InitAll. repeat appends_step. Qed.

Lemma InitAll_no_snapshot x y s :
  count is_snapshot_call (events_of (InitAll K E x y) s) = 0%nat.
Proof. unfold InitAll. run_all; reflexivity. Qed.

(** X18.  [InitAll] starts the game afresh whatever the state it is
    called in: it ends outside the map initialisation and with the next
    guest number at 1, and on a server with snapshots enabled the [n]
    updates that follow it link their snapshots to the ticks 0, 1, ...,
    [n - 1]. *)
Theorem InitAll_restarts (s : State World) (x y : Z) (n : nat) :
  quiet E ->
  (stable E (@gInMapInitCode World) -> gInMapInitCode (exec (InitAll K E x y) s) = false)
  /\ (stable E (@gNextGuestNumber World) ->
      gNextGuestNumber (exec (InitAll K E x y) s) = 1)
  /\ (network_get_mode s = NETWORK_MODE_SERVER ->
      network_gamestate_snapshots_enabled s = true ->
      Z.of_nat n <= 2 ^ 32 ->
      linked_ticks
        (events_of (bind (InitAll K E x y) (fun _ => UpdateLogic_times K E n)) s)
      = map Z.of_nat (seq 0 n)).
Proof.
  intros Hq. pose proof Hq as [Hv Ht]. split; [|split].
  - intros H. unfold InitAll. run_all; through (@gInMapInitCode World) H; reflexivity.
  - intros H. unfold InitAll. run_all; through (@gNextGuestNumber World) H; reflexivity.
  - intros Hmode Hsnap Hn.
    rewrite events_bind by (intros _; apply UpdateLogic_times_appends).
    rewrite linked_ticks_app.
    rewrite (linked_ticks_none _ (InitAll_no_snapshot x y s)). cbn [app].
    pose proof (keeps_exec s (InitAll_keeps _ (@ambient_view World) x y
                                (stable_ambient Hv) (fun _ _ => eq_refl)
                                (fun _ _ => eq_refl) (fun _ _ => eq_refl))) as Hview.
    pose proof (InitAll_ticks x y s Ht) as Hzero.
    rewrite UpdateLogic_times_linked.
    + rewrite Hzero. apply map_ext. intros i. lia.
    + exact Hq.
    + unfold ambient_view in Hview. congruence.
    + unfold ambient_view in Hview. congruence.
    + lia.
    + lia.
Qed.

(** *** The flashing of guests and staff on the map *)

Lemma test_mask_bit f a : 0 <= a -> test_mask f (2 ^ a) = Z.testbit f a.
Proof.
  intros Ha. unfold test_mask.
  destruct (Z.testbit f a) eqn:Hbit.
  - apply negb_true_iff, Z.eqb_neq. intros H0.
    assert (Hb : Z.testbit (Z.land f (2 ^ a)) a = true)
      by (rewrite Z.land_spec, Hbit, Z.pow2_bits_true by exact Ha; reflexivity).
    rewrite H0, Z.bits_0 in Hb. discriminate Hb.
  - apply negb_false_iff, Z.eqb_eq. apply Z.bits_inj'. intros n Hn.
    rewrite Z.land_spec, Z.bits_0, Z.pow2_bits_eqb by exact Ha.
    destruct (Z.eqb_spec a n) as [<- | _]; [now rewrite Hbit | apply andb_false_r].
Qed.

Lemma clear_mask_bit f a i :
  0 <= a -> 0 <= i ->
  Z.testbit (clear_mask f (2 ^ a)) i = Z.testbit f i && negb (a =? i).
Proof.
  intros Ha Hi. unfold clear_mask.
  now rewrite Z.land_spec, Z.lnot_spec, Z.pow2_bits_eqb by assumption.
Qed.

Lemma set_mask_bit f a i :
  0 <= a -> Z.testbit (Z.lor f (2 ^ a)) i = Z.testbit f i || (a =? i).
Proof. intros Ha. now rewrite Z.lor_spec, Z.pow2_bits_eqb by exact Ha. Qed.

Lemma toggle_mask_bit f a i :
  0 <= a -> Z.testbit (Z.lxor f (2 ^ a)) i = xorb (Z.testbit f i) (a =? i).
Proof. intros Ha. now rewrite Z.lxor_spec, Z.pow2_bits_eqb by exact Ha. Qed.

(** Every bit of the flashing flags after lines 213 to 229. *)
Lemma flashing_bit_after (s : State World) (go fg so fs sw i : Z) :
  flashing_bits K go fg so fs sw ->
  0 <= i ->
  Z.testbit (gWindowMapFlashingFlags (update_map_flashing K s)) i
  = if i =? go then false
    else if i =? so then false
    else if i =? fg then Z.testbit (gWindowMapFlashingFlags s) go
    else if i =? fs then Z.testbit (gWindowMapFlashingFlags s) so
    else if i =? sw
         then xorb (Z.testbit (gWindowMapFlashingFlags s) sw)
                (gCurrentRealTimeTicks s mod 4 =? 0)
         else Z.testbit (gWindowMapFlashingFlags s) i.
Proof using World K.
  intros [Hgo Hfg Hso Hfs Hsw (Ngo & Nfg & Nso & Nfs & Nsw) Hnodup] Hi.
  assert (Hd : go <> fg /\ go <> so /\ go <> fs /\ go <> sw /\ fg <> so /\ fg <> fs
               /\ fg <> sw /\ so <> fs /\ so <> sw /\ fs <> sw).
  { repeat match goal with
           | H : NoDup (_ :: _) |- _ => inversion H; clear H; subst
           end.
    cbn [In] in *. repeat split; intros ->; tauto. }
  destruct Hd as (D1 & D2 & D3 & D4 & D5 & D6 & D7 & D8 & D9 & D10).
  unfold update_map_flashing.
  cbn [gWindowMapFlashingFlags set_gWindowMapFlashingFlags assign].
  rewrite Hgo, Hfg, Hso, Hfs, Hsw.
  rewrite !test_mask_bit by assumption.
  set (f0 := gWindowMapFlashingFlags s).
  set (tick := gCurrentRealTimeTicks s mod 4 =? 0).
  assert (Hf1 : forall j, 0 <= j ->
            Z.testbit (if tick then Z.lxor f0 (2 ^ sw) else f0) j
            = xorb (Z.testbit f0 j) (tick && (sw =? j))).
  { intros j Hj. destruct tick; cbn [andb].
    - now apply toggle_mask_bit.
    - now rewrite xorb_false_r. }
  set (f1 := if tick then Z.lxor f0 (2 ^ sw) else f0) in *.
  assert (Hopen_g : Z.testbit (clear_mask f1 (2 ^ fg)) go = Z.testbit f0 go).
  { rewrite clear_mask_bit, Hf1 by assumption.
    destruct (Z.eqb_spec fg go); [congruence|].
    destruct (Z.eqb_spec sw go); [congruence|].
    now rewrite andb_false_r, xorb_false_r, andb_true_r. }
  rewrite Hopen_g.
  set (f3 := if Z.testbit f0 go
             then Z.lor (clear_mask f1 (2 ^ fg)) (2 ^ fg) else clear_mask f1 (2 ^ fg)).
  assert (Hf3 : forall j, 0 <= j ->
            Z.testbit f3 j
            = if j =? fg then Z.testbit f0 go
              else xorb (Z.testbit f0 j) (tick && (sw =? j))).
  { intros j Hj. unfold f3.
    destruct (Z.testbit f0 go);
      rewrite ?set_mask_bit, clear_mask_bit, Hf1 by assumption;
      rewrite (Z.eqb_sym fg j); destruct (j =? fg); cbn [negb];
      rewrite ?andb_false_r, ?andb_true_r, ?orb_true_r, ?orb_false_r; reflexivity. }
  assert (Hopen_s :
            Z.testbit (clear_mask (clear_mask f3 (2 ^ go)) (2 ^ fs)) so
            = Z.testbit f0 so).
  { rewrite !clear_mask_bit, Hf3 by assumption.
    destruct (Z.eqb_spec so fg); [congruence|].
    destruct (Z.eqb_spec sw so); [congruence|].
    destruct (Z.eqb_spec go so); [congruence|].
    destruct (Z.eqb_spec fs so); [congruence|].
    now rewrite andb_false_r, xorb_false_r, !andb_true_r. }
  rewrite Hopen_s.
  destruct (Z.testbit f0 so);
    repeat first [ rewrite set_mask_bit by assumption
                 | rewrite clear_mask_bit by assumption ];
    rewrite Hf3 by assumption;
    rewrite (Z.eqb_sym so i), (Z.eqb_sym fs i), (Z.eqb_sym go i), (Z.eqb_sym sw i);
    destruct (Z.eqb_spec i go); destruct (Z.eqb_spec i so);
    destruct (Z.eqb_spec i fg); destruct (Z.eqb_spec i fs);
    destruct (Z.eqb_spec i sw); subst;
    try congruence; cbn [negb andb orb];
    rewrite ?andb_false_r, ?andb_true_r, ?orb_true_r, ?orb_false_r,
      ?xorb_false_r; reflexivity.
Qed.

(** X19.  The flashing of the map, bit by bit.  The two list-open flags
    are consumed: they are clear afterwards, and guests (staff) flash in
    this frame exactly when the guest (staff) list was marked open; the
    colour switches on every fourth real-time tick; no other flag
    changes. *)
Theorem update_map_flashing_bits (s : State World) (go fg so fs sw : Z) :
  flashing_bits K go fg so fs sw ->
  let before := gWindowMapFlashingFlags s in
  let after := gWindowMapFlashingFlags (update_map_flashing K s) in
  Z.testbit after go = false
  /\ Z.testbit after so = false
  /\ Z.testbit after fg = Z.testbit before go
  /\ Z.testbit after fs = Z.testbit before so
  /\ Z.testbit after sw = xorb (Z.testbit before sw) (gCurrentRealTimeTicks s mod 4 =? 0)
  /\ (forall i, 0 <= i -> ~ In i [go; fg; so; fs; sw] ->
      Z.testbit after i = Z.testbit before i).
Proof using World K.
  intros Hbits before after. subst before after.
  pose proof Hbits as [_ _ _ _ _ (Ngo & Nfg & Nso & Nfs & Nsw) Hnodup].
  assert (Hd : go <> fg /\ go <> so /\ go <> fs /\ go <> sw /\ fg <> so /\ fg <> fs
               /\ fg <> sw /\ so <> fs /\ so <> sw /\ fs <> sw).
  { repeat match goal with
           | H : NoDup (_ :: _) |- _ => inversion H; clear H; subst
           end.
    cbn [In] in *. repeat split; intros ->; tauto. }
  destruct Hd as (D1 & D2 & D3 & D4 & D5 & D6 & D7 & D8 & D9 & D10).
  repeat split; try intros i Hi Hnot;
    rewrite (flashing_bit_after s go fg so fs sw _ Hbits) by assumption;
    repeat match goal with
           | |- context [?a =? ?b] => destruct (Z.eqb_spec a b); try congruence
           end;
    try reflexivity.
  all: exfalso; apply Hnot; cbn [In]; auto 10.
Qed.

(** *** The title sequence *)

Lemma Tick_begin_title_sequence s :
  stable E (fun s0 : State World =>
              (gGamePaused s0, gPreviewingTitleSequenceInGame s0,
               GetTitleSequencePlayer s0)) ->
  count (calls is_TitleSequencePlayer_Update) (events_of (Tick_begin E) s)
  = if negb (gGamePaused s) && gPreviewingTitleSequenceInGame s
       && GetTitleSequencePlayer s
    then 1%nat else 0%nat.
Proof.
  intros H.
  assert (Hp : stable E (@gGamePaused World))
    by (intros c s0; specialize (H c s0); cbn beta in H; congruence).
  assert (Hv : stable E (@gPreviewingTitleSequenceInGame World))
    by (intros c s0; specialize (H c s0); cbn beta in H; congruence).
  assert (Hg : stable E (@GetTitleSequencePlayer World))
    by (intros c s0; specialize (H c s0); cbn beta in H; congruence).
  match goal with |- _ = ?r => set (rhs := r) end.
  unfold_pieces. run_all;
    through (@gGamePaused World) Hp;
    through (@gPreviewingTitleSequenceInGame World) Hv;
    through (@GetTitleSequencePlayer World) Hg;
    unfold rhs;
    destruct (gGamePaused s); destruct (gPreviewingTitleSequenceInGame s);
    destruct (GetTitleSequencePlayer s);
    cbn [negb andb] in *; first [ discriminate | reflexivity ].
Qed.

(** X20.  The title sequence that is previewed in the game advances once
    in a call of [Tick], before the network is polled and whatever the
    number of updates, when the game is not paused and a player exists,
    and never while the game is paused. *)
Theorem Tick_title_sequence (s : State World) :
  stable E (fun s0 : State World =>
              (gGamePaused s0, gPreviewingTitleSequenceInGame s0,
               GetTitleSequencePlayer s0)) ->
  count (calls is_TitleSequencePlayer_Update) (events_of (Tick K E) s)
  = (if negb (gGamePaused s) && gPreviewingTitleSequenceInGame s
        && GetTitleSequencePlayer s
     then 1%nat else 0%nat)
  /\ (gGamePaused s = true ->
      count (calls is_TitleSequencePlayer_Update) (events_of (Tick K E) s) = 0%nat).
Proof.
  intros H.
  assert (Hcount :
    count (calls is_TitleSequencePlayer_Update) (events_of (Tick K E) s)
    = if negb (gGamePaused s) && gPreviewingTitleSequenceInGame s
         && GetTitleSequencePlayer s
      then 1%nat else 0%nat).
  { rewrite Tick_events, !count_app, Tick_begin_title_sequence by exact H.
    count_calls is_TitleSequencePlayer_Update
      (Tick_pause E (numUpdates_of (Tick_entry E s))) 0%nat.
    count_calls is_TitleSequencePlayer_Update
      (Tick_finish K E (fst (Tick_plan E s))) 0%nat.
    rewrite update_loop_no_call by no_such_call is_TitleSequencePlayer_Update.
    lia. }
  split; [exact Hcount|]. intros Hp. now rewrite Hcount, Hp.
Qed.

(** *** The loop without an early exit *)

Lemma update_loop_times n :
  quiet E ->
  forall s, no_early_exit K s ->
    events_of (update_loop K E n) s = events_of (UpdateLogic_times K E n) s
    /\ exec (update_loop K E n) s = exec (UpdateLogic_times K E n) s.
Proof.
  intros Hq. induction n as [|n IH]; intros s Hs; [split; reflexivity|].
  pose proof (keeps_exec s (UpdateLogic_keeps_view (proj1 Hq))) as Hview.
  pose proof (view_no_early_exit _ _ Hview Hs) as Hs1.
  pose proof (no_early_exit_check _ Hs1) as Hstay.
  rewrite update_loop_S_events, update_loop_S_exec, Hstay.
  rewrite (update_loop_check_stay _ Hstay).
  destruct (IH _ Hs1) as [Hev Hex]. rewrite Hev, Hex.
  cbn [UpdateLogic_times].
  rewrite events_bind, exec_bind by (intros _; apply UpdateLogic_times_appends).
  split; reflexivity.
Qed.

(** X21.  On a server with snapshots enabled, a call of [Tick] at speed
    level [v], from 1 to 32, that is not paused and whose loop takes no
    early exit links one snapshot in each of its [2 ^ (v - 1)] updates,
    to the ticks that follow one another from the tick at the call. *)
Theorem Tick_server_snapshots (s : State World) :
  quiet E ->
  network_get_mode s = NETWORK_MODE_SERVER ->
  network_gamestate_snapshots_enabled s = true ->
  isPaused_of s = false ->
  no_early_exit K s ->
  1 <= gGameSpeed s <= 32 ->
  0 <= gCurrentTicks s ->
  gCurrentTicks s + 2 ^ (gGameSpeed s - 1) <= 2 ^ 32 ->
  linked_ticks (events_of (Tick K E) s)
  = map (fun i => gCurrentTicks s + Z.of_nat i)
      (seq 0 (Z.to_nat (2 ^ (gGameSpeed s - 1)))).
Proof.
  intros Hq Hmode Hsnap Hrun Hexit Hspeed Hlo Hhi.
  assert (Hn : numUpdates_of s = 2 ^ (gGameSpeed s - 1)).
  { unfold numUpdates_of, catching_up. rewrite Hmode. cbn [NetworkMode_eqb andb].
    destruct (Z.ltb_spec 1 (gGameSpeed s)).
    - now apply shift_speed.
    - replace (gGameSpeed s) with 1 by lia. reflexivity. }
  destruct (Tick_running s Hq Hrun) as [Hplan Hstart].
  pose proof (Tick_entry_view s Hq) as Hview.
  pose proof (Tick_entry_ticks s Hq) as Hticks.
  assert (He : isPaused_of (Tick_entry E s) = false)
    by now rewrite (view_isPaused _ _ Hview).
  destruct (Tick_pause_running (numUpdates_of (Tick_entry E s)) _ He) as (_ & _ & Hev).
  assert (Hpos : 0 < 2 ^ (gGameSpeed s - 1)) by (apply Z.pow_pos_nonneg; lia).
  rewrite Tick_events, Hev, Hplan, Hstart, Hn. cbn [fst snd app].
  rewrite !linked_ticks_app.
  rewrite (linked_ticks_none (events_of (Tick_begin E) s)) by count_events.
  rewrite (linked_ticks_none (events_of (Tick_finish K E false) (Tick_loop_end K E s)))
    by count_events.
  rewrite app_nil_r. cbn [app].
  destruct (update_loop_times (Z.to_nat (2 ^ (gGameSpeed s - 1))) Hq (Tick_entry E s))
    as [Hloop _]; [exact (view_no_early_exit _ _ Hview Hexit)|].
  rewrite Hloop, UpdateLogic_times_linked.
  - now rewrite Hticks.
  - exact Hq.
  - rewrite (view_mode _ _ Hview). exact Hmode.
  - unfold frame_view, ambient_view in Hview. congruence.
  - lia.
  - rewrite Hticks, Z2Nat.id by lia. exact Hhi.
Qed.

End Properties.

(** ** Examples and counterexamples on the sample configuration *)

Lemma sample_stable_view : stable sample_env (@frame_view nat).
Proof.
  intros c s. destruct c; try reflexivity;
    cbn [ext sample_env sample_ext]; destruct (_ <=? _); reflexivity.
Qed.

Lemma sample_stable_ticks : stable sample_env (@gCurrentTicks nat).
Proof.
  intros c s. destruct c; try reflexivity;
    cbn [ext sample_env sample_ext]; destruct (_ <=? _); reflexivity.
Qed.

Lemma sample_stable_date : stable sample_env (@_date nat).
Proof.
  intros c s. destruct c; try reflexivity;
    cbn [ext sample_env sample_ext]; destruct (_ <=? _); reflexivity.
Qed.

Lemma sample_stable_seed : stable sample_env (@ScenarioRandState_s0 nat).
Proof.
  intros c s. destruct c; try reflexivity;
    cbn [ext sample_env sample_ext]; destruct (_ <=? _); reflexivity.
Qed.

Lemma sample_quiet : quiet sample_env.
Proof. split; [exact sample_stable_view | exact sample_stable_ticks]. Qed.


(** The scenarios of the specification. *)

Example scenario_single_player :
  let s := sample_state NETWORK_MODE_NONE 100 0 1 false false InputState_Normal 0 0 in
  updates_run (events_of (Tick sample_consts sample_env) s) = 1%nat
  /\ gCurrentTicks (exec (Tick sample_consts sample_env) s) = 101.
Proof. vm_compute. split; reflexivity. Qed.

Example scenario_client_7_behind :
  let s := sample_state NETWORK_MODE_CLIENT 50 57 1 false false InputState_Normal 0 0 in
  updates_run (events_of (Tick sample_consts sample_env) s) = 7%nat
  /\ gCurrentTicks (exec (Tick sample_consts sample_env) s) = 57.
Proof. vm_compute. split; reflexivity. Qed.

Example scenario_client_15_behind :
  updates_run (events_of (Tick sample_consts sample_env) client_behind_15) = 10%nat
  /\ gCurrentTicks (exec (Tick sample_consts sample_env) client_behind_15) = 60.
Proof. vm_compute. split; reflexivity. Qed.

(** Witness of C1, at a client fifteen ticks behind, the input idle. *)
Lemma Tick_catch_up_bound_witness :
  updates_run (events_of (Tick sample_consts sample_env) client_behind_15) = 10%nat
  /\ ticks_completed (events_of (Tick sample_consts sample_env) client_behind_15) = 10%nat
  /\ gCurrentTicks (exec (Tick sample_consts sample_env) client_behind_15) = 50 + 10.
Proof.
  apply (Tick_catch_up_bound nat sample_consts sample_env client_behind_15 15).
  - exact sample_quiet.
  - reflexivity.
  - reflexivity.
  - right. reflexivity.
  - vm_compute. discriminate.
  - vm_compute. discriminate.
  - reflexivity.
  - vm_compute. reflexivity.
Defined.

(** Counterexample to C1 as stated: a client seven ticks behind, at
    speed 1 and with a busy input, runs one update instead of seven and
    ends at tick 51 instead of 57. *)
Lemma Tick_catch_up_bound_counterexample :
  quiet sample_env
  /\ catching_up client_behind_7_busy = true
  /\ gGamePaused client_behind_7_busy = false
  /\ network_get_server_tick client_behind_7_busy = gCurrentTicks client_behind_7_busy + 7
  /\ updates_run (events_of (Tick sample_consts sample_env) client_behind_7_busy) = 1%nat
  /\ updates_run (events_of (Tick sample_consts sample_env) client_behind_7_busy)
     <> Z.to_nat (Z.min 7 10)
  /\ gCurrentTicks (exec (Tick sample_consts sample_env) client_behind_7_busy) = 51
  /\ gCurrentTicks (exec (Tick sample_consts sample_env) client_behind_7_busy)
     <> gCurrentTicks client_behind_7_busy + Z.min 7 10.
Proof.
  split; [exact sample_quiet|]. vm_compute. repeat split; discriminate.
Qed.

(** Witness of C2, at speed level 4, and at speed 1 on a client with a
    busy input. *)
Lemma Tick_early_exit_only_at_speed_1_witness :
  count is_Loop_break (events_of (Tick sample_consts sample_env) solo_speed_4) = 0%nat
  /\ count is_Loop_break (events_of (Tick sample_consts sample_env) client_behind_7_busy)
     = 1%nat
  /\ updates_run (events_of (Tick sample_consts sample_env) client_behind_7_busy) = 1%nat.
Proof.
  split.
  - apply (Tick_early_exit_only_at_speed_1 nat sample_consts sample_env solo_speed_4).
    + exact sample_quiet.
    + vm_compute. discriminate.
  - apply (Tick_early_exit_only_at_speed_1 nat sample_consts sample_env
             client_behind_7_busy).
    + exact sample_quiet.
    + reflexivity.
    + reflexivity.
    + reflexivity.
    + vm_compute. reflexivity.
Defined.

(** Counterexample to C2 as stated: the loop of a connected and
    authenticated client
    that catches up seven ticks is left after the first update. *)
Lemma Tick_early_exit_only_at_speed_1_counterexample :
  quiet sample_env
  /\ catching_up client_behind_7_busy = true
  /\ numUpdates_of client_behind_7_busy = 7
  /\ count is_Loop_break (events_of (Tick sample_consts sample_env) client_behind_7_busy)
     = 1%nat
  /\ updates_run (events_of (Tick sample_consts sample_env) client_behind_7_busy) = 1%nat.
Proof.
  split; [exact sample_quiet|]. vm_compute. repeat split.
Qed.


(** Witness of C4, in a single player game outside the title demo and
    during it. *)
Lemma Tick_single_step_witness :
  (updates_run (events_of (Tick sample_consts sample_env) solo_single_step) = 1%nat
   /\ ticks_completed (events_of (Tick sample_consts sample_env) solo_single_step)
      = 1%nat
   /\ gDoSingleUpdate (exec (Tick sample_consts sample_env) solo_single_step) = false
   /\ gGamePaused (exec (Tick sample_consts sample_env) solo_single_step) = true)
  /\ (updates_run (events_of (Tick sample_consts sample_env) demo_single_step) = 1%nat
      /\ ticks_completed (events_of (Tick sample_consts sample_env) demo_single_step)
         = 1%nat
      /\ gDoSingleUpdate (exec (Tick sample_consts sample_env) demo_single_step)
         = false
      /\ gGamePaused (exec (Tick sample_consts sample_env) demo_single_step) = false).
Proof.
  destruct (Tick_single_step nat sample_consts sample_env solo_single_step)
    as (H1 & H2 & H3 & H4 & _);
    [exact sample_quiet | reflexivity | reflexivity | reflexivity |].
  destruct (Tick_single_step nat sample_consts sample_env demo_single_step)
    as (D1 & D2 & D3 & _ & D5);
    [exact sample_quiet | reflexivity | reflexivity | reflexivity |].
  split.
  - split; [exact H1|]. split; [exact H2|]. split; [exact H3|].
    apply H4. reflexivity.
  - split; [exact D1|]. split; [exact D2|]. split; [exact D3|].
    apply D5. reflexivity.
Defined.

(** Counterexample to C4 as stated: during the title demo the single
    step runs and
    the game is left running. *)
Lemma Tick_single_step_counterexample :
  quiet sample_env
  /\ gGamePaused demo_single_step = true
  /\ gDoSingleUpdate demo_single_step = true
  /\ network_get_mode demo_single_step = NETWORK_MODE_NONE
  /\ updates_run (events_of (Tick sample_consts sample_env) demo_single_step) = 1%nat
  /\ gGamePaused (exec (Tick sample_consts sample_env) demo_single_step) = false.
Proof.
  split; [exact sample_quiet|]. vm_compute. repeat split.
Qed.




(** The early return, on a client that has reached the server. *)
Lemma UpdateLogic_client_at_server_tick_example :
  events_of (UpdateLogic sample_consts sample_env) client_at_server
  = [Enter_UpdateLogic; Ext ReplayManager_Update; Ext network_update]
  /\ exec (UpdateLogic sample_consts sample_env) client_at_server
     = ext sample_env network_update
         (ext sample_env ReplayManager_Update
            (increment_gScreenAge sample_consts client_at_server))
  /\ gCurrentTicks (exec (UpdateLogic sample_consts sample_env) client_at_server)
     = gCurrentTicks client_at_server.
Proof.
  apply (UpdateLogic_client_at_server_tick nat sample_consts sample_env client_at_server).
  - exact sample_quiet.
  - reflexivity.
  - reflexivity.
Defined.

(** C6, the code at the failing input.  A client at tick 7 while the
    server announces tick 5 does not return early from [UpdateLogic]:
    the call runs the whole pipeline, guests and date included, and
    moves the counter on to tick 8, further past the server; [Tick]
    then runs ten updates in every frame, and after three frames the
    client is at tick 37 while the server is still at tick 5. *)
Theorem UpdateLogic_client_ahead_of_server :
  quiet sample_env
  /\ network_get_mode client_ahead_2 = NETWORK_MODE_CLIENT
  /\ network_get_server_tick client_ahead_2 = 5
  /\ gCurrentTicks client_ahead_2 = 7
  /\ result (UpdateLogic_network sample_consts sample_env) client_ahead_2 = true
  /\ ticks_completed (events_of (UpdateLogic sample_consts sample_env) client_ahead_2)
     = 1%nat
  /\ In (Ext PeepUpdateAll) (events_of (UpdateLogic sample_consts sample_env) client_ahead_2)
  /\ gCurrentTicks (exec (UpdateLogic sample_consts sample_env) client_ahead_2) = 8
  /\ _date (exec (UpdateLogic sample_consts sample_env) client_ahead_2)
     <> _date client_ahead_2
  /\ world (exec (UpdateLogic sample_consts sample_env) client_ahead_2)
     <> world client_ahead_2
  /\ updates_run (events_of (Tick sample_consts sample_env) client_ahead_2) = 10%nat
  /\ gCurrentTicks
       (exec (Tick sample_consts sample_env)
          (exec (Tick sample_consts sample_env)
             (exec (Tick sample_consts sample_env) client_ahead_2))) = 37
  /\ network_get_server_tick
       (exec (Tick sample_consts sample_env)
          (exec (Tick sample_consts sample_env)
             (exec (Tick sample_consts sample_env) client_ahead_2))) = 5.
Proof.
  split; [exact sample_quiet|]. vm_compute.
  repeat split; try discriminate. repeat (first [left; reflexivity | right]).
Qed.

(** Witness of C7, at the end of a month: the day changes and the day hook is
    notified. *)
Lemma UpdateLogic_day_hook_witness :
  In (Ext (HookEngine_Call INTERVAL_TICK))
     (events_of (UpdateLogic sample_consts sample_env) solo_end_of_month)
  /\ In (Ext (HookEngine_Call INTERVAL_DAY))
        (events_of (UpdateLogic sample_consts sample_env) solo_end_of_month).
Proof.
  destruct (UpdateLogic_day_hook nat sample_consts sample_env solo_end_of_month
              eq_refl sample_stable_date eq_refl) as (_ & Htick & Hday).
  split; [exact Htick|]. apply Hday. vm_compute. discriminate.
Defined.

(** Witness of C8, on a server at tick 100, over three updates. *)
Lemma UpdateLogic_server_snapshot_witness :
  linked_ticks (events_of (UpdateLogic_times sample_consts sample_env 3) server_running)
  = [100; 101; 102]
  /\ non_decreasing
       (linked_ticks (events_of (UpdateLogic_times sample_consts sample_env 3) server_running)).
Proof.
  destruct (UpdateLogic_server_snapshot nat sample_consts sample_env server_running 3)
    as (_ & Hlinked & Hsorted).
  - exact sample_quiet.
  - exact sample_stable_seed.
  - reflexivity.
  - reflexivity.
  - vm_compute. discriminate.
  - vm_compute. discriminate.
  - split; [exact Hlinked | exact Hsorted].
Defined.

(** Counterexample to C8 as stated: on a server at tick 4294967295 two
    updates in a
    row link their snapshots to the ticks 4294967295 and 0. *)
Lemma UpdateLogic_server_snapshot_counterexample :
  quiet sample_env
  /\ network_get_mode server_at_max = NETWORK_MODE_SERVER
  /\ network_gamestate_snapshots_enabled server_at_max = true
  /\ linked_ticks (events_of (UpdateLogic_times sample_consts sample_env 2) server_at_max)
     = [4294967295; 0]
  /\ ~ non_decreasing
         (linked_ticks
            (events_of (UpdateLogic_times sample_consts sample_env 2) server_at_max)).
Proof.
  split; [exact sample_quiet|]. vm_compute. repeat split.
  intros [H _]. apply H. reflexivity.
Qed.

(** Witness of C9, on a server at tick 100. *)
Lemma gCurrentTicks_advances_witness :
  gCurrentTicks (exec (UpdateLogic sample_consts sample_env) server_running) = 100 + 1
  /\ gCurrentTicks (exec (InitAll sample_consts sample_env 64 64) server_running) = 0.
Proof.
  destruct (gCurrentTicks_advances nat sample_consts sample_env server_running)
    as (Hdone & _ & _ & _ & Hinit).
  - exact sample_quiet.
  - vm_compute. split; [discriminate | reflexivity].
  - destruct (Hdone eq_refl) as (_ & Hone & _).
    split; [apply Hone; vm_compute; reflexivity | apply Hinit].
Defined.

(** Counterexample to C9 as stated: at tick 4294967295 a completed
    update takes the
    counter down to 0. *)
Lemma gCurrentTicks_advances_counterexample :
  quiet sample_env
  /\ at_server_tick solo_at_max = false
  /\ ticks_completed (events_of (UpdateLogic sample_consts sample_env) solo_at_max) = 1%nat
  /\ gCurrentTicks solo_at_max = 4294967295
  /\ gCurrentTicks (exec (UpdateLogic sample_consts sample_env) solo_at_max) = 0
  /\ gCurrentTicks (exec (UpdateLogic sample_consts sample_env) solo_at_max)
     < gCurrentTicks solo_at_max.
Proof.
  split; [exact sample_quiet|]. vm_compute. repeat split.
Qed.

(** Witness of C10, on a client two ticks ahead of the server. *)
Lemma numUpdates_client_ahead_witness :
  numUpdates_of client_ahead_2 = 10
  /\ updates_run (events_of (Tick sample_consts sample_env) client_ahead_2) = 10%nat.
Proof.
  destruct (numUpdates_client_ahead nat sample_consts sample_env client_ahead_2)
    as [Hn Hruns].
  - reflexivity.
  - vm_compute. discriminate.
  - vm_compute. reflexivity.
  - vm_compute. reflexivity.
  - vm_compute. discriminate.
  - split; [exact Hn|]. apply Hruns.
    + exact sample_quiet.
    + reflexivity.
    + right. reflexivity.
Defined.

(** Counterexample to C10 as stated: for a client at tick 4294967295
    and a server at
    tick 0 the subtraction wraps around to 1, and the clamp gives one
    update. *)
Lemma numUpdates_client_ahead_counterexample :
  catching_up client_ahead_max = true
  /\ network_get_server_tick client_ahead_max < gCurrentTicks client_ahead_max
  /\ wrap32 (network_get_server_tick client_ahead_max - gCurrentTicks client_ahead_max) = 1
  /\ numUpdates_of client_ahead_max = 1
  /\ numUpdates_of client_ahead_max <> 10.
Proof. vm_compute. repeat split. discriminate. Qed.

(** ** More examples on the sample configuration *)

(** The sample collaborators write the date globals and the world, and
    nothing else. *)
Lemma sample_stable_any (X : Type) (f : State nat -> X) :
  (forall m t w s, f (sample_with m t w s) = f s) -> stable sample_env f.
Proof.
  intros H c s. destruct c; try reflexivity;
    cbn [ext sample_env sample_ext]; try destruct (_ <=? _); apply H.
Qed.

Lemma sample_date_globals_owned : date_globals_owned sample_env.
Proof.
  intros c s Hc. destruct c; try (split; reflexivity). now contradiction Hc.
Qed.

Lemma sample_flashing_bits : flashing_bits sample_consts 0 1 2 3 15.
Proof.
  constructor; try reflexivity.
  - repeat split; discriminate.
  - repeat constructor; cbn [In]; intuition discriminate.
Qed.

(** Witness of X4: the update bound, at a client fifteen ticks behind. *)
Lemma Tick_update_bound_witness :
  (ticks_completed (events_of (Tick sample_consts sample_env) client_behind_15)
   <= updates_run (events_of (Tick sample_consts sample_env) client_behind_15))%nat
  /\ (updates_run (events_of (Tick sample_consts sample_env) client_behind_15) <= 10)%nat.
Proof.
  destruct (Tick_update_bound nat sample_consts sample_env client_behind_15) as [H1 H2].
  split; [exact H1|]. apply H2.
  - exact sample_stable_view.
  - reflexivity.
Defined.

(** Witness of X5: the idle client, at a client that has reached the
    server. *)
Lemma Tick_client_caught_up_witness :
  updates_run (events_of (Tick sample_consts sample_env) client_at_server) = 0%nat
  /\ count (calls is_GameActions_ProcessQueue)
       (events_of (Tick sample_consts sample_env) client_at_server) = 0%nat
  /\ count (calls is_network_process_pending)
       (events_of (Tick sample_consts sample_env) client_at_server) = 0%nat
  /\ gCurrentTicks (exec (Tick sample_consts sample_env) client_at_server) = 50.
Proof.
  apply (Tick_client_caught_up nat sample_consts sample_env client_at_server).
  - exact sample_quiet.
  - reflexivity.
  - reflexivity.
  - reflexivity.
Defined.

(** Witness of X6: the single step that a network session does not take,
    at a paused server. *)
Lemma Tick_network_single_step_witness :
  updates_run (events_of (Tick sample_consts sample_env) server_paused_single_step)
  = 0%nat
  /\ gCurrentTicks (exec (Tick sample_consts sample_env) server_paused_single_step) = 100
  /\ gGamePaused (exec (Tick sample_consts sample_env) server_paused_single_step) = true
  /\ gDoSingleUpdate (exec (Tick sample_consts sample_env) server_paused_single_step)
     = false.
Proof.
  apply (Tick_network_single_step nat sample_consts sample_env server_paused_single_step).
  - exact sample_quiet.
  - reflexivity.
  - reflexivity.
  - discriminate.
Defined.

(** Witness of X7: the announcement of the tick, at a server at speed
    level 3: four updates, four announcements. *)
Lemma Tick_announces_tick_witness :
  count (calls is_network_send_tick)
    (events_of (Tick sample_consts sample_env) server_speed_3)
  = (if NetworkMode_eqb (network_get_mode server_speed_3) NETWORK_MODE_SERVER
     then if isPaused_of server_speed_3 then 1%nat
          else updates_run (events_of (Tick sample_consts sample_env) server_speed_3)
     else 0%nat)
  /\ (1 <= count (calls is_network_send_tick)
            (events_of (Tick sample_consts sample_env) server_speed_3))%nat.
Proof.
  destruct (Tick_announces_tick nat sample_consts sample_env server_speed_3 sample_quiet)
    as [H1 H2].
  split; [exact H1|]. apply H2.
  - reflexivity.
  - vm_compute. discriminate.
Defined.

(** Witness of X8: the completion of every update, at speed level 4. *)
Lemma Tick_completes_every_update_witness :
  ticks_completed (events_of (Tick sample_consts sample_env) solo_speed_4)
  = updates_run (events_of (Tick sample_consts sample_env) solo_speed_4)
  /\ gCurrentTicks (exec (Tick sample_consts sample_env) solo_speed_4)
     = wrap32 (100 + Z.of_nat (updates_run (events_of (Tick sample_consts sample_env)
                                              solo_speed_4))).
Proof.
  apply (Tick_completes_every_update nat sample_consts sample_env solo_speed_4).
  - exact sample_quiet.
  - discriminate.
  - vm_compute. split; [discriminate | reflexivity].
Defined.

(** Witness of X9: the saved age, six ticks before its 16 bits of the
    sample configuration are used up: eight ticks take it from 65530
    to 2. *)
Lemma Tick_saved_age_witness :
  gSavedAge (exec (Tick sample_consts sample_env) solo_old_park) = 2
  /\ gSavedAge (exec (Tick sample_consts sample_env) solo_old_park)
     = wrap (SAVED_AGE_BITS sample_consts)
         (gSavedAge solo_old_park
          + Z.of_nat (ticks_completed
                        (events_of (Tick sample_consts sample_env) solo_old_park)))
  /\ wrap (SAVED_AGE_BITS sample_consts)
       (gCurrentTicks (exec (Tick sample_consts sample_env) solo_old_park)
        - gSavedAge (exec (Tick sample_consts sample_env) solo_old_park))
     = wrap (SAVED_AGE_BITS sample_consts)
         (gCurrentTicks solo_old_park - gSavedAge solo_old_park).
Proof.
  destruct (Tick_saved_age nat sample_consts sample_env solo_old_park) as [H1 H2].
  - apply sample_stable_any. reflexivity.
  - vm_compute. discriminate.
  - vm_compute. split; [discriminate | reflexivity].
  - split; [rewrite H1; vm_compute; reflexivity|]. split; [exact H1|]. apply H2.
    + exact sample_quiet.
    + vm_compute. discriminate.
    + vm_compute. split; [discriminate | reflexivity].
Defined.

(** Witness of X10: the screen age, two updates before it stops: eight
    updates take it from 65534 to 65535. *)
Lemma Tick_screen_age_witness :
  gScreenAge (exec (Tick sample_consts sample_env) solo_old_screen) = 65535
  /\ 65534 <= gScreenAge (exec (Tick sample_consts sample_env) solo_old_screen) < 2 ^ 16.
Proof.
  destruct (Tick_screen_age nat sample_consts sample_env solo_old_screen) as [H1 H2].
  - apply sample_stable_any. reflexivity.
  - vm_compute. discriminate.
  - vm_compute. split; [discriminate | reflexivity].
  - split; [rewrite H1; vm_compute; reflexivity | exact H2].
Defined.

(** In [autosave_env] only the autosave check writes the timer. *)
Lemma autosave_timer_owned : timer_owned autosave_env.
Proof.
  intros c s Hc. destruct c; try reflexivity; try (now contradiction Hc).
  cbn [ext autosave_env autosave_ext sample_ext]. destruct (_ <=? _); reflexivity.
Qed.

(** Witness of X11: the autosave timer, at a paused server whose
    autosave check puts the timer back to [AUTOSAVE_PAUSE]: the frame
    completes no tick, the check finds the timer at 1 as it was, and the
    timer ends at 0, as the check leaves it. *)
Lemma Tick_autosave_timer_witness :
  (gLastAutoSaveUpdate (exec (UpdateLogic sample_consts autosave_env) server_paused)
   = gLastAutoSaveUpdate server_paused
   \/ (gLastAutoSaveUpdate server_paused = AUTOSAVE_PAUSE sample_consts
       /\ ticks_completed (events_of (UpdateLogic sample_consts autosave_env)
                             server_paused) = 1%nat))
  /\ (exists checked : State nat,
        gLastAutoSaveUpdate checked = gLastAutoSaveUpdate server_paused
        /\ gLastAutoSaveUpdate (exec (Tick sample_consts autosave_env) server_paused)
           = if (count (calls is_ScenarioAutosaveCheck)
                   (events_of (Tick sample_consts autosave_env) server_paused)
                 =? 0)%nat
             then gLastAutoSaveUpdate server_paused
             else gLastAutoSaveUpdate (ext autosave_env ScenarioAutosaveCheck checked))
  /\ gLastAutoSaveUpdate (exec (Tick sample_consts autosave_env) server_paused) = 0.
Proof.
  destruct (Tick_autosave_timer nat sample_consts autosave_env server_paused
              autosave_timer_owned) as [H1 H2].
  split; [exact H1|]. split.
  - apply H2. left. vm_compute. reflexivity.
  - vm_compute. reflexivity.
Defined.

(** Witness of X12: the autosave check, during the title demo. *)
Lemma Tick_autosave_check_witness :
  count (calls is_ScenarioAutosaveCheck)
    (events_of (Tick sample_consts sample_env) demo_single_step) = 0%nat.
Proof.
  apply (Tick_autosave_check nat sample_consts sample_env demo_single_step).
  apply sample_stable_any. reflexivity.
Defined.

(** Witness of X13: the window calls, at a headless server. *)
Lemma Tick_window_calls_witness :
  count (calls is_ContextUpdateMapTooltip)
    (events_of (Tick sample_consts sample_env) headless_server) = 0%nat
  /\ count (calls is_ContextHandleInput)
       (events_of (Tick sample_consts sample_env) headless_server) = 0%nat
  /\ gWindowMapFlashingFlags (exec (Tick sample_consts sample_env) headless_server) = 1.
Proof.
  destruct (Tick_window_calls nat sample_consts sample_env headless_server)
    as (H1 & H2 & H3).
  - apply sample_stable_any. reflexivity.
  - split; [exact H1|]. split; [exact H2|]. apply H3.
    + apply sample_stable_any. reflexivity.
    + reflexivity.
Defined.

(** Witness of X14: the park update, at speed level 4: eight ticks,
    eight park updates, the first of them with the date of the first
    tick. *)
Lemma Tick_park_update_witness :
  count (calls is_Park_Update) (events_of (Tick sample_consts sample_env) solo_speed_4)
  = (if test_mask (gScreenFlags solo_speed_4) (SCREEN_FLAGS_EDITOR sample_consts)
     then 0%nat
     else ticks_completed (events_of (Tick sample_consts sample_env) solo_speed_4))
  /\ mkDate 0 4
     = mkDate (wrap32 (gDateMonthsElapsed (ext sample_env DateUpdate solo_speed_4)))
         (gDateMonthTicks (ext sample_env DateUpdate solo_speed_4)).
Proof.
  destruct (Tick_park_update nat sample_consts sample_env solo_speed_4) as [H1 H2].
  - apply sample_stable_any. reflexivity.
  - split; [exact H1|]. apply H2.
    + exact sample_stable_date.
    + vm_compute. repeat (first [ left; reflexivity | right ]).
Defined.

(** Witness of X15: the absence of snapshots, in a single player game. *)
Lemma Tick_no_snapshot_witness :
  count is_snapshot_call (events_of (Tick sample_consts sample_env) solo_speed_4) = 0%nat.
Proof.
  apply (Tick_no_snapshot nat sample_consts sample_env solo_speed_4).
  - apply sample_stable_any. reflexivity.
  - apply sample_stable_any. reflexivity.
  - right. reflexivity.
Defined.

(** Witness of X16: the desync check, at a client fifteen ticks behind:
    the sample collaborators report no desync. *)
Lemma UpdateLogic_client_desync_witness :
  result (UpdateLogic_network sample_consts sample_env) client_behind_15 = true
  /\ events_of (UpdateLogic_network sample_consts sample_env) client_behind_15
     = [Enter_UpdateLogic; Ext ReplayManager_Update; Ext network_update;
        Ext network_check_desynchronisation] ++ [].
Proof.
  apply (UpdateLogic_client_desync nat sample_consts sample_env client_behind_15).
  - exact sample_quiet.
  - exact sample_stable_seed.
  - reflexivity.
  - vm_compute. discriminate.
Defined.

(** Witness of X17: the date in sync, four month-ticks before the end of
    the month. *)
Lemma Tick_date_in_sync_witness :
  date_in_sync (exec (UpdateLogic sample_consts sample_env) solo_end_of_month)
  /\ date_in_sync (exec (Tick sample_consts sample_env) solo_end_of_month).
Proof.
  destruct (Tick_date_in_sync nat sample_consts sample_env solo_end_of_month
              sample_date_globals_owned sample_stable_date) as [H1 H2].
  split; [apply H1 | apply H2]; reflexivity.
Defined.

(** Witness of X18: the restart, on a server at tick 100: three updates
    after [InitAll] link the ticks 0, 1 and 2. *)
Lemma InitAll_restarts_witness :
  gInMapInitCode (exec (InitAll sample_consts sample_env 64 64) server_running) = false
  /\ gNextGuestNumber (exec (InitAll sample_consts sample_env 64 64) server_running) = 1
  /\ linked_ticks
       (events_of (bind (InitAll sample_consts sample_env 64 64)
                     (fun _ => UpdateLogic_times sample_consts sample_env 3))
          server_running)
     = [0; 1; 2].
Proof.
  destruct (InitAll_restarts nat sample_consts sample_env server_running 64 64 3
              sample_quiet) as (H1 & H2 & H3).
  split; [|split].
  - apply H1. apply sample_stable_any. reflexivity.
  - apply H2. apply sample_stable_any. reflexivity.
  - apply H3.
    + reflexivity.
    + reflexivity.
    + vm_compute. discriminate.
Defined.

(** Witness of X19: the flashing, with the guest list open: the guests
    flash, the mark is consumed and the colour switches. *)
Lemma update_map_flashing_bits_witness :
  let before := gWindowMapFlashingFlags solo_guest_list_open in
  let after :=
    gWindowMapFlashingFlags (update_map_flashing sample_consts solo_guest_list_open) in
  Z.testbit after 0 = false
  /\ Z.testbit after 2 = false
  /\ Z.testbit after 1 = Z.testbit before 0
  /\ Z.testbit after 3 = Z.testbit before 2
  /\ Z.testbit after 15
     = xorb (Z.testbit before 15) (gCurrentRealTimeTicks solo_guest_list_open mod 4 =? 0)
  /\ (forall i, 0 <= i -> ~ In i [0; 1; 2; 3; 15] ->
      Z.testbit after i = Z.testbit before i).
Proof.
  apply (update_map_flashing_bits nat sample_consts solo_guest_list_open 0 1 2 3 15).
  exact sample_flashing_bits.
Defined.

(** Witness of X20: the title sequence, at a paused game. *)
Lemma Tick_title_sequence_witness :
  count (calls is_TitleSequencePlayer_Update)
    (events_of (Tick sample_consts sample_env) solo_single_step) = 0%nat.
Proof.
  destruct (Tick_title_sequence nat sample_consts sample_env solo_single_step)
    as [_ H].
  - apply sample_stable_any. reflexivity.
  - apply H. reflexivity.
Defined.

(** Witness of X21: the snapshots of a frame, on a server at speed level
    3: four updates, linked to the ticks 100 to 103. *)
Lemma Tick_server_snapshots_witness :
  linked_ticks (events_of (Tick sample_consts sample_env) server_speed_3)
  = [100; 101; 102; 103].
Proof.
  apply (Tick_server_snapshots nat sample_consts sample_env server_speed_3).
  - exact sample_quiet.
  - reflexivity.
  - reflexivity.
  - reflexivity.
  - left. vm_compute. discriminate.
  - vm_compute. split; discriminate.
  - vm_compute. discriminate.
  - vm_compute. discriminate.
Defined.
